(** * Synthetic quad generators of janus: a shallow embedding

    The repository holds two stand-alone Python scripts,

    - [generate_historical_graph.py]: 100 points for two sensors, starting
      one hour before the wall-clock sample, one second apart, values cycling
      with period five;
    - [generate_realistic_data.py]: 1000 points for two sensors, index-based
      timestamps, a sine/cosine wave plus uniform noise, two decimals.

    Both write N-Quads-like lines to a file opened with [open(path, "w")]
    inside a [with] block and print one confirmation line afterwards.

    The scripts are embedded as computations of a small state-and-exception
    monad over a [World]: the file system, the table of open file handles and
    their buffers, the device's behaviour, the wall clock, the pseudo-random
    generator and the console.  Python [int] is [Z]; Python [float] is the kernel's binary64
    [float]; Python [str] is [string]. *)

From Stdlib Require Import ZArith Lia Ascii String.
From Stdlib Require Import Decimal DecimalString DecimalZ.
From Stdlib Require Import Floats.
From stdpp Require Import base option list gmap strings.

#[local] Open Scope Z_scope.

(** ** The Python runtime the scripts rely on *)

Module Py.

(** *** [str(int)] and the [{n}] interpolation of an f-string *)

Definition str (n : Z) : string := NilZero.string_of_int (Z.to_int n).

(** The inverse reading, [int(s)] on a decimal numeral. *)
Definition int_of_str (s : string) : option Z :=
  Z.of_int <$> NilZero.int_of_string s.

(** The two characters the f-strings escape: the double quote (code 34)
    and the line feed (code 10). *)
Definition dquote : ascii := Eval cbv in ascii_of_nat 34.
Definition newline : ascii := Eval cbv in ascii_of_nat 10.
Definition dq : string := String dquote "".
Definition nl : string := String newline "".

(** *** [int(x)] on a float: truncation toward zero, an exception on
    [nan] and the infinities. *)

Definition int_of_float (x : float) : option Z :=
  match Prim2SF x with
  | S754_zero _ => Some 0
  | S754_finite s m e =>
      let a := if (0 <=? e) then Z.pos m * 2 ^ e else Z.pos m / 2 ^ (- e) in
      Some (if s then - a else a)
  | S754_infinity _ | S754_nan => None
  end.

(** *** int -> float conversion in mixed arithmetic, for the ints the scripts
    convert (all in [0, 2^53), where it is exact). *)

Definition float_of_int (n : Z) : float := PrimFloat.of_uint63 (Uint63.of_Z n).

(** [math.pi], the binary64 nearest to pi. *)
Definition math_pi : float := 0x1.921fb54442d18p+1%float.

(** *** [format(x, ".2f")]: the exact binary value rounded half-to-even to
    a multiple of 1/100, printed with sign, integer part, point and two
    digits; [nan] and [inf] for the non-finite values. *)

(** [round_half_even n d] is the integer nearest to [n / d] ([d > 0],
    [n >= 0]), ties to even. *)
Definition round_half_even (n d : Z) : Z :=
  let q := n / d in
  let r := n mod d in
  match 2 * r ?= d with
  | Lt => q
  | Gt => q + 1
  | Eq => if Z.even q then q else q + 1
  end.

(** Hundredths of [m * 2^e], rounded. *)
Definition hundredths (m : positive) (e : Z) : Z :=
  if 0 <=? e then Z.pos m * 2 ^ e * 100
  else round_half_even (Z.pos m * 100) (2 ^ (- e)).

Definition two_digits (n : Z) : string :=
  str (n / 10) +:+ str (n mod 10).

Definition fixed2 (sign : bool) (h : Z) : string :=
  (if sign then "-" else "") +:+ str (h / 100) +:+ "." +:+ two_digits (h mod 100).

Definition format_2f (x : float) : string :=
  match Prim2SF x with
  | S754_nan => "nan"
  | S754_infinity s => if s then "-inf" else "inf"
  | S754_zero s => fixed2 s 0
  | S754_finite s m e => fixed2 s (hundredths m e)
  end.

(** *** Exceptions, the world, and the monad of scripts *)

Inductive exn : Type :=
  | OSError (request : nat)        (* raised by the [request]-th open/write call *)
  | OSErrorAtClose (handle : nat)  (* [OSError] too, raised by the flush of [close] *)
  | ValueError                     (* I/O on a closed file, [int(nan)] *)
  | OverflowError.                 (* [int(inf)] *)

Inductive Result (A : Type) : Type :=
  | Ok (a : A)
  | Raise (e : exn).
Arguments Ok {A} a.
Arguments Raise {A} e.

(** The file of [open(p, "w")] is buffered: [f.write] puts text in the
    buffer of the handle, and the device takes bytes from the buffer when it
    pleases, during a [write] or at [close].  How many it takes, and which
    calls it refuses, is the environment's choice; the world records it as
    functions of the request number (for [open] and [write]) and of the handle
    (for [close]). *)
Record World : Type := mkWorld {
  files : gmap string string;       (* path |-> bytes that reached the file *)
  open_fds : gmap nat string;       (* open handle |-> path *)
  buffers : gmap nat string;        (* open handle |-> text not yet in the file *)
  next_fd : nat;                    (* next handle to hand out *)
  io_requests : nat;                (* open/write calls made so far *)
  io_fails : nat -> bool;           (* environment: does call k raise? *)
  io_drains : nat -> nat;           (* environment: bytes the device takes during write k *)
  io_keeps : nat -> nat;            (* environment: bytes left buffered when write k raises *)
  close_fails : nat -> bool;        (* environment: does the close of handle h raise? *)
  close_drains : nat -> nat;        (* environment: bytes the device takes at such a close *)
  wall_clock : float;               (* environment: [time.time()] *)
  prng : nat -> float;              (* environment: k-th [random.random()] *)
  rng_draws : nat;                  (* draws consumed so far *)
  stdout : list string              (* lines printed *)
}.

(** The world with its state replaced, the environment kept. *)
Definition evolve (w : World) (fs : gmap string string) (fds bufs : gmap nat string)
    (nfd reqs draws : nat) (out : list string) : World :=
  mkWorld fs fds bufs nfd reqs (io_fails w) (io_drains w) (io_keeps w)
          (close_fails w) (close_drains w) (wall_clock w) (prng w) draws out.

Definition IO (A : Type) : Type := World -> Result A * World.

Definition ret {A} (a : A) : IO A := fun w => (Ok a, w).

Definition raise {A} (e : exn) : IO A := fun w => (Raise e, w).

Definition bind {A B} (c : IO A) (k : A -> IO B) : IO B := fun w =>
  match c w with
  | (Ok a, w1) => k a w1
  | (Raise e, w1) => (Raise e, w1)
  end.

Declare Scope io_scope.
Delimit Scope io_scope with io.
Bind Scope io_scope with IO.
Notation "x <- c ;; k" := (bind c (fun x => k))
  (at level 100, c at next level, k at level 200, right associativity) : io_scope.
Notation "c ;; k" := (bind c (fun _ => k))
  (at level 100, k at level 200, right associativity) : io_scope.

(** The first [n] characters of a string, and the rest. *)
Fixpoint string_take (n : nat) (s : string) : string :=
  match n, s with
  | S n', String c s' => String c (string_take n' s')
  | _, _ => ""
  end.

Fixpoint string_drop (n : nat) (s : string) : string :=
  match n, s with
  | S n', String c s' => string_drop n' s'
  | _, _ => s
  end.

(** A file object: the handle and the path it was opened on. *)
Record file : Type := mkFile { fd : nat; path : string }.

Definition tick (w : World) : World :=
  evolve w (files w) (open_fds w) (buffers w) (next_fd w) (S (io_requests w))
         (rng_draws w) (stdout w).

(** [open(p, "w")]: fails when the device says so; otherwise creates or
    truncates [p] and hands out a fresh handle with an empty buffer. *)
Definition open_w (p : string) : IO file := fun w =>
  if io_fails w (io_requests w) then (Raise (OSError (io_requests w)), tick w)
  else
    (Ok (mkFile (next_fd w) p),
     evolve w (<[p := ""]> (files w)) (<[next_fd w := p]> (open_fds w))
            (<[next_fd w := ""]> (buffers w))
            (S (next_fd w)) (S (io_requests w)) (rng_draws w) (stdout w)).

(** [f.write(s)]: [s] joins the buffer; the device takes a prefix of the
    buffer into the file.  When the call raises, only part of what is left may
    stay buffered. *)
Definition write (f : file) (s : string) : IO unit := fun w =>
  match open_fds w !! fd f with
  | None => (Raise ValueError, w)
  | Some p =>
      let k := io_requests w in
      let pending := default "" (buffers w !! fd f) +:+ s in
      let on_disk := default "" (files w !! p) +:+ string_take (io_drains w k) pending in
      let rest := string_drop (io_drains w k) pending in
      if io_fails w k then
        (Raise (OSError k),
         evolve w (<[p := on_disk]> (files w)) (open_fds w)
                (<[fd f := string_take (io_keeps w k) rest]> (buffers w))
                (next_fd w) (S k) (rng_draws w) (stdout w))
      else
        (Ok tt,
         evolve w (<[p := on_disk]> (files w)) (open_fds w)
                (<[fd f := rest]> (buffers w))
                (next_fd w) (S k) (rng_draws w) (stdout w))
  end.

(** [f.close()]: the buffer is flushed and the handle released.  When the
    flush fails the device has taken only a prefix of the buffer, the handle
    is released all the same, and the call raises. *)
Definition close (f : file) : IO unit := fun w =>
  match open_fds w !! fd f with
  | None => (Ok tt, w)
  | Some p =>
      let pending := default "" (buffers w !! fd f) in
      if close_fails w (fd f) then
        (Raise (OSErrorAtClose (fd f)),
         evolve w (<[p := default "" (files w !! p)
                          +:+ string_take (close_drains w (fd f)) pending]> (files w))
                (delete (fd f) (open_fds w)) (delete (fd f) (buffers w))
                (next_fd w) (io_requests w) (rng_draws w) (stdout w))
      else
        (Ok tt,
         evolve w (<[p := default "" (files w !! p) +:+ pending]> (files w))
                (delete (fd f) (open_fds w)) (delete (fd f) (buffers w))
                (next_fd w) (io_requests w) (rng_draws w) (stdout w))
  end.

(** [with open(p, "w") as f: body]: the file is closed when the block is
    left, whether [body] returned or raised.  An exception of [body] goes on to
    the caller, unless the close raises too: then that one does. *)
Definition with_open {A} (p : string) (body : file -> IO A) : IO A := fun w =>
  match open_w p w with
  | (Raise e, w1) => (Raise e, w1)
  | (Ok f, w1) =>
      let (r, w2) := body f w1 in
      match close f w2 with
      | (Ok _, w3) => (r, w3)
      | (Raise e, w3) => (Raise e, w3)
      end
  end.

(** [for x in l: body]. *)
Fixpoint for_each {A} (l : list A) (body : A -> IO unit) : IO unit :=
  match l with
  | [] => ret tt
  | x :: l' => bind (body x) (fun _ => for_each l' body)
  end.

(** [range(n)]. *)
Definition range (n : nat) : list Z := Z.of_nat <$> seq 0 n.

(** [print(s)]. *)
Definition print (s : string) : IO unit := fun w =>
  (Ok tt,
   evolve w (files w) (open_fds w) (buffers w) (next_fd w) (io_requests w)
          (rng_draws w) (stdout w ++ [s])).

(** [time.time()]. *)
Definition time_time : IO float := fun w => (Ok (wall_clock w), w).

(** [int(x)] as a statement that may raise: [ValueError] on [nan],
    [OverflowError] on an infinity. *)
Definition int_ (x : float) : IO Z :=
  match int_of_float x with
  | Some n => ret n
  | None => raise (if PrimFloat.is_nan x then ValueError else OverflowError)
  end.

(** [random.random()]: the next draw of the generator. *)
Definition random_random : IO float := fun w =>
  (Ok (prng w (rng_draws w)),
   evolve w (files w) (open_fds w) (buffers w) (next_fd w) (io_requests w)
          (S (rng_draws w)) (stdout w)).

(** [random.uniform(a, b)] is [a + (b - a) * random()]. *)
Definition random_uniform (a b : float) : IO float :=
  bind random_random (fun r => ret (a + (b - a) * r)%float).

(** *** Reading a file back: [f.readlines()], every line with its
    terminator. *)

Fixpoint readlines_go (cur s : string) : list string :=
  match s with
  | EmptyString => match cur with EmptyString => [] | _ => [cur] end
  | String c s' =>
      if Ascii.eqb c newline then (cur +:+ nl) :: readlines_go "" s'
      else readlines_go (cur +:+ String c "") s'
  end.

Definition readlines (s : string) : list string := readlines_go "" s.

(** [''.join(ls)]. *)
Fixpoint join (ls : list string) : string :=
  match ls with
  | [] => ""
  | l :: ls' => l +:+ join ls'
  end.

(** The contents of the file at [p], and its lines. *)
Definition contents (p : string) (w : World) : string := default "" (files w !! p).
Definition lines_of (p : string) (w : World) : list string := readlines (contents p w).

End Py.

(** ** Quads and their text form (the data model of the specification)

    A quad record and the line it stands for; [fields] splits a line on
    white space outside a quoted literal, [parse_quad] reads the five fields
    and the final period back. *)

Module Quads.
Import Py.

Record Quad : Type := mkQuad {
  timestamp : Z;
  subject : string;
  predicate : string;
  literal : string;
  datatype : string;
  graph : string
}.

Definition angle (uri : string) : string := "<" +:+ uri +:+ ">".

Definition typed_literal (lit dt : string) : string :=
  dq +:+ lit +:+ dq +:+ "^^" +:+ angle dt.

Definition serialize_quad (q : Quad) : string :=
  str (timestamp q) +:+ " " +:+ angle (subject q) +:+ " " +:+ angle (predicate q)
  +:+ " " +:+ typed_literal (literal q) (datatype q) +:+ " " +:+ angle (graph q)
  +:+ " " +:+ "." +:+ nl.

Definition flush (cur : string) : list string :=
  match cur with EmptyString => [] | _ => [cur] end.

Fixpoint fields_go (inq : bool) (cur s : string) : list string :=
  match s with
  | EmptyString => flush cur
  | String c s' =>
      if Ascii.eqb c dquote then fields_go (negb inq) (cur +:+ String c "") s'
      else if negb inq && Ascii.is_space c then flush cur ++ fields_go false "" s'
      else fields_go inq (cur +:+ String c "") s'
  end.

Definition fields (line : string) : list string := fields_go false "" line.

(** [chop c s] removes a final [c]. *)
Fixpoint chop (c : ascii) (s : string) : option string :=
  match s with
  | EmptyString => None
  | String a EmptyString => if Ascii.eqb a c then Some "" else None
  | String a s' => String a <$> chop c s'
  end.

Definition unangle (s : string) : option string :=
  match s with
  | String a r => if Ascii.eqb a "<" then chop ">" r else None
  | EmptyString => None
  end.

(** [split_at c s] cuts [s] at its first [c]. *)
Fixpoint split_at (c : ascii) (s : string) : option (string * string) :=
  match s with
  | EmptyString => None
  | String a s' =>
      if Ascii.eqb a c then Some ("", s')
      else '(l, r) ← split_at c s'; Some (String a l, r)
  end.

Definition parse_literal (o : string) : option (string * string) :=
  match o with
  | String a r =>
      if Ascii.eqb a dquote then
        '(lit, rest) ← split_at dquote r;
        match rest with
        | String "^" (String "^" u) => dt ← unangle u; Some (lit, dt)
        | _ => None
        end
      else None
  | EmptyString => None
  end.

Definition parse_quad (line : string) : option Quad :=
  match fields line with
  | [t; s; p; o; g; dot] =>
      if String.eqb dot "." then
        ts ← int_of_str t;
        s' ← unangle s;
        p' ← unangle p;
        '(lit, dt) ← parse_literal o;
        g' ← unangle g;
        Some (mkQuad ts s' p' lit dt g')
      else None
  | _ => None
  end.

(** The digits after the decimal point of a literal. *)
Definition fraction_of (s : string) : option string := snd <$> split_at "." s.

(** Character classes. *)
Fixpoint all_chars (P : ascii -> bool) (s : string) : bool :=
  match s with
  | EmptyString => true
  | String c s' => P c && all_chars P s'
  end.

Definition not_dquote (c : ascii) : bool := negb (Ascii.eqb c dquote).
Definition not_newline (c : ascii) : bool := negb (Ascii.eqb c newline).
Definition plain (c : ascii) : bool := not_dquote c && negb (Ascii.is_space c).

Definition lit_char (c : ascii) : bool := not_dquote c && not_newline c.

(** The characters of a decimal numeral. *)
Definition numeral_char (c : ascii) : bool :=
  Ascii.eqb c "-" || (Nat.leb 48 (nat_of_ascii c) && Nat.leb (nat_of_ascii c) 57).

(** A quad whose URIs hold no white space or quote, and whose literal holds
    no quote or line feed. *)
Definition wf_quad (q : Quad) : bool :=
  all_chars plain (subject q) && all_chars plain (predicate q)
  && all_chars plain (datatype q) && all_chars plain (graph q)
  && all_chars lit_char (literal q).

(** A string that is one line: no line feed but the final one. *)
Definition one_line (l : string) : Prop :=
  exists b, l = b +:+ nl /\ all_chars not_newline b = true.

Definition xsd_decimal : string := "http://www.w3.org/2001/XMLSchema#decimal".
Definition sensor1 : string := "http://example.org/sensor1".
Definition sensor2 : string := "http://example.org/sensor2".
Definition temperature : string := "http://example.org/temperature".
Definition sensorStream : string := "http://example.org/sensorStream".

End Quads.

Import Py.
#[local] Open Scope io_scope.

(** ** [generate_historical_graph.py] *)

Module Historical.

Definition out_path : string := "data/sensors_historical_graph.nq".

(** The two f-strings of the loop body. *)
Definition sensor1_line (timestamp i : Z) : string :=
  str timestamp +:+ " <http://example.org/sensor1> <http://example.org/temperature> " +:+ dq
  +:+ str (20 + (i mod 5))
  +:+ dq +:+ "^^<http://www.w3.org/2001/XMLSchema#decimal> <http://example.org/sensorStream> ."
  +:+ nl.

Definition sensor2_line (timestamp i : Z) : string :=
  str timestamp +:+ " <http://example.org/sensor2> <http://example.org/temperature> " +:+ dq
  +:+ str (22 + (i mod 5))
  +:+ dq +:+ "^^<http://www.w3.org/2001/XMLSchema#decimal> <http://example.org/sensorStream> ."
  +:+ nl.

(** The script from the binding of [one_hour_ago] on, for a given [now]. *)
Definition generate (now : Z) : IO unit :=
  let one_hour_ago := now - (60 * 60 * 1000) in
  with_open out_path (fun f =>
    for_each (range 100) (fun i =>
      let timestamp := one_hour_ago + (i * 1000) in
      write f (sensor1_line timestamp i) ;;
      write f (sensor2_line timestamp i))) ;;
  print ("Generated data/sensors_historical_graph.nq with start timestamp "
         +:+ str one_hour_ago).

(** The whole script: [now = int(time.time() * 1000)], then the above. *)
Definition main : IO unit :=
  t <- time_time ;;
  now <- int_ (t * 1000)%float ;;
  generate now.

End Historical.

(** ** [generate_realistic_data.py] *)

Module Realistic.

Section Libm.

(** [math.sin] and [math.cos] are the C library's; the script is embedded
    over any pair of functions on binary64. *)
Variables math_sin math_cos : float -> float.

Definition out_path : string := "data/realistic_sensors.nq".

Definition num_points : nat := 1000.
Definition base_temp : float := 23.0%float.

Definition sensor1_line (timestamp : Z) (val1 : float) : string :=
  str timestamp +:+ " <http://example.org/sensor1> <http://example.org/temperature> " +:+ dq
  +:+ format_2f val1
  +:+ dq +:+ "^^<http://www.w3.org/2001/XMLSchema#decimal> <http://example.org/sensorStream> ."
  +:+ nl.

Definition sensor2_line (timestamp : Z) (val2 : float) : string :=
  str timestamp +:+ " <http://example.org/sensor2> <http://example.org/temperature> " +:+ dq
  +:+ format_2f val2
  +:+ dq +:+ "^^<http://www.w3.org/2001/XMLSchema#decimal> <http://example.org/sensorStream> ."
  +:+ nl.

(** [i * 2 * math.pi / 100]: the int product is converted, then multiplied
    and divided in binary64. *)
Definition phase (i : Z) : float :=
  (float_of_int (i * 2) * math_pi / float_of_int 100)%float.

Definition main : IO unit :=
  with_open out_path (fun f =>
    for_each (range num_points) (fun i =>
      let timestamp := 1000 * i in
      let sine_component := (2.0 * math_sin (phase i))%float in
      noise <- random_uniform (-0.5)%float 0.5%float ;;
      let val1 := (base_temp + sine_component + noise)%float in
      write f (sensor1_line timestamp val1) ;;
      let cosine_component := (2.0 * math_cos (phase i))%float in
      noise2 <- random_uniform (-0.5)%float 0.5%float ;;
      let val2 := (base_temp + cosine_component + noise2)%float in
      write f (sensor2_line timestamp val2))) ;;
  print ("Generated data/realistic_sensors.nq with "
         +:+ str (Z.of_nat num_points) +:+ " points").

End Libm.

End Realistic.

(** ** The course of a run

    Both scripts open a file, write two lines per index, close it and
    print; what a run leaves behind is decided by the first call the device
    refuses and by what the device took from the buffer. *)

Module Runs.
Import Py.

(** The first request that fails among [len] requests from [start] on. *)
Fixpoint find_fault (fails : nat -> bool) (start len : nat) : option nat :=
  match len with
  | O => None
  | S len' => if fails start then Some start else find_fault fails (S start) len'
  end.

(** The text that [m] writes of the lines [line 0], [line 1], ... hand to
    the file object. *)
Definition written (line : nat -> string) (m : nat) : string :=
  join (line <$> seq 0 m).

Definition fault_bump (failed : bool) : nat := if failed then 1%nat else 0%nat.

(** How many bytes of that text the device has taken after [a] writes, the
    first of which is request [first]. *)
Fixpoint flushed (drains : nat -> nat) (first : nat) (line : nat -> string)
    (a : nat) : nat :=
  match a with
  | O => 0%nat
  | S a' =>
      Nat.min (flushed drains first line a' + drains (first + a')%nat)
              (String.length (written line (S a')))
  end.

(** Inside the [with] block: the world [w1] reached by [open], after [m]
    accepted writes and [d] draws, and one more write when that one was
    refused.  The file holds what the device took, the buffer of the handle
    [h] the rest, or what is kept of it after the refused write. *)
Definition at_ (w1 : World) (p : string) (h : nat) (line : nat -> string)
    (m d : nat) (failed : bool) : World :=
  let a := (m + fault_bump failed)%nat in
  let f := flushed (io_drains w1) (io_requests w1) line a in
  let rest := string_drop f (written line a) in
  evolve w1 (<[p := string_take f (written line a)]> (files w1)) (open_fds w1)
         (<[h := if failed then string_take (io_keeps w1 (io_requests w1 + m)%nat) rest
                 else rest]> (buffers w1))
         (next_fd w1) (io_requests w1 + m + fault_bump failed) (rng_draws w1 + d)
         (stdout w1).

(** The same with [dpw] draws made before each write. *)
Definition after (w1 : World) (p : string) (h : nat) (line : nat -> string) (dpw : nat)
    (m : nat) (failed : bool) : World :=
  at_ w1 p h line m (dpw * (m + fault_bump failed)) failed.

(** The world [open] reaches from [w] when it succeeds. *)
Definition opened (p : string) (w : World) : World :=
  evolve w (<[p := ""]> (files w)) (<[next_fd w := p]> (open_fds w))
         (<[next_fd w := ""]> (buffers w))
         (S (next_fd w)) (S (io_requests w)) (rng_draws w) (stdout w).

(** The world a script leaves once its file is closed: the file holds
    [content]; [nreq] requests and [ndraw] draws were made, [out] was printed,
    the handle and its buffer are released. *)
Definition final (w : World) (p content : string) (nreq ndraw : nat)
    (out : list string) : World :=
  evolve w (<[p := content]> (files w)) (delete (next_fd w) (open_fds w))
         (delete (next_fd w) (buffers w))
         (S (next_fd w)) (io_requests w + nreq) (rng_draws w + ndraw) (stdout w ++ out).

(** What the file holds when the block is left after [a] writes, the last
    of them refused as request [refused] if any: what the device had taken,
    and what the close takes of the buffer. *)
Definition left_on_disk (w : World) (line : nat -> string) (a : nat)
    (refused : option nat) : string :=
  let f := flushed (io_drains w) (S (io_requests w)) line a in
  let rest := string_drop f (written line a) in
  let pending := match refused with
                 | Some q => string_take (io_keeps w q) rest
                 | None => rest
                 end in
  string_take f (written line a)
  +:+ (if close_fails w (next_fd w) then string_take (close_drains w (next_fd w)) pending
       else pending).

(** The outcome of a script that opens [p], writes [2 * n] lines with [dpw]
    draws before each write, closes, and prints [msg]: decided by the first
    failing request and by the close. *)
Definition outcome (w : World) (p : string) (line : nat -> string)
    (dpw n : nat) (msg : string) : Result unit * World :=
  match find_fault (io_fails w) (io_requests w) (S (2 * n)) with
  | None =>
      if close_fails w (next_fd w) then
        (Raise (OSErrorAtClose (next_fd w)),
         final w p (left_on_disk w line (2 * n) None) (S (2 * n)) (dpw * (2 * n)) [])
      else
        (Ok tt, final w p (written line (2 * n)) (S (2 * n)) (dpw * (2 * n)) [msg])
  | Some q =>
      if decide (q = io_requests w) then (Raise (OSError q), tick w)
      else
        let a := (q - io_requests w)%nat in
        (Raise (if close_fails w (next_fd w) then OSErrorAtClose (next_fd w)
                else OSError q),
         final w p (left_on_disk w line a (Some q)) (a + 1) (dpw * a) [])
  end.

End Runs.

Module HistoricalRun.
Import Py Quads Runs.

(** The quads the historical generator stands for, at index [i]. *)
Definition quad1 (now i : Z) : Quad :=
  mkQuad (now - 60 * 60 * 1000 + i * 1000) sensor1 temperature
         (str (20 + i mod 5)) xsd_decimal sensorStream.

Definition quad2 (now i : Z) : Quad :=
  mkQuad (now - 60 * 60 * 1000 + i * 1000) sensor2 temperature
         (str (22 + i mod 5)) xsd_decimal sensorStream.

(** The [m]-th line the loop writes: iteration [m / 2], first or second
    [write]. *)
Definition line (now : Z) (m : nat) : string :=
  let i := Z.of_nat (m / 2) in
  let timestamp := now - (60 * 60 * 1000) + (i * 1000) in
  if Nat.even m then Historical.sensor1_line timestamp i
  else Historical.sensor2_line timestamp i.

Definition message (now : Z) : string :=
  "Generated data/sensors_historical_graph.nq with start timestamp "
  +:+ str (now - (60 * 60 * 1000)).

End HistoricalRun.

Module RealisticRun.
Import Py Quads Runs.

Section Libm.
Variables math_sin math_cos : float -> float.

(** What [random.uniform(-0.5, 0.5)] returns on the draw [r]. *)
Definition noise_of (r : float) : float := (-0.5 + (0.5 - -0.5) * r)%float.

Definition val1 (i : Z) (noise : float) : float :=
  (Realistic.base_temp + 2.0 * math_sin (Realistic.phase i) + noise)%float.

Definition val2 (i : Z) (noise2 : float) : float :=
  (Realistic.base_temp + 2.0 * math_cos (Realistic.phase i) + noise2)%float.

Definition quad1 (i : Z) (noise : float) : Quad :=
  mkQuad (1000 * i) sensor1 temperature (format_2f (val1 i noise))
         xsd_decimal sensorStream.

Definition quad2 (i : Z) (noise2 : float) : Quad :=
  mkQuad (1000 * i) sensor2 temperature (format_2f (val2 i noise2))
         xsd_decimal sensorStream.

(** The [m]-th line the loop writes, when the generator's draws are [rnd]
    and [d0] of them were consumed before the run: iteration [m / 2], first
    or second [write], noise from draw [d0 + m]. *)
Definition line (rnd : nat -> float) (d0 : nat) (m : nat) : string :=
  let i := Z.of_nat (m / 2) in
  let noise := noise_of (rnd (d0 + m)%nat) in
  if Nat.even m then Realistic.sensor1_line (1000 * i) (val1 i noise)
  else Realistic.sensor2_line (1000 * i) (val2 i noise).

End Libm.

Definition message : string :=
  "Generated data/realistic_sensors.nq with "
  +:+ str (Z.of_nat Realistic.num_points) +:+ " points".

End RealisticRun.

(** ** Records of a run, and the vocabulary of the statements *)

Module Records.
Import Py Quads Runs.

(** The quad on line [k] (0-based) of the file at [p], when that line
    exists and reads as a quad. *)
Definition record_at (p : string) (w : World) (k : nat) : option Quad :=
  lines_of p w !! k ≫= parse_quad.

Definition subject_at (p : string) (w : World) (k : nat) : option string :=
  subject <$> record_at p w k.

Definition timestamp_at (p : string) (w : World) (k : nat) : option Z :=
  timestamp <$> record_at p w k.

Definition literal_at (p : string) (w : World) (k : nat) : option string :=
  literal <$> record_at p w k.

(** The literal of line [k] read as an integer. *)
Definition value_at (p : string) (w : World) (k : nat) : option Z :=
  literal_at p w k ≫= int_of_str.

(** A line that reads as a sensor record: six fields (five and the period),
    the text of a quad with the fixed URIs. *)
Definition sensor_record (l : string) : Prop :=
  exists q : Quad,
    l = serialize_quad q /\
    fields l = [str (timestamp q); angle (subject q); angle (predicate q);
                typed_literal (literal q) (datatype q); angle (graph q); "."] /\
    parse_quad l = Some q /\
    (subject q = sensor1 \/ subject q = sensor2) /\
    predicate q = temperature /\
    datatype q = xsd_decimal /\
    graph q = sensorStream.

(** A line that reads as the record of [sensor] at the time [ts]. *)
Definition record_of (sensor : string) (ts : Z) (l : string) : Prop :=
  sensor_record l /\
  timestamp <$> parse_quad l = Some ts /\
  subject <$> parse_quad l = Some sensor.

(** The first failing request of a run that starts in [w] is [q]. *)
Definition first_fault (w : World) (q : nat) : Prop :=
  (io_requests w <= q)%nat /\ io_fails w q = true /\
  forall j, (io_requests w <= j < q)%nat -> io_fails w j = false.

End Records.

Module HistoricalRecords.
Import Py Quads Runs HistoricalRun.

(** The wall-clock sample of the script: [int(time.time() * 1000)]. *)
Definition sample (w : World) : option Z := int_of_float (wall_clock w * 1000)%float.

(** The record behind the [m]-th line. *)
Definition record (now : Z) (m : nat) : Quad :=
  if Nat.even m then quad1 now (Z.of_nat (m / 2)) else quad2 now (Z.of_nat (m / 2)).

(** All records of a run, in the order of the loop. *)
Definition records (now : Z) : list Quad :=
  flat_map (fun k => [quad1 now (Z.of_nat k); quad2 now (Z.of_nat k)]) (seq 0 100).

End HistoricalRecords.

Module RealisticRecords.
Import Py Quads Runs RealisticRun.

Section Libm.
Variables math_sin math_cos : float -> float.

Definition record (rnd : nat -> float) (d0 : nat) (m : nat) : Quad :=
  let i := Z.of_nat (m / 2) in
  let noise := noise_of (rnd (d0 + m)%nat) in
  if Nat.even m then quad1 math_sin i noise else quad2 math_cos i noise.

(** All records of a run that finds [d0] draws already consumed. *)
Definition records (rnd : nat -> float) (d0 : nat) : list Quad :=
  flat_map (fun k => [quad1 math_sin (Z.of_nat k) (noise_of (rnd (d0 + 2 * k)%nat));
                      quad2 math_cos (Z.of_nat k) (noise_of (rnd (d0 + S (2 * k))%nat))])
           (seq 0 Realistic.num_points).

End Libm.

End RealisticRecords.

(** ** Sample worlds *)

Module Demo.
Import Py.

(** No files, a device that takes all it is handed and never fails, the
    clock at 1700000000 s. *)
Definition world : World :=
  mkWorld ∅ ∅ ∅ 0 0 (fun _ => false) (fun _ => 4096%nat) (fun _ => 0%nat)
          (fun _ => false) (fun _ => 0%nat)
          1700000000.0%float (fun _ => 0.25%float) 0 [].

(** A device that refuses request [k] (and only that one), takes 100 bytes
    on each write and loses what is buffered when it refuses. *)
Definition faulty (k : nat) : World :=
  mkWorld ∅ ∅ ∅ 0 0 (fun j => Nat.eqb j k) (fun _ => 100%nat) (fun _ => 0%nat)
          (fun _ => false) (fun _ => 0%nat)
          1700000000.0%float (fun _ => 0.25%float) 0 [].

(** A device that accepts every write into the buffer, takes nothing before
    the close and fails there after 50 bytes. *)
Definition failing_close : World :=
  mkWorld ∅ ∅ ∅ 0 0 (fun _ => false) (fun _ => 0%nat) (fun _ => 0%nat)
          (fun _ => true) (fun _ => 50%nat)
          1700000000.0%float (fun _ => 0.25%float) 0 [].

(** A world that earlier runs left: both files hold a stale line, requests
    and draws were made, something was printed. *)
Definition stale : World :=
  mkWorld (<["data/sensors_historical_graph.nq" := "stale" +:+ nl]>
             (<["data/realistic_sensors.nq" := "stale" +:+ nl]> ∅))
          ∅ ∅ 4 10 (fun _ => false) (fun _ => 4096%nat) (fun _ => 0%nat)
          (fun _ => false) (fun _ => 0%nat)
          1700000000.0%float (fun _ => 0.25%float) 7
          ["earlier output"].

(** Stand-ins for the C library's functions in sample runs. *)
Definition flat_sin (x : float) : float := 0.0%float.
Definition flat_cos (x : float) : float := 1.0%float.

End Demo.

(** ** Shapes of literals *)

Module Shapes.

(** A decimal digit. *)
Definition is_digit (c : ascii) : bool :=
  Nat.leb 48 (nat_of_ascii c) && Nat.leb (nat_of_ascii c) 57.

End Shapes.

(** ** Values of binary64 numbers *)

Module FloatValue.

(** Binary64 values on one integer scale: the finite value [m * 2^e] is
    the integer [m * 2^(e + scale)]; all exponents that occur, the sums of
    two exponents of a product included, are above [- scale]. *)
Definition scale : Z := 2200.

Definition unit_at (e : Z) : Z := 2 ^ (e + scale).

Definition SF2Z (x : spec_float) : Z :=
  match x with
  | S754_finite s m e => cond_Zopp s (Z.pos m * unit_at e)
  | _ => 0
  end.

(** Zeros and finite numbers. *)
Definition fin (x : spec_float) : bool :=
  match x with
  | S754_zero _ | S754_finite _ _ _ => true
  | _ => false
  end.

(** [lo <= x <= hi], as Python compares floats. *)
Definition within (lo hi x : float) : Prop :=
  (lo <=? x)%float = true /\ (x <=? hi)%float = true.

End FloatValue.

(** * Facts *)

(** ** Strings *)

Module StrFacts.
Import Py Quads.

Lemma sapp_nil_l (s : string) : "" +:+ s = s.
Proof. reflexivity. Qed.

Lemma sapp_nil_r (s : string) : s +:+ "" = s.
Proof. induction s as [|c s IH]; [reflexivity|]. change (String c (s +:+ "") = String c s). by rewrite IH. Qed.

Lemma sapp_assoc (a b c : string) : (a +:+ b) +:+ c = a +:+ b +:+ c.
Proof.
  induction a as [|x a IH]; [reflexivity|].
  change (String x ((a +:+ b) +:+ c) = String x (a +:+ b +:+ c)). by rewrite IH.
Qed.

Lemma sapp_snoc (a : string) (c : ascii) (b : string) :
  (a +:+ String c "") +:+ b = a +:+ String c b.
Proof. by rewrite sapp_assoc. Qed.

Lemma all_chars_app P (a b : string) :
  all_chars P (a +:+ b) = all_chars P a && all_chars P b.
Proof.
  induction a as [|x a IH]; [reflexivity|].
  change (P x && all_chars P (a +:+ b) = P x && all_chars P a && all_chars P b).
  rewrite IH. by destruct (P x).
Qed.

Lemma all_chars_impl (P Q : ascii -> bool) (s : string) :
  (forall c, P c = true -> Q c = true) ->
  all_chars P s = true -> all_chars Q s = true.
Proof.
  intros HPQ. induction s as [|x s IH]; [done|]. simpl.
  intros [Hx Hs]%andb_prop. rewrite (HPQ _ Hx). by apply IH.
Qed.

Lemma uint_chars (d : uint) : all_chars numeral_char (NilEmpty.string_of_uint d) = true.
Proof. induction d; simpl; auto. Qed.

Lemma nz_uint_chars (d : uint) : all_chars numeral_char (NilZero.string_of_uint d) = true.
Proof. unfold NilZero.string_of_uint. destruct d; try reflexivity; apply uint_chars. Qed.

Lemma str_chars (z : Z) : all_chars numeral_char (str z) = true.
Proof.
  unfold str, NilZero.string_of_int.
  destruct (Z.to_int z) as [d|d]; [apply nz_uint_chars|].
  change (numeral_char "-" && all_chars numeral_char (NilZero.string_of_uint d) = true).
  by rewrite nz_uint_chars.
Qed.

Lemma numeral_plain (c : ascii) : numeral_char c = true -> plain c = true.
Proof. destruct c as [[] [] [] [] [] [] [] []]; vm_compute; congruence. Qed.

Lemma numeral_lit (c : ascii) :
  numeral_char c = true -> not_dquote c && not_newline c = true.
Proof. destruct c as [[] [] [] [] [] [] [] []]; vm_compute; congruence. Qed.

Lemma str_plain (z : Z) : all_chars plain (str z) = true.
Proof. eapply all_chars_impl; [apply numeral_plain | apply str_chars]. Qed.

Lemma str_nonempty (z : Z) : exists c s, str z = String c s.
Proof.
  unfold str, NilZero.string_of_int, NilZero.string_of_uint.
  destruct (Z.to_int z) as [d|d]; destruct d; simpl; eauto.
Qed.

Lemma int_of_str_str (z : Z) : int_of_str (str z) = Some z.
Proof.
  unfold int_of_str, str. rewrite NilZero.isi.
  - simpl. by rewrite DecimalZ.of_to.
  - destruct z; simpl; try discriminate. intros [= H]. by apply DecimalPos.Unsigned.to_uint_nonnil in H.
  - destruct z; simpl; try discriminate. intros [= H]. by apply DecimalPos.Unsigned.to_uint_nonnil in H.
Qed.

End StrFacts.

Module TextFacts.
Import Py Quads StrFacts.

Lemma str_lit (z : Z) : all_chars lit_char (str z) = true.
Proof. eapply all_chars_impl; [apply numeral_lit | apply str_chars]. Qed.

Lemma fixed2_lit (s : bool) (h : Z) : all_chars lit_char (fixed2 s h) = true.
Proof.
  unfold fixed2, two_digits.
  rewrite !all_chars_app, !str_lit. by destruct s.
Qed.

(** [format(x, ".2f")] never writes a quote or a line feed. *)
Lemma format_2f_lit (x : float) : all_chars lit_char (format_2f x) = true.
Proof.
  unfold format_2f. destruct (Prim2SF x) as [s|s| |s m e];
    try apply fixed2_lit; try destruct s; reflexivity.
Qed.

(** *** Lines *)

Lemma readlines_go_line (a cur rest : string) :
  all_chars not_newline a = true ->
  readlines_go cur (a +:+ nl +:+ rest) = (cur +:+ a +:+ nl) :: readlines_go "" rest.
Proof.
  revert cur. induction a as [|c a IH]; intros cur Ha.
  - reflexivity.
  - simpl in Ha. apply andb_prop in Ha as [Hc Ha].
    change (String c a +:+ nl +:+ rest) with (String c (a +:+ nl +:+ rest)).
    simpl readlines_go. unfold not_newline in Hc.
    destruct (Ascii.eqb c newline); [done|].
    rewrite IH by done. by rewrite sapp_snoc.
Qed.

Lemma readlines_go_join (ls : list string) :
  Forall one_line ls -> readlines_go "" (join ls) = ls.
Proof.
  induction 1 as [|l ls (b & -> & Hb) _ IH]; [reflexivity|].
  simpl join. rewrite sapp_assoc, readlines_go_line by done.
  by rewrite IH.
Qed.

Lemma readlines_join (ls : list string) :
  Forall one_line ls -> readlines (join ls) = ls.
Proof. apply readlines_go_join. Qed.

(** *** Fields of a serialized quad *)

Lemma fields_go_plain (a cur rest : string) :
  all_chars plain a = true ->
  fields_go false cur (a +:+ rest) = fields_go false (cur +:+ a) rest.
Proof.
  revert cur. induction a as [|c a IH]; intros cur Ha.
  - by rewrite sapp_nil_r.
  - simpl in Ha. apply andb_prop in Ha as [Hc Ha].
    change (String c a +:+ rest) with (String c (a +:+ rest)).
    simpl fields_go. unfold plain, not_dquote in Hc.
    destruct (Ascii.eqb c dquote); [done|].
    destruct (Ascii.is_space c); [by rewrite andb_comm in Hc|].
    simpl. rewrite IH by done. by rewrite sapp_snoc.
Qed.

Lemma fields_go_quoted (a cur rest : string) :
  all_chars not_dquote a = true ->
  fields_go true cur (a +:+ rest) = fields_go true (cur +:+ a) rest.
Proof.
  revert cur. induction a as [|c a IH]; intros cur Ha.
  - by rewrite sapp_nil_r.
  - simpl in Ha. apply andb_prop in Ha as [Hc Ha].
    change (String c a +:+ rest) with (String c (a +:+ rest)).
    simpl fields_go. unfold not_dquote in Hc.
    destruct (Ascii.eqb c dquote); [done|].
    simpl. rewrite IH by done. by rewrite sapp_snoc.
Qed.

Lemma fields_go_space (cur rest : string) :
  fields_go false cur (" " +:+ rest) = flush cur ++ fields_go false "" rest.
Proof. reflexivity. Qed.

Lemma fields_go_dquote (inq : bool) (cur rest : string) :
  fields_go inq cur (dq +:+ rest) = fields_go (negb inq) (cur +:+ dq) rest.
Proof. reflexivity. Qed.

Lemma angle_plain (u : string) : all_chars plain u = true -> all_chars plain (angle u) = true.
Proof. intros H. unfold angle. by rewrite !all_chars_app, H. Qed.

Lemma lit_not_dquote (s : string) : all_chars lit_char s = true -> all_chars not_dquote s = true.
Proof. apply all_chars_impl. intros c. unfold lit_char. by intros [? _]%andb_prop. Qed.

Lemma lit_not_newline (s : string) : all_chars lit_char s = true -> all_chars not_newline s = true.
Proof. apply all_chars_impl. intros c. unfold lit_char. by intros [_ ?]%andb_prop. Qed.

Lemma plain_not_newline (s : string) : all_chars plain s = true -> all_chars not_newline s = true.
Proof.
  apply all_chars_impl. intros c. destruct c as [[] [] [] [] [] [] [] []]; vm_compute; congruence.
Qed.

Lemma wf_quad_inv (q : Quad) :
  wf_quad q = true ->
  all_chars plain (subject q) = true /\ all_chars plain (predicate q) = true /\
  all_chars plain (datatype q) = true /\ all_chars plain (graph q) = true /\
  all_chars lit_char (literal q) = true.
Proof.
  unfold wf_quad. intros H.
  repeat (apply andb_prop in H as [H ?]). auto.
Qed.

Lemma fields_serialize (q : Quad) :
  wf_quad q = true ->
  fields (serialize_quad q) =
    [str (timestamp q); angle (subject q); angle (predicate q);
     typed_literal (literal q) (datatype q); angle (graph q); "."].
Proof.
  intros (Hs & Hp & Hd & Hg & Hl)%wf_quad_inv.
  destruct (str_nonempty (timestamp q)) as (c0 & s0 & Hts).
  unfold fields, serialize_quad, typed_literal.
  rewrite fields_go_plain by apply str_plain. rewrite fields_go_space.
  rewrite fields_go_plain by by apply angle_plain. rewrite fields_go_space.
  rewrite fields_go_plain by by apply angle_plain. rewrite fields_go_space.
  rewrite !sapp_assoc.
  rewrite fields_go_dquote. simpl negb.
  rewrite fields_go_quoted by by apply lit_not_dquote.
  rewrite fields_go_dquote. simpl negb.
  rewrite <- (sapp_assoc "^^"), fields_go_plain.
  2:{ rewrite all_chars_app. by rewrite angle_plain. }
  rewrite fields_go_space.
  rewrite fields_go_plain by by apply angle_plain. rewrite fields_go_space.
  change ("" +:+ ?x) with x.
  rewrite Hts. unfold angle, nl. simpl.
  rewrite <- !sapp_assoc. reflexivity.
Qed.

End TextFacts.

Module ParseFacts.
Import Py Quads StrFacts TextFacts.

Lemma chop_snoc (c : ascii) (u : string) : chop c (u +:+ String c "") = Some u.
Proof.
  induction u as [|a u IH].
  - simpl. by rewrite Ascii.eqb_refl.
  - change (String a u +:+ String c "") with (String a (u +:+ String c "")).
    simpl chop. rewrite IH.
    destruct u; reflexivity.
Qed.

Lemma unangle_angle (u : string) : unangle (angle u) = Some u.
Proof. unfold angle. simpl. apply chop_snoc. Qed.

Lemma split_at_app (c : ascii) (a rest : string) :
  all_chars (fun x => negb (Ascii.eqb x c)) a = true ->
  split_at c (a +:+ String c rest) = Some (a, rest).
Proof.
  induction a as [|x a IH]; intros Ha.
  - simpl. by rewrite Ascii.eqb_refl.
  - simpl in Ha. apply andb_prop in Ha as [Hx Ha].
    change (String x a +:+ String c rest) with (String x (a +:+ String c rest)).
    simpl split_at. destruct (Ascii.eqb x c); [done|].
    by rewrite IH.
Qed.

Lemma parse_typed_literal (lit dt : string) :
  all_chars not_dquote lit = true ->
  parse_literal (typed_literal lit dt) = Some (lit, dt).
Proof.
  intros Hl. unfold typed_literal, dq.
  change (String dquote "" +:+ lit +:+ String dquote "" +:+ "^^" +:+ angle dt)
    with (String dquote (lit +:+ String dquote ("^^" +:+ angle dt))).
  unfold parse_literal.
  rewrite Ascii.eqb_refl.
  rewrite split_at_app by done. simpl.
  by rewrite sapp_nil_l, (chop_snoc ">").
Qed.

#[local] Arguments angle : simpl never.
#[local] Arguments typed_literal : simpl never.
#[local] Arguments unangle : simpl never.
#[local] Arguments parse_literal : simpl never.
#[local] Arguments int_of_str : simpl never.

(** Reading a serialized quad back gives the quad. *)
Lemma parse_serialize (q : Quad) :
  wf_quad q = true -> parse_quad (serialize_quad q) = Some q.
Proof.
  intros Hq. unfold parse_quad. rewrite fields_serialize by done.
  apply wf_quad_inv in Hq as (_ & _ & _ & _ & Hl).
  simpl String.eqb. rewrite int_of_str_str. simpl.
  rewrite !unangle_angle. simpl.
  rewrite parse_typed_literal by by apply lit_not_dquote. simpl.
  by destruct q.
Qed.

Lemma serialize_one_line (q : Quad) : wf_quad q = true -> one_line (serialize_quad q).
Proof.
  intros (Hs & Hp & Hd & Hg & Hl)%wf_quad_inv.
  exists (str (timestamp q) +:+ " " +:+ angle (subject q) +:+ " " +:+ angle (predicate q)
  +:+ " " +:+ typed_literal (literal q) (datatype q) +:+ " " +:+ angle (graph q)
  +:+ " " +:+ ".").
  split.
  - unfold serialize_quad. by rewrite !sapp_assoc.
  - unfold typed_literal.
    rewrite !all_chars_app.
    rewrite (plain_not_newline _ (str_plain _)).
    rewrite (plain_not_newline _ (angle_plain _ Hs)), (plain_not_newline _ (angle_plain _ Hp)),
      (plain_not_newline _ (angle_plain _ Hd)), (plain_not_newline _ (angle_plain _ Hg)).
    by rewrite (lit_not_newline _ Hl).
Qed.

End ParseFacts.

(** ** Cutting strings *)

Module CutFacts.
Import Py StrFacts.

Lemma length_append (a b : string) :
  String.length (a +:+ b) = (String.length a + String.length b)%nat.
Proof.
  induction a as [|x a IH]; [reflexivity|].
  change (S (String.length (a +:+ b)) = S (String.length a + String.length b)).
  by rewrite IH.
Qed.

Lemma take_drop (n : nat) (s : string) : string_take n s +:+ string_drop n s = s.
Proof.
  revert n. induction s as [|c s IH]; intros [|n]; try reflexivity.
  cbn [string_take string_drop].
  change (String c (string_take n s +:+ string_drop n s) = String c s).
  by rewrite IH.
Qed.

Lemma take_0 (s : string) : string_take 0 s = "".
Proof. by destruct s. Qed.

Lemma drop_0 (s : string) : string_drop 0 s = s.
Proof. by destruct s. Qed.

Lemma take_nil (n : nat) : string_take n "" = "".
Proof. by destruct n. Qed.

Lemma drop_nil (n : nat) : string_drop n "" = "".
Proof. by destruct n. Qed.

Lemma take_all (n : nat) (s : string) :
  (String.length s <= n)%nat -> string_take n s = s.
Proof.
  revert n. induction s as [|c s IH]; intros [|n] H; try reflexivity.
  - simpl in H. lia.
  - cbn [string_take]. rewrite IH; [done|]. simpl in H. lia.
Qed.

Lemma drop_all (n : nat) (s : string) :
  (String.length s <= n)%nat -> string_drop n s = "".
Proof.
  revert n. induction s as [|c s IH]; intros [|n] H; try reflexivity.
  - simpl in H. lia.
  - cbn [string_drop]. apply IH. simpl in H. lia.
Qed.

Lemma length_take (n : nat) (s : string) :
  String.length (string_take n s) = Nat.min n (String.length s).
Proof.
  revert n. induction s as [|c s IH]; intros [|n]; try reflexivity.
  cbn [string_take String.length]. rewrite IH. lia.
Qed.

Lemma take_app_le (n : nat) (a b : string) :
  (n <= String.length a)%nat -> string_take n (a +:+ b) = string_take n a.
Proof.
  revert n. induction a as [|x a IH]; intros [|n] H.
  - by rewrite !take_0.
  - simpl in H. lia.
  - by rewrite !take_0.
  - change (String x (string_take n (a +:+ b)) = String x (string_take n a)).
    rewrite IH; [done|]. simpl in H. lia.
Qed.

Lemma drop_app_le (n : nat) (a b : string) :
  (n <= String.length a)%nat -> string_drop n (a +:+ b) = string_drop n a +:+ b.
Proof.
  revert n. induction a as [|x a IH]; intros [|n] H.
  - by rewrite !drop_0.
  - simpl in H. lia.
  - by rewrite !drop_0.
  - change (string_drop n (a +:+ b) = string_drop n a +:+ b).
    apply IH. simpl in H. lia.
Qed.

Lemma take_take_drop (a b : nat) (s : string) :
  string_take a s +:+ string_take b (string_drop a s) = string_take (a + b) s.
Proof.
  revert a. induction s as [|c s IH]; intros [|a].
  - by rewrite !take_nil.
  - by rewrite drop_nil, !take_nil.
  - by rewrite take_0, drop_0.
  - change (String c (string_take a s +:+ string_take b (string_drop a s))
            = String c (string_take (a + b) s)).
    by rewrite IH.
Qed.

Lemma drop_drop (a b : nat) (s : string) :
  string_drop b (string_drop a s) = string_drop (a + b) s.
Proof.
  revert a. induction s as [|c s IH]; intros [|a].
  - by rewrite !drop_nil.
  - by rewrite !drop_nil.
  - by rewrite drop_0.
  - change (string_drop b (string_drop a s) = string_drop (a + b) s). apply IH.
Qed.

Lemma take_take (a b : nat) (s : string) :
  string_take a (string_take b s) = string_take (Nat.min a b) s.
Proof.
  revert a b. induction s as [|c s IH]; intros [|a] [|b]; try reflexivity.
  cbn [string_take Nat.min]. by rewrite IH.
Qed.

Lemma take_min (n : nat) (s : string) :
  string_take (Nat.min n (String.length s)) s = string_take n s.
Proof.
  destruct (Nat.le_ge_cases n (String.length s)).
  - by rewrite Nat.min_l.
  - rewrite Nat.min_r by done. by rewrite !take_all.
Qed.

Lemma drop_min (n : nat) (s : string) :
  string_drop (Nat.min n (String.length s)) s = string_drop n s.
Proof.
  destruct (Nat.le_ge_cases n (String.length s)).
  - by rewrite Nat.min_l.
  - rewrite Nat.min_r by done. by rewrite !drop_all.
Qed.

(** A prefix of the text followed by a prefix of the rest is a prefix of
    the text, and no shorter. *)
Lemma take_then_take (a b : nat) (s : string) :
  exists N, (a <= N)%nat /\
    string_take a s +:+ string_take b (string_drop a s) = string_take N s.
Proof. exists (a + b)%nat. split; [lia|apply take_take_drop]. Qed.

End CutFacts.

(** ** The block of writes *)

Module RunFacts.
Import Py Runs StrFacts CutFacts.

Lemma join_app (a b : list string) : join (a ++ b) = join a +:+ join b.
Proof.
  induction a as [|x a IH]; [reflexivity|].
  simpl. by rewrite IH, sapp_assoc.
Qed.

Lemma written_S (line : nat -> string) (m : nat) :
  written line (S m) = written line m +:+ line m.
Proof.
  unfold written. rewrite seq_S, fmap_app, join_app. simpl.
  by rewrite sapp_nil_r.
Qed.

Lemma flushed_le (drains : nat -> nat) (first : nat) (line : nat -> string) (a : nat) :
  (flushed drains first line a <= String.length (written line a))%nat.
Proof. destruct a; simpl; lia. Qed.

Lemma bind_ok {A B} (c : IO A) (k : A -> IO B) (w w' : World) (a : A) :
  c w = (Ok a, w') -> bind c k w = k a w'.
Proof. unfold bind. by intros ->. Qed.

Lemma bind_raise {A B} (c : IO A) (k : A -> IO B) (w w' : World) (e : exn) :
  c w = (Raise e, w') -> bind c k w = (Raise e, w').
Proof. unfold bind. by intros ->. Qed.

Section Block.

Variables (w1 : World) (f : file) (p : string) (line : nat -> string).
Hypothesis Hfd : open_fds w1 !! fd f = Some p.

#[local] Abbreviation at_ := (at_ w1 p (fd f) line).

Lemma at_eq (m m' d d' : nat) (b : bool) : m = m' -> d = d' -> at_ m d b = at_ m' d' b.
Proof. by intros -> ->. Qed.

(** What one more write makes of the file and of the buffer. *)
Lemma write_cut (m : nat) :
  let F := flushed (io_drains w1) (io_requests w1) line in
  let pending := string_drop (F m) (written line m) +:+ line m in
  let k := io_drains w1 (io_requests w1 + m)%nat in
  string_take (F m) (written line m) +:+ string_take k pending
  = string_take (F (S m)) (written line (S m))
  /\ string_drop k pending = string_drop (F (S m)) (written line (S m)).
Proof.
  intros F pending k.
  pose proof (flushed_le (io_drains w1) (io_requests w1) line m) as Hle.
  fold (F m) in Hle.
  assert (Hp : pending = string_drop (F m) (written line (S m))).
  { unfold pending. by rewrite written_S, drop_app_le. }
  assert (Ht : string_take (F m) (written line m)
               = string_take (F m) (written line (S m))).
  { by rewrite written_S, take_app_le. }
  rewrite Hp, Ht, take_take_drop, drop_drop.
  change (F (S m)) with
    (Nat.min (F m + k) (String.length (written line (S m)))).
  by rewrite take_min, drop_min.
Qed.

Lemma write_at (m d : nat) :
  write f (line m) (at_ m d false) =
  if io_fails w1 (io_requests w1 + m)
  then (Raise (OSError (io_requests w1 + m)), at_ m d true)
  else (Ok tt, at_ (S m) d false).
Proof.
  destruct (write_cut m) as [Hdisk Hrest].
  unfold write, Runs.at_. cbn [open_fds evolve files buffers io_requests io_fails
    io_drains io_keeps fault_bump next_fd rng_draws stdout].
  rewrite Hfd, !Nat.add_0_r, !lookup_insert_eq. cbn [default from_option id].
  rewrite !insert_insert_eq.
  cbv zeta in Hdisk, Hrest. rewrite Hdisk, Hrest.
  replace (m + 1)%nat with (S m) by lia.
  replace (io_requests w1 + m + 1)%nat with (S (io_requests w1 + m)) by lia.
  replace (io_requests w1 + S m)%nat with (S (io_requests w1 + m)) by lia.
  by destruct (io_fails w1 (io_requests w1 + m)).
Qed.

Lemma write_line (m d : nat) (s : string) :
  s = line m ->
  write f s (at_ m d false) =
  if io_fails w1 (io_requests w1 + m)
  then (Raise (OSError (io_requests w1 + m)), at_ m d true)
  else (Ok tt, at_ (S m) d false).
Proof. intros ->. apply write_at. Qed.

Lemma draw_at (m d : nat) :
  random_random (at_ m d false) = (Ok (prng w1 (rng_draws w1 + d)), at_ m (S d) false).
Proof. unfold random_random, Runs.at_. simpl. do 2 f_equal. lia. Qed.

Lemma uniform_at (a b : float) (m d : nat) :
  random_uniform a b (at_ m d false) =
  (Ok (a + (b - a) * prng w1 (rng_draws w1 + d))%float, at_ m (S d) false).
Proof. unfold random_uniform. by erewrite bind_ok by apply draw_at. Qed.

Variables (dpw n : nat) (body : Z -> IO unit).

#[local] Abbreviation after := (after w1 p (fd f) line dpw).

Hypothesis body_spec : forall k, (k < n)%nat ->
  body (Z.of_nat k) (after (2 * k) false) =
  if io_fails w1 (io_requests w1 + 2 * k)
  then (Raise (OSError (io_requests w1 + 2 * k)), after (2 * k) true)
  else if io_fails w1 (io_requests w1 + S (2 * k))
  then (Raise (OSError (io_requests w1 + S (2 * k))), after (S (2 * k)) true)
  else (Ok tt, after (2 * S k) false).

Lemma loop_spec (cnt a : nat) :
  (a + cnt <= n)%nat ->
  for_each (Z.of_nat <$> seq a cnt) body (after (2 * a) false) =
  match find_fault (io_fails w1) (io_requests w1 + 2 * a) (2 * cnt) with
  | Some q => (Raise (OSError q), after (q - io_requests w1) true)
  | None => (Ok tt, after (2 * (a + cnt)) false)
  end.
Proof.
  revert a. induction cnt as [|cnt IH]; intros a Ha.
  - change (2 * 0)%nat with 0%nat. cbn [seq fmap list_fmap for_each find_fault].
    unfold ret. do 2 f_equal. lia.
  - replace (2 * S cnt)%nat with (S (S (2 * cnt))) by lia.
    cbn [seq fmap list_fmap for_each]. unfold bind.
    rewrite body_spec by lia. cbn [find_fault].
    destruct (io_fails w1 (io_requests w1 + 2 * a)).
    { do 2 f_equal. lia. }
    replace (S (io_requests w1 + 2 * a)) with (io_requests w1 + S (2 * a))%nat by lia.
    destruct (io_fails w1 (io_requests w1 + S (2 * a))).
    { do 2 f_equal. lia. }
    rewrite IH by lia.
    replace (io_requests w1 + 2 * S a)%nat with (S (io_requests w1 + S (2 * a))) by lia.
    destruct (find_fault _ _ _); [done|].
    do 2 f_equal. lia.
Qed.

End Block.

End RunFacts.

(** ** The scripts' run equation *)

Module ScriptFacts.
Import Py Runs StrFacts CutFacts RunFacts.

Lemma find_fault_Some (fails : nat -> bool) (len start q : nat) :
  find_fault fails start len = Some q ->
  (start <= q < start + len)%nat /\ fails q = true /\
  forall j, (start <= j < q)%nat -> fails j = false.
Proof.
  revert start. induction len as [|len IH]; intros start; simpl; [done|].
  destruct (fails start) eqn:E.
  - intros [= <-]. repeat split; [lia..|done|intros; lia].
  - intros (? & ? & Hj)%IH. repeat split; [lia..|done|].
    intros j ?. destruct (decide (j = start)) as [->|]; [done|]. apply Hj. lia.
Qed.

Lemma find_fault_None (fails : nat -> bool) (len start : nat) :
  find_fault fails start len = None <->
  forall j, (start <= j < start + len)%nat -> fails j = false.
Proof.
  revert start. induction len as [|len IH]; intros start; simpl.
  - split; [intros; lia|done].
  - destruct (fails start) eqn:E.
    + split; [done|]. intros H. rewrite H in E; [done|lia].
    + rewrite IH. split; intros H j ?.
      * destruct (decide (j = start)) as [->|]; [done|]. apply H. lia.
      * apply H. lia.
Qed.

(** The first fault, found by its defining property. *)
Lemma find_fault_first (fails : nat -> bool) (len start q : nat) :
  (start <= q < start + len)%nat -> fails q = true ->
  (forall j, (start <= j < q)%nat -> fails j = false) ->
  find_fault fails start len = Some q.
Proof.
  intros Hq Hf Hj.
  destruct (find_fault fails start len) as [q'|] eqn:E.
  - apply find_fault_Some in E as (? & Hf' & Hj').
    f_equal. destruct (Nat.lt_trichotomy q q') as [?|[?|?]]; [|done|].
    + rewrite Hj' in Hf; [done|lia].
    + rewrite Hj in Hf'; [done|lia].
  - rewrite find_fault_None in E. rewrite E in Hf; [done|lia].
Qed.

(** When every write was accepted and the close succeeds, the file holds
    all that was written. *)
Lemma left_on_disk_all (w : World) (line : nat -> string) (a : nat) :
  close_fails w (next_fd w) = false ->
  left_on_disk w line a None = written line a.
Proof. unfold left_on_disk. intros ->. apply take_drop. Qed.

(** What is left is always a prefix of what was written, and holds at least
    what the device had taken. *)
Lemma left_on_disk_prefix (w : World) (line : nat -> string) (a : nat)
    (refused : option nat) :
  exists N, (flushed (io_drains w) (S (io_requests w)) line a <= N)%nat /\
    left_on_disk w line a refused = string_take N (written line a).
Proof.
  unfold left_on_disk.
  set (F := flushed _ _ _ _). set (W := written line a).
  assert (Hall : forall s : string, s = string_take (String.length s) s).
  { intros s. by rewrite take_all. }
  destruct refused as [q|]; destruct (close_fails w (next_fd w)).
  - rewrite take_take. apply take_then_take.
  - apply take_then_take.
  - apply take_then_take.
  - rewrite (Hall (string_drop F W)). apply take_then_take.
Qed.

Section Script.

Variables (p : string) (n : nat) (body : file -> Z -> IO unit) (msg : string).
Variables (line : nat -> string) (dpw : nat) (w : World).

Hypothesis body_spec : forall k, (k < n)%nat ->
  let w1 := opened p w in
  body (mkFile (next_fd w) p) (Z.of_nat k) (after w1 p (next_fd w) line dpw (2 * k) false) =
  if io_fails w1 (io_requests w1 + 2 * k)
  then (Raise (OSError (io_requests w1 + 2 * k)), after w1 p (next_fd w) line dpw (2 * k) true)
  else if io_fails w1 (io_requests w1 + S (2 * k))
  then (Raise (OSError (io_requests w1 + S (2 * k))),
        after w1 p (next_fd w) line dpw (S (2 * k)) true)
  else (Ok tt, after w1 p (next_fd w) line dpw (2 * S k) false).

Lemma after_opened_0 :
  after (opened p w) p (next_fd w) line dpw (2 * 0) false = opened p w.
Proof.
  unfold after, at_, opened, fault_bump. simpl.
  rewrite !insert_insert_eq, !Nat.add_0_r, Nat.mul_0_r, Nat.add_0_r. done.
Qed.

(** Leaving the block: the close takes what is buffered, or part of it
    when it fails, and releases the handle either way. *)
Lemma close_after (m : nat) (failed : bool) :
  close (mkFile (next_fd w) p) (after (opened p w) p (next_fd w) line dpw m failed) =
  let a := (m + fault_bump failed)%nat in
  let content :=
    left_on_disk w line a
      (if failed then Some (S (io_requests w) + m)%nat else None) in
  ((if close_fails w (next_fd w) then Raise (OSErrorAtClose (next_fd w)) else Ok tt),
   final w p content (S a) (dpw * a) []).
Proof.
  unfold close, after, at_, opened, final, left_on_disk.
  cbn [open_fds evolve files buffers io_requests io_fails io_drains io_keeps
       close_fails close_drains next_fd rng_draws stdout fd path].
  rewrite !lookup_insert_eq. cbn [default from_option id].
  rewrite !insert_insert_eq, !delete_insert_eq, app_nil_r.
  replace (io_requests w + S (m + fault_bump failed))%nat
    with (S (io_requests w) + m + fault_bump failed)%nat by lia.
  by destruct failed, (close_fails w (next_fd w)).
Qed.

Theorem script_outcome :
  bind (with_open p (fun f => for_each (range n) (body f))) (fun _ => print msg) w
  = outcome w p line dpw n msg.
Proof.
  unfold outcome. cbn [find_fault].
  unfold bind, with_open, open_w.
  destruct (io_fails w (io_requests w)) eqn:E.
  { by rewrite decide_True. }
  change (evolve w _ _ _ _ _ _ _) with (opened p w).
  rewrite <- after_opened_0 at 1. unfold range.
  pose proof (loop_spec (opened p w) (mkFile (next_fd w) p) p line dpw n _
                body_spec n 0 ltac:(lia)) as L.
  cbn [fd] in L. rewrite L. clear L.
  change (io_fails (opened p w)) with (io_fails w).
  change (io_requests (opened p w)) with (S (io_requests w)).
  rewrite Nat.mul_0_r, Nat.add_0_r.
  destruct (find_fault (io_fails w) (S (io_requests w)) (2 * n)) as [q|] eqn:F.
  - apply find_fault_Some in F as (Hq & _ & _).
    rewrite decide_False by lia.
    rewrite close_after. cbv zeta. cbn [fault_bump].
    replace (S (io_requests w) + (q - S (io_requests w)))%nat with q by lia.
    replace (q - S (io_requests w) + 1)%nat with (q - io_requests w)%nat by lia.
    replace (S (q - io_requests w)) with (q - io_requests w + 1)%nat by lia.
    by destruct (close_fails w (next_fd w)).
  - rewrite close_after. cbv zeta. cbn [fault_bump].
    rewrite !Nat.add_0_r.
    destruct (close_fails w (next_fd w)) eqn:C; [done|].
    rewrite left_on_disk_all by done.
    unfold print, final. simpl. by rewrite app_nil_r.
Qed.

End Script.

End ScriptFacts.

Module ArithFacts.

Lemma half_even (k : nat) : (2 * k / 2 = k)%nat.
Proof. rewrite Nat.mul_comm. apply Nat.div_mul. lia. Qed.

Lemma half_odd (k : nat) : (S (2 * k) / 2 = k)%nat.
Proof. symmetry. apply (Nat.div_unique _ _ _ 1); lia. Qed.

Lemma even_double (k : nat) : Nat.even (2 * k) = true.
Proof. by rewrite Nat.even_mul. Qed.

Lemma even_S_double (k : nat) : Nat.even (S (2 * k)) = false.
Proof. by rewrite Nat.even_succ, Nat.odd_mul. Qed.

End ArithFacts.

Module HistoricalFacts.
Import Py Quads Runs StrFacts TextFacts ParseFacts RunFacts ScriptFacts ArithFacts.
Import Historical HistoricalRun.

Lemma hist_sensor1_line_quad (ts i : Z) :
  sensor1_line ts i =
  serialize_quad (mkQuad ts sensor1 temperature (str (20 + i mod 5)) xsd_decimal sensorStream).
Proof.
  unfold sensor1_line, serialize_quad, typed_literal. simpl.
  rewrite !sapp_assoc. reflexivity.
Qed.

Lemma hist_sensor2_line_quad (ts i : Z) :
  sensor2_line ts i =
  serialize_quad (mkQuad ts sensor2 temperature (str (22 + i mod 5)) xsd_decimal sensorStream).
Proof.
  unfold sensor2_line, serialize_quad, typed_literal. simpl.
  rewrite !sapp_assoc. reflexivity.
Qed.

Lemma line_even_src (now : Z) (k : nat) :
  line now (2 * k) =
  sensor1_line (now - (60 * 60 * 1000) + (Z.of_nat k * 1000)) (Z.of_nat k).
Proof. unfold line. by rewrite even_double, half_even. Qed.

Lemma line_odd_src (now : Z) (k : nat) :
  line now (S (2 * k)) =
  sensor2_line (now - (60 * 60 * 1000) + (Z.of_nat k * 1000)) (Z.of_nat k).
Proof. unfold line. by rewrite even_S_double, half_odd. Qed.

Lemma hist_line_even (now : Z) (k : nat) :
  line now (2 * k) = serialize_quad (quad1 now (Z.of_nat k)).
Proof. by rewrite line_even_src, hist_sensor1_line_quad. Qed.

Lemma hist_line_odd (now : Z) (k : nat) :
  line now (S (2 * k)) = serialize_quad (quad2 now (Z.of_nat k)).
Proof. by rewrite line_odd_src, hist_sensor2_line_quad. Qed.

Lemma hist_quad1_wf (now i : Z) : wf_quad (quad1 now i) = true.
Proof. unfold wf_quad, quad1. simpl. by rewrite str_lit. Qed.

Lemma hist_quad2_wf (now i : Z) : wf_quad (quad2 now i) = true.
Proof. unfold wf_quad, quad2. simpl. by rewrite str_lit. Qed.

(** The run equation of the historical generator. *)
Theorem generate_outcome (now : Z) (w : World) :
  generate now w = outcome w out_path (line now) 0 100 (message now).
Proof.
  unfold generate. apply script_outcome.
  intros k Hk w1. unfold after. rewrite !Nat.mul_0_l. unfold bind.
  assert (Hfd : open_fds w1 !! fd (mkFile (next_fd w) out_path) = Some out_path)
    by apply lookup_insert_eq.
  rewrite <- line_even_src, <- line_odd_src.
  rewrite (write_at w1 _ out_path (line now) Hfd).
  destruct (io_fails w1 (io_requests w1 + 2 * k)); [done|].
  rewrite (write_at w1 _ out_path (line now) Hfd).
  destruct (io_fails w1 (io_requests w1 + S (2 * k))); [done|].
  f_equal. apply (at_eq w1 (mkFile (next_fd w) out_path)); lia.
Qed.

End HistoricalFacts.

Module RealisticFacts.
Import Py Quads Runs StrFacts TextFacts ParseFacts RunFacts ScriptFacts ArithFacts.
Import Realistic RealisticRun.

Section Libm.
Variables math_sin math_cos : float -> float.

#[local] Abbreviation line := (line math_sin math_cos).
#[local] Abbreviation quad1 := (quad1 math_sin).
#[local] Abbreviation quad2 := (quad2 math_cos).

Lemma real_sensor1_line_quad (ts : Z) (v : float) :
  sensor1_line ts v =
  serialize_quad (mkQuad ts sensor1 temperature (format_2f v) xsd_decimal sensorStream).
Proof.
  unfold sensor1_line, serialize_quad, typed_literal. simpl.
  rewrite !sapp_assoc. reflexivity.
Qed.

Lemma real_sensor2_line_quad (ts : Z) (v : float) :
  sensor2_line ts v =
  serialize_quad (mkQuad ts sensor2 temperature (format_2f v) xsd_decimal sensorStream).
Proof.
  unfold sensor2_line, serialize_quad, typed_literal. simpl.
  rewrite !sapp_assoc. reflexivity.
Qed.

Lemma real_line_even (rnd : nat -> float) (d0 k : nat) :
  line rnd d0 (2 * k) = serialize_quad (quad1 (Z.of_nat k) (noise_of (rnd (d0 + 2 * k)%nat))).
Proof. unfold RealisticRun.line. by rewrite even_double, half_even, real_sensor1_line_quad. Qed.

Lemma real_line_odd (rnd : nat -> float) (d0 k : nat) :
  line rnd d0 (S (2 * k)) =
  serialize_quad (quad2 (Z.of_nat k) (noise_of (rnd (d0 + S (2 * k))%nat))).
Proof. unfold RealisticRun.line. by rewrite even_S_double, half_odd, real_sensor2_line_quad. Qed.

Lemma real_quad1_wf (i : Z) (x : float) : wf_quad (quad1 i x) = true.
Proof. unfold wf_quad, RealisticRun.quad1. simpl. apply format_2f_lit. Qed.

Lemma real_quad2_wf (i : Z) (x : float) : wf_quad (quad2 i x) = true.
Proof. unfold wf_quad, RealisticRun.quad2. simpl. apply format_2f_lit. Qed.

(** The run equation of the realistic generator. *)
Theorem main_outcome (w : World) :
  main math_sin math_cos w =
  outcome w out_path (line (prng w) (rng_draws w)) 1 num_points message.
Proof.
  unfold main. apply script_outcome.
  intros k Hk w1. unfold after, fault_bump.
  assert (Hfd : open_fds w1 !! fd (mkFile (next_fd w) out_path) = Some out_path)
    by apply lookup_insert_eq.
  set (ln := line (prng w) (rng_draws w)).
  rewrite (at_eq w1 (mkFile (next_fd w) out_path) out_path ln (2 * k) (2 * k) (1 * (2 * k + 0)) (2 * k)) by lia.
  rewrite (at_eq w1 (mkFile (next_fd w) out_path) out_path ln (2 * k) (2 * k) (1 * (2 * k + 1)) (S (2 * k))) by lia.
  rewrite (at_eq w1 (mkFile (next_fd w) out_path) out_path ln (S (2 * k)) (S (2 * k)) (1 * (S (2 * k) + 1)) (S (S (2 * k)))) by lia.
  rewrite (at_eq w1 (mkFile (next_fd w) out_path) out_path ln (2 * S k) (S (S (2 * k))) (1 * (2 * S k + 0)) (S (S (2 * k)))) by lia.
  erewrite bind_ok by apply uniform_at. cbv beta.
  match goal with |- bind (write _ ?s) _ _ = _ =>
    replace s with (ln (2 * k)%nat)
      by (subst ln; unfold RealisticRun.line; by rewrite even_double, half_even)
  end.
  destruct (io_fails w1 (io_requests w1 + 2 * k)) eqn:E1.
  { erewrite bind_raise; [done|]. by rewrite (write_at w1 _ out_path ln Hfd), E1. }
  erewrite bind_ok by (by rewrite (write_at w1 _ out_path ln Hfd), E1).
  erewrite bind_ok by apply uniform_at. cbv beta.
  match goal with |- write _ ?s _ = _ =>
    replace s with (ln (S (2 * k))%nat)
      by (subst ln; unfold RealisticRun.line; by rewrite even_S_double, half_odd)
  end.
  by rewrite (write_at w1 _ out_path ln Hfd).
Qed.

End Libm.

End RealisticFacts.

(** ** What an outcome says *)

Module OutcomeFacts.
Import Py Quads Runs Records StrFacts TextFacts ParseFacts RunFacts ScriptFacts ArithFacts.

Lemma contents_final (w : World) (p c : string) (a b : nat) (out : list string) :
  contents p (final w p c a b out) = c.
Proof. unfold contents, final. simpl. by rewrite lookup_insert_eq. Qed.

Section Outcome.
Variables (w : World) (p : string) (line : nat -> string) (dpw n : nat) (msg : string).

#[local] Abbreviation run := (outcome w p line dpw n msg).

(** A completed run met no failing request, and leaves the final world. *)
Lemma outcome_ok :
  fst run = Ok tt ->
  run = (Ok tt, final w p (written line (2 * n)) (S (2 * n)) (dpw * (2 * n)) [msg]).
Proof.
  unfold outcome.
  destruct (find_fault _ _ _) as [q|].
  - by destruct (decide _).
  - by destruct (close_fails w (next_fd w)).
Qed.

(** A device that accepts every request of the run and the close lets it
    complete. *)
Lemma outcome_no_fault :
  (forall j, (io_requests w <= j < io_requests w + S (2 * n))%nat -> io_fails w j = false) ->
  close_fails w (next_fd w) = false ->
  run = (Ok tt, final w p (written line (2 * n)) (S (2 * n)) (dpw * (2 * n)) [msg]).
Proof.
  intros H C. unfold outcome.
  by rewrite (proj2 (find_fault_None _ _ _) H), C.
Qed.

(** The run whose first failing request is [q]. *)
Lemma outcome_fault (q : nat) :
  first_fault w q -> (q <= io_requests w + 2 * n)%nat ->
  run =
  if decide (q = io_requests w) then (Raise (OSError q), tick w)
  else
    let a := (q - io_requests w)%nat in
    (Raise (if close_fails w (next_fd w) then OSErrorAtClose (next_fd w) else OSError q),
     final w p (left_on_disk w line a (Some q)) (a + 1) (dpw * a) []).
Proof.
  intros (Hq & Hf & Hj) Hn. unfold outcome.
  by rewrite (find_fault_first _ _ _ q) by (done || lia).
Qed.

(** The run all of whose requests are accepted, and whose close fails. *)
Lemma outcome_close_fault :
  (forall j, (io_requests w <= j < io_requests w + S (2 * n))%nat -> io_fails w j = false) ->
  close_fails w (next_fd w) = true ->
  run = (Raise (OSErrorAtClose (next_fd w)),
         final w p (left_on_disk w line (2 * n) None) (S (2 * n)) (dpw * (2 * n)) []).
Proof.
  intros H C. unfold outcome.
  by rewrite (proj2 (find_fault_None _ _ _) H), C.
Qed.

(** What a run that meets a failing request leaves behind. *)
Lemma outcome_fault_props (q : nat) :
  first_fault w q -> (q <= io_requests w + 2 * n)%nat ->
  (q = io_requests w \/ close_fails w (next_fd w) = false ->
     fst run = Raise (OSError q)) /\
  ((io_requests w < q)%nat -> close_fails w (next_fd w) = true ->
     fst run = Raise (OSErrorAtClose (next_fd w))) /\
  io_requests (snd run) = S q /\
  stdout (snd run) = stdout w /\
  (q = io_requests w ->
     files (snd run) = files w /\ open_fds (snd run) = open_fds w /\
     buffers (snd run) = buffers w) /\
  ((io_requests w < q)%nat ->
     open_fds (snd run) = delete (next_fd w) (open_fds w) /\
     open_fds (snd run) !! next_fd w = None /\
     buffers (snd run) !! next_fd w = None /\
     exists N,
       (flushed (io_drains w) (S (io_requests w)) line (q - io_requests w) <= N)%nat /\
       contents p (snd run) = string_take N (written line (q - io_requests w))).
Proof.
  intros Hff Hq. rewrite (outcome_fault q Hff Hq).
  destruct Hff as (Hr & _ & _).
  destruct (decide (q = io_requests w)) as [->|Hne].
  - cbn [fst snd tick evolve io_requests stdout files open_fds buffers].
    repeat split; try done. all: intros; lia.
  - cbv zeta. cbn [fst snd]. unfold final.
    cbn [evolve io_requests stdout files open_fds buffers].
    split. { intros [?| ->]; [lia|done]. }
    split. { by intros _ ->. }
    split; [lia|]. split; [apply app_nil_r|].
    split; [intros; lia|]. intros _.
    split; [done|]. split; [apply lookup_delete_eq|]. split; [apply lookup_delete_eq|].
    destruct (left_on_disk_prefix w line (q - io_requests w) (Some q)) as (N & HN & HN').
    exists N. split; [done|].
    unfold contents. cbn [evolve files]. by rewrite lookup_insert_eq.
Qed.

(** What a run leaves behind when only its close fails. *)
Lemma outcome_close_props :
  (forall j, (io_requests w <= j < io_requests w + S (2 * n))%nat -> io_fails w j = false) ->
  close_fails w (next_fd w) = true ->
  fst run = Raise (OSErrorAtClose (next_fd w)) /\
  io_requests (snd run) = (io_requests w + S (2 * n))%nat /\
  stdout (snd run) = stdout w /\
  open_fds (snd run) = delete (next_fd w) (open_fds w) /\
  open_fds (snd run) !! next_fd w = None /\
  buffers (snd run) !! next_fd w = None /\
  exists N,
    (flushed (io_drains w) (S (io_requests w)) line (2 * n) <= N)%nat /\
    contents p (snd run) = string_take N (written line (2 * n)).
Proof.
  intros H C. rewrite (outcome_close_fault H C).
  cbn [fst snd]. unfold final. cbn [evolve io_requests stdout files open_fds buffers].
  split; [done|]. split; [done|]. split; [apply app_nil_r|].
  split; [done|]. split; [apply lookup_delete_eq|]. split; [apply lookup_delete_eq|].
  destruct (left_on_disk_prefix w line (2 * n) None) as (N & HN & HN').
  exists N. split; [done|].
  unfold contents. cbn [evolve files]. by rewrite lookup_insert_eq.
Qed.

(** Once the file is open, what any run leaves in it is a prefix of the
    text of some of its lines. *)
Lemma outcome_cut :
  io_fails w (io_requests w) = false ->
  exists a N, contents p (snd run) = string_take N (written line a).
Proof.
  intros H. unfold outcome. cbn [find_fault]. rewrite H.
  destruct (find_fault _ _ _) as [q|] eqn:F.
  - apply find_fault_Some in F as (Hq & _ & _).
    rewrite decide_False by lia. cbv zeta. cbn [snd].
    destruct (left_on_disk_prefix w line (q - io_requests w) (Some q)) as (N & _ & HN).
    exists (q - io_requests w)%nat, N. by rewrite contents_final.
  - destruct (close_fails w (next_fd w)); cbn [snd]; rewrite contents_final.
    + destruct (left_on_disk_prefix w line (2 * n) None) as (N & _ & HN).
      by exists (2 * n)%nat, N.
    + exists (2 * n)%nat, (String.length (written line (2 * n))).
      by rewrite CutFacts.take_all.
Qed.

(** A completed run has released its handle and its buffer. *)
Lemma outcome_ok_handles :
  fst run = Ok tt ->
  open_fds (snd run) = delete (next_fd w) (open_fds w) /\
  open_fds (snd run) !! next_fd w = None.
Proof.
  intros H. rewrite (outcome_ok H). cbn [snd final evolve open_fds].
  split; [done|apply lookup_delete_eq].
Qed.

Lemma outcome_ok_buffers :
  fst run = Ok tt -> buffers (snd run) !! next_fd w = None.
Proof.
  intros H. rewrite (outcome_ok H). cbn [snd final evolve buffers].
  apply lookup_delete_eq.
Qed.

End Outcome.

Lemma fmap_seq_pairs {A} (f : nat -> A) (n : nat) :
  f <$> seq 0 (2 * n) = flat_map (fun k => [f (2 * k)%nat; f (S (2 * k))]) (seq 0 n).
Proof.
  induction n as [|n IH]; [done|].
  replace (2 * S n)%nat with (S (S (2 * n))) by lia.
  rewrite !seq_S, !fmap_app, IH, flat_map_app. simpl.
  by rewrite <- app_assoc.
Qed.

Lemma written_take (line : nat -> string) (m n : nat) :
  (m <= n)%nat -> written line m = join (take m (line <$> seq 0 n)).
Proof.
  intros H. unfold written. rewrite <- fmap_take, take_seq.
  by replace (m `min` n)%nat with m by lia.
Qed.

Section Lines.
Variables (line : nat -> string) (rec : nat -> Quad).
Hypothesis line_rec : forall m, line m = serialize_quad (rec m).
Hypothesis rec_wf : forall m, wf_quad (rec m) = true.

Lemma written_join (m : nat) : written line m = join (serialize_quad <$> (rec <$> seq 0 m)).
Proof.
  unfold written. f_equal. rewrite <- list_fmap_compose.
  apply list_fmap_ext. intros _ k _. apply line_rec.
Qed.

Lemma readlines_written (m : nat) : readlines (written line m) = line <$> seq 0 m.
Proof.
  apply readlines_join, Forall_fmap, Forall_forall.
  intros k _. simpl. rewrite line_rec. by apply serialize_one_line.
Qed.

Lemma written_take_records (m N : nat) :
  (m <= N)%nat ->
  written line m = join (take m (serialize_quad <$> (rec <$> seq 0 N))).
Proof.
  intros H. rewrite written_join, <- !fmap_take, take_seq.
  by replace (m `min` N)%nat with m by lia.
Qed.

Variables (w : World) (p : string) (m : nat).
Hypothesis Hcontents : contents p w = written line m.

Lemma lines_of_written : lines_of p w = line <$> seq 0 m.
Proof. unfold lines_of. rewrite Hcontents. apply readlines_written. Qed.

Lemma length_lines_of : length (lines_of p w) = m.
Proof. by rewrite lines_of_written, length_fmap, length_seq. Qed.

Lemma record_at_written (k : nat) : (k < m)%nat -> record_at p w k = Some (rec k).
Proof.
  intros Hk. unfold record_at. rewrite lines_of_written.
  rewrite list_lookup_fmap, lookup_seq_lt by done. simpl.
  rewrite line_rec. by apply parse_serialize.
Qed.

Lemma sensor_record_written (l : string) :
  (forall k, (subject (rec k) = sensor1 \/ subject (rec k) = sensor2) /\
             predicate (rec k) = temperature /\ datatype (rec k) = xsd_decimal /\
             graph (rec k) = sensorStream) ->
  l ∈ lines_of p w -> sensor_record l.
Proof.
  intros Hrec. rewrite lines_of_written.
  intros (k & -> & _)%list_elem_of_fmap.
  exists (rec k). rewrite line_rec.
  split; [done|]. split; [by apply fields_serialize|].
  split; [by apply parse_serialize|]. apply Hrec.
Qed.

End Lines.

End OutcomeFacts.

(** ** Reading back a file that was cut *)

Module PrefixFacts.
Import Py Quads Runs Records StrFacts TextFacts ParseFacts CutFacts RunFacts OutcomeFacts.

Lemma take_app_ge (n : nat) (a b : string) :
  (String.length a <= n)%nat ->
  string_take n (a +:+ b) = a +:+ string_take (n - String.length a) b.
Proof.
  revert n. induction a as [|x a IH]; intros n H.
  - simpl String.length. by rewrite Nat.sub_0_r.
  - destruct n as [|n]; [simpl in H; lia|].
    change (String x (string_take n (a +:+ b))
            = String x (a +:+ string_take (n - String.length a) b)).
    rewrite IH; [done|]. simpl in H. lia.
Qed.

Lemma all_chars_take (P : ascii -> bool) (n : nat) (s : string) :
  all_chars P s = true -> all_chars P (string_take n s) = true.
Proof.
  revert n. induction s as [|c s IH]; intros [|n]; try done.
  simpl. intros [Hc Hs]%andb_prop. rewrite Hc. by apply IH.
Qed.

(** A text without a line feed is one line, or none when it is empty. *)
Lemma readlines_go_no_newline (cur s : string) :
  all_chars not_newline s = true ->
  readlines_go cur s = match cur +:+ s with EmptyString => [] | x => [x] end.
Proof.
  revert cur. induction s as [|c s IH]; intros cur.
  - intros _. rewrite sapp_nil_r. by destruct cur.
  - simpl all_chars. intros [Hc Hs]%andb_prop.
    simpl readlines_go. unfold not_newline in Hc.
    destruct (Ascii.eqb c newline); [done|].
    by rewrite IH, sapp_snoc.
Qed.

(** Reading back a prefix of a text of whole lines gives some of the lines,
    and at most one more item: the cut line. *)
Lemma readlines_take (ls : list string) :
  Forall one_line ls ->
  forall N, exists (j : nat) (tl : list string),
    readlines (string_take N (join ls)) = take j ls ++ tl /\ (length tl <= 1)%nat.
Proof.
  induction 1 as [|l ls (b & -> & Hb) Hls IH]; intros N.
  - exists 0%nat, []. simpl join. rewrite take_nil. split; [done|simpl; lia].
  - simpl join.
    destruct (le_gt_dec (String.length (b +:+ nl)) N) as [Hle|Hgt].
    + rewrite take_app_ge by done.
      destruct (IH (N - String.length (b +:+ nl))%nat) as (j & tl & Hj & Htl).
      exists (S j), tl. split; [|done].
      unfold readlines in *. rewrite sapp_assoc, readlines_go_line by done.
      rewrite Hj. reflexivity.
    + rewrite length_append in Hgt. change (String.length nl) with 1%nat in Hgt.
      rewrite take_app_le by (rewrite length_append; change (String.length nl) with 1%nat; lia).
      rewrite take_app_le by lia.
      unfold readlines. rewrite readlines_go_no_newline by (by apply all_chars_take).
      exists 0%nat. rewrite sapp_nil_l.
      destruct (string_take N b); [exists []; split; [done|simpl; lia]|].
      eexists [_]. split; [reflexivity|simpl; lia].
Qed.

(** Every line but the last of such a prefix is one of the lines. *)
Lemma lines_but_last (ls : list string) (N k : nat) (l : string) :
  Forall one_line ls ->
  readlines (string_take N (join ls)) !! k = Some l ->
  (S k < length (readlines (string_take N (join ls))))%nat ->
  l ∈ ls.
Proof.
  intros Hls. destruct (readlines_take ls Hls N) as (j & tl & -> & Htl).
  rewrite length_app. intros Hk Hlen.
  rewrite lookup_app_l in Hk by lia.
  apply list_elem_of_lookup_2, elem_of_take in Hk as (i & Hi & _).
  by apply list_elem_of_lookup_2 in Hi.
Qed.

Section Lines.
Variables (line : nat -> string) (rec : nat -> Quad).
Hypothesis line_rec : forall m, line m = serialize_quad (rec m).
Hypothesis rec_wf : forall m, wf_quad (rec m) = true.
Hypothesis rec_fixed : forall k,
  (subject (rec k) = sensor1 \/ subject (rec k) = sensor2) /\
  predicate (rec k) = temperature /\ datatype (rec k) = xsd_decimal /\
  graph (rec k) = sensorStream.

Lemma sensor_record_line (k : nat) : sensor_record (line k).
Proof.
  exists (rec k). rewrite line_rec.
  split; [done|]. split; [by apply fields_serialize|].
  split; [by apply parse_serialize|]. apply rec_fixed.
Qed.

(** In a file that holds a prefix of the text of the lines, every line but
    the last is a record. *)
Lemma cut_file_records (w : World) (p : string) (a N k : nat) (l : string) :
  contents p w = string_take N (written line a) ->
  lines_of p w !! k = Some l -> (S k < length (lines_of p w))%nat ->
  sensor_record l.
Proof.
  unfold lines_of. intros -> Hk Hlen.
  assert (Hone : Forall one_line (line <$> seq 0 a)).
  { apply Forall_fmap, Forall_forall. intros m _. simpl.
    rewrite line_rec. by apply serialize_one_line. }
  destruct (proj1 (list_elem_of_fmap _ _ _)
              (lines_but_last _ _ _ _ Hone Hk Hlen)) as (m & -> & _).
  apply sensor_record_line.
Qed.

(** The file of a completed run: its lines are the records, and nothing
    else is in it. *)
Lemma whole_file_records (w : World) (p : string) (m : nat) :
  contents p w = written line m ->
  length (lines_of p w) = m /\ Forall sensor_record (lines_of p w) /\
  join (lines_of p w) = contents p w.
Proof.
  intros Hc.
  rewrite (lines_of_written line rec line_rec rec_wf w p m Hc).
  split; [by rewrite length_fmap, length_seq|].
  split; [|by rewrite Hc].
  apply Forall_fmap, Forall_forall. intros k _. apply sensor_record_line.
Qed.

End Lines.

(** The text of a well-formed quad with the fixed URIs is the record of its
    subject at its timestamp. *)
Lemma record_of_serialize (q : Quad) :
  wf_quad q = true ->
  (subject q = sensor1 \/ subject q = sensor2) ->
  predicate q = temperature -> datatype q = xsd_decimal -> graph q = sensorStream ->
  record_of (subject q) (timestamp q) (serialize_quad q).
Proof.
  intros Hwf Hs Hp Hd Hg. unfold record_of.
  rewrite parse_serialize by done. split; [|done].
  exists q. split; [done|]. split; [by apply fields_serialize|].
  split; [by apply parse_serialize|]. done.
Qed.

End PrefixFacts.

Module HistoricalRunFacts.
Import Py Quads Runs Records StrFacts TextFacts ParseFacts RunFacts ScriptFacts ArithFacts.
Import OutcomeFacts Historical HistoricalRun HistoricalRecords HistoricalFacts.

Lemma main_sample (w : World) (now : Z) :
  sample w = Some now -> main w = generate now w.
Proof.
  unfold sample, main, time_time, int_, bind. by intros ->.
Qed.

Lemma main_no_sample (w : World) :
  sample w = None ->
  main w = (Raise (if PrimFloat.is_nan (wall_clock w * 1000)%float
                   then ValueError else OverflowError), w).
Proof.
  unfold sample, main, time_time, int_, bind, raise. by intros ->.
Qed.

Lemma hist_line_record (now : Z) (m : nat) : line now m = serialize_quad (record now m).
Proof.
  unfold line, record.
  destruct (Nat.even m); [apply hist_sensor1_line_quad | apply hist_sensor2_line_quad].
Qed.

Lemma hist_record_wf (now : Z) (m : nat) : wf_quad (record now m) = true.
Proof. unfold record. destruct (Nat.even m); [apply hist_quad1_wf | apply hist_quad2_wf]. Qed.

Lemma hist_record_even (now : Z) (k : nat) : record now (2 * k) = quad1 now (Z.of_nat k).
Proof. unfold record. by rewrite even_double, half_even. Qed.

Lemma hist_record_odd (now : Z) (k : nat) : record now (S (2 * k)) = quad2 now (Z.of_nat k).
Proof. unfold record. by rewrite even_S_double, half_odd. Qed.

Lemma hist_records_seq (now : Z) : record now <$> seq 0 (2 * 100) = records now.
Proof.
  rewrite fmap_seq_pairs. unfold records.
  apply flat_map_ext. intros k. by rewrite hist_record_even, hist_record_odd.
Qed.

Lemma hist_record_fixed (now : Z) (k : nat) :
  (subject (record now k) = sensor1 \/ subject (record now k) = sensor2) /\
  predicate (record now k) = temperature /\ datatype (record now k) = xsd_decimal /\
  graph (record now k) = sensorStream.
Proof. unfold record. destruct (Nat.even k); simpl; auto. Qed.

(** The world a completed run leaves. *)
Lemma hist_completed (w : World) (now : Z) :
  sample w = Some now -> fst (main w) = Ok tt ->
  snd (main w) = final w out_path (written (line now) (2 * 100)) 201 0 [message now].
Proof.
  intros Hs. rewrite (main_sample _ _ Hs), generate_outcome.
  intros H. by rewrite (outcome_ok _ _ _ _ _ _ H).
Qed.

Lemma hist_completed_contents (w : World) (now : Z) :
  sample w = Some now -> fst (main w) = Ok tt ->
  contents out_path (snd (main w)) = written (line now) (2 * 100).
Proof. intros Hs H. by rewrite (hist_completed _ _ Hs H), contents_final. Qed.

(** The file of a completed run is the text of its records, nothing else. *)
Lemma hist_completed_join (w : World) (now : Z) :
  sample w = Some now -> fst (main w) = Ok tt ->
  contents out_path (snd (main w)) = join (serialize_quad <$> records now).
Proof.
  intros Hs H. rewrite (hist_completed_contents _ _ Hs H).
  by rewrite (written_join _ _ (hist_line_record now)), hist_records_seq.
Qed.

Lemma completed_sample (w : World) (now : Z) :
  sample w = Some now -> fst (main w) = Ok tt -> sample (snd (main w)) = Some now.
Proof. intros Hs H. by rewrite (hist_completed _ _ Hs H). Qed.

Lemma hist_completed_record (w : World) (now : Z) (k : nat) :
  sample w = Some now -> fst (main w) = Ok tt -> (k < 2 * 100)%nat ->
  record_at out_path (snd (main w)) k = Some (record now k).
Proof.
  intros Hs H Hk.
  apply (record_at_written (line now) (record now) (hist_line_record now) (hist_record_wf now)
           _ _ _ (hist_completed_contents _ _ Hs H) _ Hk).
Qed.

End HistoricalRunFacts.

Module RealisticRunFacts.
Import Py Quads Runs Records StrFacts TextFacts ParseFacts RunFacts ScriptFacts ArithFacts.
Import OutcomeFacts Realistic RealisticRun RealisticRecords RealisticFacts.

Section Libm.
Variables math_sin math_cos : float -> float.

#[local] Abbreviation main := (main math_sin math_cos).
#[local] Abbreviation line := (line math_sin math_cos).
#[local] Abbreviation record := (record math_sin math_cos).
#[local] Abbreviation records := (records math_sin math_cos).

Lemma real_line_record (rnd : nat -> float) (d0 m : nat) :
  line rnd d0 m = serialize_quad (record rnd d0 m).
Proof.
  unfold RealisticRun.line, RealisticRecords.record.
  destruct (Nat.even m); [apply real_sensor1_line_quad | apply real_sensor2_line_quad].
Qed.

Lemma real_record_wf (rnd : nat -> float) (d0 m : nat) : wf_quad (record rnd d0 m) = true.
Proof.
  unfold RealisticRecords.record. destruct (Nat.even m); [apply real_quad1_wf | apply real_quad2_wf].
Qed.

Lemma real_record_even (rnd : nat -> float) (d0 k : nat) :
  record rnd d0 (2 * k) = quad1 math_sin (Z.of_nat k) (noise_of (rnd (d0 + 2 * k)%nat)).
Proof. unfold RealisticRecords.record. by rewrite even_double, half_even. Qed.

Lemma real_record_odd (rnd : nat -> float) (d0 k : nat) :
  record rnd d0 (S (2 * k)) = quad2 math_cos (Z.of_nat k) (noise_of (rnd (d0 + S (2 * k))%nat)).
Proof. unfold RealisticRecords.record. by rewrite even_S_double, half_odd. Qed.

Lemma real_records_seq (rnd : nat -> float) (d0 : nat) :
  record rnd d0 <$> seq 0 (2 * num_points) = records rnd d0.
Proof.
  rewrite fmap_seq_pairs. unfold RealisticRecords.records.
  apply flat_map_ext. intros k. by rewrite real_record_even, real_record_odd.
Qed.

Lemma real_record_fixed (rnd : nat -> float) (d0 k : nat) :
  (subject (record rnd d0 k) = sensor1 \/ subject (record rnd d0 k) = sensor2) /\
  predicate (record rnd d0 k) = temperature /\ datatype (record rnd d0 k) = xsd_decimal /\
  graph (record rnd d0 k) = sensorStream.
Proof. unfold RealisticRecords.record. destruct (Nat.even k); simpl; auto. Qed.

(** Records depend on the generator only through the draws of the run. *)
Lemma record_same_draws (rnd1 rnd2 : nat -> float) (d1 d2 m : nat) :
  rnd1 (d1 + m)%nat = rnd2 (d2 + m)%nat -> record rnd1 d1 m = record rnd2 d2 m.
Proof. unfold RealisticRecords.record. by intros ->. Qed.

Lemma records_same_draws (rnd1 rnd2 : nat -> float) (d1 d2 : nat) :
  (forall k, (k < 2 * num_points)%nat -> rnd1 (d1 + k)%nat = rnd2 (d2 + k)%nat) ->
  records rnd1 d1 = records rnd2 d2.
Proof.
  intros H. rewrite <- !real_records_seq.
  apply list_fmap_ext. intros j k Hk.
  apply lookup_seq in Hk as [-> Hk]. apply record_same_draws, H. lia.
Qed.

Lemma real_completed (w : World) :
  fst (main w) = Ok tt ->
  snd (main w) =
  final w out_path (written (line (prng w) (rng_draws w)) (2 * num_points))
        (S (2 * num_points)) (1 * (2 * num_points)) [message].
Proof.
  rewrite main_outcome. intros H. by rewrite (outcome_ok _ _ _ _ _ _ H).
Qed.

Lemma real_completed_contents (w : World) :
  fst (main w) = Ok tt ->
  contents out_path (snd (main w)) = written (line (prng w) (rng_draws w)) (2 * num_points).
Proof. intros H. by rewrite (real_completed _ H), contents_final. Qed.

Lemma real_completed_join (w : World) :
  fst (main w) = Ok tt ->
  contents out_path (snd (main w)) =
  join (serialize_quad <$> records (prng w) (rng_draws w)).
Proof.
  intros H. rewrite (real_completed_contents _ H).
  by rewrite (written_join _ _ (real_line_record (prng w) (rng_draws w))), real_records_seq.
Qed.

Lemma real_completed_record (w : World) (k : nat) :
  fst (main w) = Ok tt -> (k < 2 * num_points)%nat ->
  record_at out_path (snd (main w)) k = Some (record (prng w) (rng_draws w) k).
Proof.
  intros H Hk.
  apply (record_at_written _ _ (real_line_record (prng w) (rng_draws w))
           (real_record_wf (prng w) (rng_draws w)) _ _ _ (real_completed_contents _ H) _ Hk).
Qed.

End Libm.

End RealisticRunFacts.

Module FormatFacts.
Import Py Quads StrFacts TextFacts ParseFacts.

Lemma length_sapp (a b : string) :
  String.length (a +:+ b) = (String.length a + String.length b)%nat.
Proof.
  induction a as [|c a IH]; [reflexivity|].
  change (S (String.length (a +:+ b)) = S (String.length a + String.length b)).
  by rewrite IH.
Qed.

Lemma str_digit (v : Z) : 0 <= v < 10 -> String.length (str v) = 1%nat.
Proof.
  intros H.
  assert (v = 0 \/ v = 1 \/ v = 2 \/ v = 3 \/ v = 4 \/ v = 5 \/ v = 6 \/ v = 7 \/
          v = 8 \/ v = 9) as Hv by lia.
  repeat destruct Hv as [-> | Hv]; try reflexivity. by subst.
Qed.

Lemma two_digits_length (n : Z) : 0 <= n < 100 -> String.length (two_digits n) = 2%nat.
Proof.
  intros H. unfold two_digits. rewrite length_sapp, !str_digit; [done|..].
  - apply Z.mod_pos_bound. lia.
  - split; [apply Z.div_pos; lia|apply Z.div_lt_upper_bound; lia].
Qed.

Lemma numeral_not_point (c : ascii) : numeral_char c = true -> negb (Ascii.eqb c ".") = true.
Proof. destruct c as [[] [] [] [] [] [] [] []]; vm_compute; congruence. Qed.

(** A fixed-point text has exactly two digits after its point. *)
Lemma fixed2_fraction (s : bool) (h : Z) :
  fraction_of (fixed2 s h) = Some (two_digits (h mod 100)) /\
  String.length (two_digits (h mod 100)) = 2%nat.
Proof.
  split.
  - unfold fraction_of, fixed2.
    rewrite <- sapp_assoc.
    change ("." +:+ ?x) with (String "."%char x).
    rewrite split_at_app; [done|].
    rewrite all_chars_app. apply andb_true_intro. split.
    + by destruct s.
    + eapply all_chars_impl; [apply numeral_not_point|apply str_chars].
  - apply two_digits_length, Z.mod_pos_bound. lia.
Qed.

(** [format(x, ".2f")] of a zero or a finite float has exactly two
    fractional digits; only [nan] and the infinities print otherwise. *)
Lemma format_2f_fraction (x : float) :
  (exists fr, fraction_of (format_2f x) = Some fr /\ String.length fr = 2%nat) \/
  Prim2SF x = S754_nan \/ (exists s, Prim2SF x = S754_infinity s).
Proof.
  unfold format_2f. destruct (Prim2SF x) as [s|s| |s m e]; eauto.
  - left. eexists. apply fixed2_fraction.
  - left. eexists. apply fixed2_fraction.
Qed.

End FormatFacts.

Module Totality.
Import Py Quads Runs Records OutcomeFacts.
Import HistoricalRecords (sample).

(** On a device that accepts the 201 requests of the run and the close,
    the historical generator completes. *)
Lemma historical_completes (w : World) (now : Z) :
  sample w = Some now ->
  (forall j, (io_requests w <= j < io_requests w + 201)%nat -> io_fails w j = false) ->
  close_fails w (next_fd w) = false ->
  fst (Historical.main w) = Ok tt.
Proof.
  intros Hs H C.
  rewrite (HistoricalRunFacts.main_sample _ _ Hs), HistoricalFacts.generate_outcome.
  by rewrite outcome_no_fault.
Qed.

(** When the clock cannot be read as an integer the script stops before it
    opens the file: with [ValueError] for a NaN, [OverflowError] for an
    infinity. *)
Lemma historical_no_sample (w : World) :
  sample w = None ->
  Historical.main w =
    (Raise (if PrimFloat.is_nan (wall_clock w * 1000)%float
            then ValueError else OverflowError), w).
Proof. apply HistoricalRunFacts.main_no_sample. Qed.

(** On a device that accepts the 2001 requests of the run and the close,
    the realistic generator completes, with 2000 draws consumed. *)
Lemma realistic_completes (math_sin math_cos : float -> float) (w : World) :
  (forall j, (io_requests w <= j < io_requests w + 2001)%nat -> io_fails w j = false) ->
  close_fails w (next_fd w) = false ->
  fst (Realistic.main math_sin math_cos w) = Ok tt /\
  rng_draws (snd (Realistic.main math_sin math_cos w)) = (rng_draws w + 2000)%nat.
Proof.
  intros H C. rewrite RealisticFacts.main_outcome.
  by rewrite outcome_no_fault.
Qed.

End Totality.

Module ValueModel.
Import Py Quads Runs Records OutcomeFacts.

(** The literals of the realistic generator: on line [2 i] the two-decimal
    text of [23.0 + 2.0 * sin(i * 2 * pi / 100) + n1], on line [2 i + 1] that
    of [23.0 + 2.0 * cos(i * 2 * pi / 100) + n2], where [n1] and [n2] come
    from two successive draws of the generator. *)
Lemma realistic_literals (math_sin math_cos : float -> float) (w : World) (i : nat) :
  fst (Realistic.main math_sin math_cos w) = Ok tt -> (i < 1000)%nat ->
  let w' := snd (Realistic.main math_sin math_cos w) in
  let n1 := (-0.5 + (0.5 - -0.5) * prng w (rng_draws w + 2 * i)%nat)%float in
  let n2 := (-0.5 + (0.5 - -0.5) * prng w (rng_draws w + S (2 * i))%nat)%float in
  literal_at Realistic.out_path w' (2 * i) =
    Some (format_2f (23.0 + 2.0 * math_sin (Realistic.phase (Z.of_nat i)) + n1)%float) /\
  literal_at Realistic.out_path w' (2 * i + 1) =
    Some (format_2f (23.0 + 2.0 * math_cos (Realistic.phase (Z.of_nat i)) + n2)%float).
Proof.
  intros Hc Hi w' n1 n2. subst w'. unfold literal_at. split.
  - rewrite RealisticRunFacts.real_completed_record; [|done|unfold Realistic.num_points; lia].
    by rewrite RealisticRunFacts.real_record_even.
  - replace (2 * i + 1)%nat with (S (2 * i)) by lia.
    rewrite RealisticRunFacts.real_completed_record; [|done|unfold Realistic.num_points; lia].
    by rewrite RealisticRunFacts.real_record_odd.
Qed.

(** At index 0 the phase is [0.0]; with [sin 0.0 = 0.0] and [cos 0.0 = 1.0]
    the two values are [23.0 + n1] and [25.0 + n2] in binary64. *)
Lemma values_at_origin (math_sin math_cos : float -> float) (n1 n2 : float) :
  math_sin 0%float = 0%float -> math_cos 0%float = 1%float ->
  RealisticRun.val1 math_sin 0 n1 = (23.0 + n1)%float /\
  RealisticRun.val2 math_cos 0 n2 = (25.0 + n2)%float.
Proof.
  intros Hsin Hcos. unfold RealisticRun.val1, RealisticRun.val2.
  change (Realistic.phase 0) with 0%float.
  rewrite Hsin, Hcos. split; reflexivity.
Qed.

End ValueModel.

(** ** The model on concrete inputs *)

(** ** Rounding in binary64

    The sum or product of two floats is the exact value rounded to nearest;
    what is proved here from the specification of the kernel's floats is that
    rounding never leaves an interval whose ends are floats. *)

Module RoundingFacts.
Import FloatValue.

#[local] Abbreviation fexp64 := (SpecFloat.fexp prec emax).
#[local] Abbreviation emin64 := (-1074).

Lemma unit_at_pos (e : Z) : - scale <= e -> 0 < unit_at e.
Proof. intros H. unfold unit_at. apply Z.pow_pos_nonneg; lia. Qed.

Lemma unit_at_add (e k : Z) :
  - scale <= e -> 0 <= k -> unit_at (e + k) = unit_at e * 2 ^ k.
Proof.
  intros He Hk. unfold unit_at.
  replace (e + k + scale) with ((e + scale) + k) by lia.
  apply Z.pow_add_r; lia.
Qed.

Lemma unit_at_split (a b : Z) :
  - scale <= a -> a <= b -> unit_at b = unit_at a * 2 ^ (b - a).
Proof.
  intros Ha Hb. replace b with (a + (b - a)) at 1 by lia.
  apply unit_at_add; lia.
Qed.

(** One exponent up, the unit at least doubles. *)
Lemma unit_at_double (a b : Z) :
  - scale <= a -> a < b -> unit_at a * 2 <= unit_at b.
Proof.
  intros Ha Hb. rewrite (unit_at_split a b) by lia.
  assert (0 < unit_at a) by (by apply unit_at_pos).
  assert (2 ^ 1 <= 2 ^ (b - a)) by (apply Z.pow_le_mono_r; lia).
  change (2 ^ 1) with 2 in *. nia.
Qed.

Lemma unit_at_le (e e' : Z) : - scale <= e -> e <= e' -> unit_at e <= unit_at e'.
Proof. intros He H. unfold unit_at. apply Z.pow_le_mono_r; lia. Qed.

(** Products of mantissas and units, compared. *)
Lemma arith_lower (mL k p u f m2 m : Z) :
  0 < u -> 0 < p ->
  mL * (u * p * k) <= m * u -> m < (f + 1) * p -> f <= m2 ->
  mL * (u * p * k) <= m2 * (u * p).
Proof.
  intros Hu Hp Hle Hfl Hm2.
  assert (H1 : m * u < (f + 1) * p * u) by (apply Z.mul_lt_mono_pos_r; lia).
  assert (H2 : (mL * k) * (u * p) < (f + 1) * (u * p)) by lia.
  apply Z.mul_lt_mono_pos_r in H2; [|nia].
  replace (mL * (u * p * k)) with ((mL * k) * (u * p)) by ring.
  apply Z.mul_le_mono_nonneg_r; [nia|lia].
Qed.

Lemma arith_far (u1 uL f m2 mL c : Z) :
  mL < c * 2 -> c <= f -> uL * 2 <= u1 -> 0 < uL -> f <= m2 -> 0 <= c ->
  mL * uL <= m2 * u1.
Proof.
  intros HmL Hn Hu2 HuL Hm2 Hc.
  assert (mL * uL <= c * 2 * uL) by (apply Z.mul_le_mono_nonneg_r; lia).
  assert (c * (uL * 2) <= c * u1) by (apply Z.mul_le_mono_nonneg_l; lia).
  assert (c * u1 <= m2 * u1) by (apply Z.mul_le_mono_nonneg_r; lia).
  lia.
Qed.

Lemma arith_upper (mH k p u f m2 m : Z) :
  0 < u -> 0 < p -> 0 < k ->
  m * u <= mH * (u * p * k) -> f * p <= m ->
  (m2 = f \/ m2 = f + 1) -> (m2 = f + 1 -> f * p < m) ->
  m2 * (u * p) <= mH * (u * p * k).
Proof.
  intros Hu Hp Hk Hle Hfl Hm2 Hrem.
  assert (Hm : m <= mH * k * p).
  { apply (Z.mul_le_mono_pos_r _ _ u); [lia|]. lia. }
  assert (m2 <= mH * k).
  { destruct Hm2 as [->| ->].
    - apply (Z.mul_le_mono_pos_r _ _ p); lia.
    - specialize (Hrem eq_refl).
      assert (f * p < mH * k * p) by lia.
      apply Z.mul_lt_mono_pos_r in H; lia. }
  replace (mH * (u * p * k)) with ((mH * k) * (u * p)) by ring.
  apply Z.mul_le_mono_nonneg_r; [nia|lia].
Qed.

Lemma arith_above (uH u1 f mH c x : Z) :
  mH < c * 2 -> c <= f -> uH * 2 <= u1 -> 0 < uH -> 0 <= c -> f * u1 <= x ->
  mH * uH < x.
Proof.
  intros HmH Hn Hu2 HuH Hc Hx.
  assert (mH * uH < c * 2 * uH) by (apply Z.mul_lt_mono_pos_r; lia).
  assert (c * (uH * 2) <= c * u1) by (apply Z.mul_le_mono_nonneg_l; lia).
  assert (c * u1 <= f * u1) by (apply Z.mul_le_mono_nonneg_r; lia).
  lia.
Qed.

(** [digits2_pos] counts the binary digits. *)
Lemma digits2_bounds (m : positive) :
  2 ^ (Z.pos (digits2_pos m) - 1) <= Z.pos m < 2 ^ Z.pos (digits2_pos m).
Proof.
  induction m as [m IH|m IH|]; cbn [digits2_pos].
  - rewrite Pos2Z.inj_succ.
    replace (Z.succ (Z.pos (digits2_pos m)) - 1) with (Z.succ (Z.pos (digits2_pos m) - 1)) by lia.
    rewrite !Z.pow_succ_r by lia. lia.
  - rewrite Pos2Z.inj_succ.
    replace (Z.succ (Z.pos (digits2_pos m)) - 1) with (Z.succ (Z.pos (digits2_pos m) - 1)) by lia.
    rewrite !Z.pow_succ_r by lia. lia.
  - simpl. lia.
Qed.

Lemma Zdigits2_bounds (z : Z) :
  0 < z -> 2 ^ (Zdigits2 z - 1) <= z < 2 ^ Zdigits2 z.
Proof. destruct z as [|p|p]; try lia. intros _. apply digits2_bounds. Qed.

Lemma Zdigits2_pos (z : Z) : 0 < z -> 0 < Zdigits2 z.
Proof. destruct z; simpl; lia. Qed.

(** Fewer than [d] digits: below [2 ^ d], and conversely. *)
Lemma Zdigits2_le (z d : Z) : 0 < z -> z < 2 ^ d -> Zdigits2 z <= d.
Proof.
  intros Hz Hd. destruct (Zdigits2_bounds z Hz) as [Hlo _].
  destruct (Z_le_gt_dec (Zdigits2 z) d) as [|Hgt]; [done|].
  assert (2 ^ d <= 2 ^ (Zdigits2 z - 1)) by (apply Z.pow_le_mono_r; lia).
  lia.
Qed.

Lemma Zdigits2_ge (z d : Z) : 0 <= d -> 2 ^ d <= z -> d < Zdigits2 z.
Proof.
  intros Hd Hz.
  assert (0 < z) by (pose proof (Z.pow_pos_nonneg 2 d); lia).
  destruct (Zdigits2_bounds z H) as [_ Hhi].
  destruct (Z_lt_le_dec d (Zdigits2 z)) as [|Hle]; [done|].
  assert (2 ^ Zdigits2 z <= 2 ^ d).
  { apply Z.pow_le_mono_r; [lia|done]. }
  lia.
Qed.

(** [iter_pos] is iteration. *)
Lemma iter_pos_nat {A} (f : A -> A) (p : positive) (x : A) :
  SpecFloat.iter_pos f p x = Nat.iter (Pos.to_nat p) f x.
Proof.
  revert x. induction p as [p IH|p IH|]; intros x; cbn [SpecFloat.iter_pos].
  - rewrite !IH, Pos2Nat.inj_xI.
    replace (S (2 * Pos.to_nat p)) with (Pos.to_nat p + (Pos.to_nat p + 1))%nat by lia.
    rewrite !Nat.iter_add. reflexivity.
  - rewrite !IH, Pos2Nat.inj_xO.
    replace (2 * Pos.to_nat p)%nat with (Pos.to_nat p + Pos.to_nat p)%nat by lia.
    rewrite Nat.iter_add. reflexivity.
  - reflexivity.
Qed.

(** One shift to the right halves the mantissa and remembers the bit that
    fell off. *)
Lemma shr_1_spec (mrs : shr_record) :
  0 <= shr_m mrs ->
  shr_m (shr_1 mrs) = shr_m mrs / 2 /\ shr_r (shr_1 mrs) = Z.odd (shr_m mrs).
Proof.
  destruct mrs as [m r s]. cbn [shr_m]. intros Hm.
  destruct m as [|[p|p|]|p]; cbn [shr_1 shr_m shr_r].
  - split; reflexivity.
  - split; [|reflexivity]. rewrite Pos2Z.inj_xI.
    apply (Z.div_unique _ _ _ 1); lia.
  - split; [|reflexivity]. rewrite Pos2Z.inj_xO.
    apply (Z.div_unique _ _ _ 0); lia.
  - split; reflexivity.
  - lia.
Qed.

Lemma shr_iter (k : nat) (m : Z) :
  0 <= m ->
  shr_m (Nat.iter k shr_1 (Build_shr_record m false false)) = m / 2 ^ Z.of_nat k /\
  (shr_r (Nat.iter k shr_1 (Build_shr_record m false false)) = true ->
   m mod 2 ^ Z.of_nat k <> 0).
Proof.
  intros Hm. induction k as [|k IH].
  - simpl. rewrite Z.div_1_r. split; [done|discriminate].
  - rewrite Nat.iter_succ. destruct IH as [IHm IHr].
    set (mrs := Nat.iter k shr_1 _) in *.
    assert (Hp : 0 < 2 ^ Z.of_nat k) by (apply Z.pow_pos_nonneg; lia).
    assert (H0 : 0 <= shr_m mrs).
    { rewrite IHm. apply Z.div_pos; lia. }
    destruct (shr_1_spec mrs H0) as [H1 H2].
    rewrite Nat2Z.inj_succ, Z.pow_succ_r by lia.
    rewrite H1, H2, IHm. split.
    + rewrite Z.div_div by lia. f_equal. lia.
    + intros Hodd.
      rewrite (Z.mul_comm 2), Z.rem_mul_r by lia.
      assert (Hmod : (m / 2 ^ Z.of_nat k) mod 2 = 1).
      { rewrite Zmod_odd, Hodd. reflexivity. }
      rewrite Hmod.
      pose proof (Z.mod_pos_bound m (2 ^ Z.of_nat k) Hp). lia.
Qed.

(** Rounding to nearest adds at most one unit, and only when a bit fell
    off. *)
Lemma round_nearest_even_spec (mrs : shr_record) :
  let m' := round_nearest_even (shr_m mrs) (loc_of_shr_record mrs) in
  m' = shr_m mrs \/ (m' = shr_m mrs + 1 /\ shr_r mrs = true).
Proof.
  destruct mrs as [m [] []]; cbn; auto.
  destruct (Z.even m); auto.
Qed.

Lemma fexp64_eq (x : Z) : fexp64 x = Z.max (x - 53) emin64.
Proof. reflexivity. Qed.

Lemma shr_nonpos (mrs : shr_record) (e n : Z) : n <= 0 -> shr mrs e n = (mrs, e).
Proof. destruct n; try reflexivity. lia. Qed.

Lemma shr_spec (m e n : Z) :
  0 <= m -> 0 <= n ->
  exists mrs, shr (Build_shr_record m false false) e n = (mrs, e + n) /\
              shr_m mrs = m / 2 ^ n /\
              (shr_r mrs = true -> m mod 2 ^ n <> 0).
Proof.
  intros Hm Hn. destruct n as [|p|p]; [| |lia].
  - exists (Build_shr_record m false false). cbn [shr shr_m shr_r].
    rewrite Z.add_0_r, Z.pow_0_r, Z.div_1_r. split; [done|]. split; [done|discriminate].
  - exists (SpecFloat.iter_pos shr_1 p (Build_shr_record m false false)).
    cbn [shr]. split; [done|].
    rewrite iter_pos_nat. rewrite <- (positive_nat_Z p).
    apply shr_iter, Hm.
Qed.

(** The parts of [binary_round_aux] on an exact positive input whose
    exponent is not above the one of its format: the mantissa is shifted by
    [n], rounded to [m2], one of the two neighbours, and renormalised to
    [mf] at [ef] when the rounding carried. *)
Lemma round_aux_struct (s : bool) (m : positive) (e : Z) :
  let e1 := fexp64 (Z.pos (digits2_pos m) + e) in
  let n := e1 - e in
  let fl := Z.pos m / 2 ^ n in
  0 <= n ->
  exists m2 mf ef : Z,
    binary_round_aux prec emax s (Z.pos m) e loc_Exact =
      match mf with
      | Z0 => S754_zero s
      | Z.pos p => if ef <=? emax - prec then S754_finite s p ef else S754_infinity s
      | Z.neg _ => S754_nan
      end /\
    (m2 = fl \/ (m2 = fl + 1 /\ Z.pos m mod 2 ^ n <> 0)) /\
    mf * 2 ^ (ef - e1) = m2 /\
    e1 <= ef /\ 0 <= mf < 2 ^ 53 /\
    (emin64 < ef -> 2 ^ 52 <= mf).
Proof.
  intros e1 n fl Hn.
  pose proof (digits2_bounds m) as [Hdlo Hdhi].
  set (d := Z.pos (digits2_pos m)) in *.
  assert (He1 : e1 = Z.max (d + e - 53) emin64) by reflexivity.
  assert (Hpn : 0 < 2 ^ n) by (apply Z.pow_pos_nonneg; lia).
  assert (Hfl0 : 0 <= fl) by (apply Z.div_pos; lia).
  assert (Hflhi : fl < 2 ^ 53).
  { apply Z.div_lt_upper_bound; [lia|]. rewrite <- Z.pow_add_r by lia.
    eapply Z.lt_le_trans; [exact Hdhi|]. apply Z.pow_le_mono_r; lia. }
  assert (Hflnorm : emin64 < e1 -> 2 ^ 52 <= fl).
  { intros H. assert (Hn' : n = d - 53) by lia.
    apply Z.div_le_lower_bound; [lia|]. rewrite <- Z.pow_add_r by lia.
    replace (n + 52) with (d - 1) by lia. exact Hdlo. }
  unfold binary_round_aux, shr_fexp. cbn [shr_record_of_loc Zdigits2].
  fold d. change (fexp64 (d + e)) with e1. fold n.
  destruct (shr_spec (Z.pos m) e n ltac:(lia) Hn) as (mrs & -> & Hm1 & Hr1).
  replace (e + n) with e1 by lia. fold fl in Hm1.
  pose proof (round_nearest_even_spec mrs) as Hrne. cbv zeta in Hrne.
  set (m2 := round_nearest_even (shr_m mrs) (loc_of_shr_record mrs)) in *.
  rewrite Hm1 in Hrne.
  assert (Hm2 : m2 = fl \/ (m2 = fl + 1 /\ Z.pos m mod 2 ^ n <> 0)).
  { destruct Hrne as [?|[? Hr]]; [by left|right]. split; [done|by apply Hr1]. }
  clearbody m2. clear Hrne.
  assert (Hm2b : 0 <= m2 <= 2 ^ 53) by lia.
  destruct (Z_lt_le_dec m2 (2 ^ 53)) as [Hlt|Hge].
  - (* no carry *)
    assert (Hn2 : fexp64 (Zdigits2 m2 + e1) - e1 <= 0).
    { rewrite fexp64_eq.
      destruct (Z.eq_dec m2 0) as [->|Hnz]; [simpl Zdigits2; lia|].
      pose proof (Zdigits2_le m2 53 ltac:(lia) Hlt). lia. }
    rewrite (shr_nonpos _ _ _ Hn2). cbn [shr_m].
    exists m2, m2, e1. split; [reflexivity|]. split; [done|].
    rewrite Z.sub_diag, Z.pow_0_r, Z.mul_1_r. split; [done|]. split; [lia|].
    split; [lia|]. intros H. specialize (Hflnorm H). lia.
  - (* carry: the mantissa is 2^53 *)
    assert (m2 = 2 ^ 53) by lia. subst m2.
    change (Zdigits2 (2 ^ 53)) with 54.
    assert (Hn2 : fexp64 (54 + e1) - e1 = 1) by (rewrite fexp64_eq; lia).
    rewrite Hn2.
    exists (2 ^ 53), (2 ^ 52), (e1 + 1). split; [reflexivity|]. split; [done|].
    replace (e1 + 1 - e1) with 1 by lia.
    split; [reflexivity|]. split; [lia|]. split; [lia|]. intros _. lia.
Qed.

(** What validity says of a finite number. *)
Lemma valid_finite (s : bool) (m : positive) (e : Z) :
  valid_binary (S754_finite s m e) = true ->
  Z.pos m < 2 ^ 53 /\ emin64 <= e <= 971 /\
  fexp64 (Z.pos (digits2_pos m) + e) = e /\
  (emin64 < e -> 2 ^ 52 <= Z.pos m).
Proof.
  cbn [SpecFloat.valid_binary]. unfold bounded, canonical_mantissa.
  intros [Hc He]%andb_prop. apply Z.eqb_eq in Hc. apply Z.leb_le in He.
  change (emax - prec) with 971 in He.
  pose proof (digits2_bounds m) as [Hlo Hhi].
  rewrite fexp64_eq in Hc.
  split.
  { eapply Z.lt_le_trans; [exact Hhi|]. apply Z.pow_le_mono_r; lia. }
  split; [lia|]. split; [by rewrite fexp64_eq|].
  intros H. replace (Z.pos (digits2_pos m)) with 53 in Hlo by lia. exact Hlo.
Qed.

Section Bracket.

Variables (m : positive) (e : Z).
Hypothesis He : - scale <= e.

#[local] Abbreviation e1 := (fexp64 (Z.pos (digits2_pos m) + e)).
#[local] Abbreviation n := (e1 - e).
#[local] Abbreviation fl := (Z.pos m / 2 ^ n).

Hypothesis Hn : 0 <= n.

Variables (m2 mf ef : Z).
Hypothesis Hm2 : m2 = fl \/ (m2 = fl + 1 /\ Z.pos m mod 2 ^ n <> 0).
Hypothesis Hmf : mf * 2 ^ (ef - e1) = m2.
Hypothesis Hef : e1 <= ef.
Hypothesis Hmfb : 0 <= mf < 2 ^ 53.
Hypothesis Hnorm : emin64 < ef -> 2 ^ 52 <= mf.

Lemma bracket_e1 : emin64 <= e1.
Proof. rewrite fexp64_eq. lia. Qed.

Lemma bracket_value : mf * unit_at ef = m2 * unit_at e1.
Proof.
  pose proof bracket_e1.
  replace ef with (e1 + (ef - e1)) at 1 by lia.
  rewrite unit_at_add by (unfold scale; lia). rewrite <- Hmf. ring.
Qed.

Lemma bracket_unit : unit_at e1 = unit_at e * 2 ^ n.
Proof.
  replace e1 with (e + n) at 1 by lia. by apply unit_at_add.
Qed.

Lemma bracket_fl : fl * 2 ^ n <= Z.pos m < (fl + 1) * 2 ^ n.
Proof.
  assert (Hp : 0 < 2 ^ n) by (apply Z.pow_pos_nonneg; lia).
  pose proof (Z.div_mod (Z.pos m) (2 ^ n) ltac:(lia)).
  pose proof (Z.mod_pos_bound (Z.pos m) (2 ^ n) Hp). nia.
Qed.

(** When the exponent is above the least one the shifted mantissa is
    normal. *)
Lemma bracket_fl_norm : emin64 < e1 -> 2 ^ 52 <= fl.
Proof.
  intros H. pose proof (digits2_bounds m) as [Hlo _].
  pose proof Hn as Hn0.
  rewrite fexp64_eq in H, Hn0 |- *.
  assert (Hn' : Z.max (Z.pos (digits2_pos m) + e - 53) emin64 - e
                = Z.pos (digits2_pos m) - 53) by lia.
  rewrite Hn'.
  apply Z.div_le_lower_bound; [apply Z.pow_pos_nonneg; lia|].
  rewrite <- Z.pow_add_r by lia.
  replace (Z.pos (digits2_pos m) - 53 + 52) with (Z.pos (digits2_pos m) - 1) by lia.
  exact Hlo.
Qed.

(** A representable number below the exact value is below the rounded
    one. *)
Lemma bracket_lower (mL : positive) (eL : Z) :
  Z.pos mL < 2 ^ 53 -> emin64 <= eL ->
  Z.pos mL * unit_at eL <= Z.pos m * unit_at e ->
  Z.pos mL * unit_at eL <= mf * unit_at ef.
Proof.
  intros HmL HeL Hle. rewrite bracket_value.
  pose proof bracket_e1 as He1. pose proof bracket_fl as [Hfl1 Hfl2].
  pose proof bracket_unit as HU.
  assert (Hu : 0 < unit_at e) by (by apply unit_at_pos).
  assert (HuL : 0 < unit_at eL) by (apply unit_at_pos; unfold scale; lia).
  assert (Hp : 0 < 2 ^ n) by (apply Z.pow_pos_nonneg; lia).
  assert (Hflm2 : fl <= m2) by (destruct Hm2 as [E|[E _]]; rewrite E; lia).
  destruct (Z_le_gt_dec e1 eL) as [Hc|Hc].
  - pose proof (unit_at_split e1 eL ltac:(unfold scale; lia) Hc) as HUL.
    rewrite HUL, HU in Hle |- *.
    by apply (arith_lower _ _ _ _ fl _ (Z.pos m)).
  - assert (Hnrm : 2 ^ 52 <= fl) by (apply bracket_fl_norm; lia).
    pose proof (unit_at_double eL e1 ltac:(unfold scale; lia) ltac:(lia)) as Hu2.
    apply (arith_far _ _ fl _ _ (2 ^ 52)); (done || lia).
Qed.

(** A representable number above the exact value is above the rounded one,
    which does not overflow. *)
Lemma bracket_upper (mH : positive) (eH : Z) :
  Z.pos mH < 2 ^ 53 -> emin64 <= eH <= 971 ->
  Z.pos m * unit_at e <= Z.pos mH * unit_at eH ->
  mf * unit_at ef <= Z.pos mH * unit_at eH /\ (0 < mf -> ef <= 971).
Proof.
  intros HmH HeH Hle.
  pose proof bracket_e1 as He1. pose proof bracket_fl as [Hfl1 Hfl2].
  pose proof bracket_unit as HU.
  assert (Hu : 0 < unit_at e) by (by apply unit_at_pos).
  assert (HuH : 0 < unit_at eH) by (apply unit_at_pos; unfold scale; lia).
  assert (Hp : 0 < 2 ^ n) by (apply Z.pow_pos_nonneg; lia).
  assert (Hval : mf * unit_at ef <= Z.pos mH * unit_at eH).
  { rewrite bracket_value.
    destruct (Z_le_gt_dec e1 eH) as [Hc|Hc].
    - pose proof (unit_at_split e1 eH ltac:(unfold scale; lia) Hc) as HUH.
      assert (Hk : 0 < 2 ^ (eH - e1)) by (apply Z.pow_pos_nonneg; lia).
      rewrite HUH, HU in Hle |- *.
      apply (arith_upper _ _ _ _ fl _ (Z.pos m)); try done.
      + destruct Hm2 as [?|[? _]]; auto.
      + intros E. destruct Hm2 as [E'|[_ Hr]]; [lia|].
        pose proof (Z.div_mod (Z.pos m) (2 ^ n) ltac:(lia)) as Hdm.
        pose proof (Z.mod_pos_bound (Z.pos m) (2 ^ n) Hp) as Hmb.
        rewrite (Z.mul_comm (2 ^ n)) in Hdm. lia.
    - exfalso.
      assert (Hnrm : 2 ^ 52 <= fl) by (apply bracket_fl_norm; lia).
      pose proof (unit_at_double eH e1 ltac:(unfold scale; lia) ltac:(lia)) as Hu2.
      assert (Hx : fl * unit_at e1 <= Z.pos m * unit_at e).
      { rewrite HU. replace (fl * (unit_at e * 2 ^ n)) with (fl * 2 ^ n * unit_at e) by ring.
        apply Z.mul_le_mono_nonneg_r; lia. }
      pose proof (arith_above _ _ _ (Z.pos mH) (2 ^ 52) _ HmH Hnrm Hu2 HuH ltac:(lia) Hx).
      lia. }
  split; [done|]. intros Hpos.
  destruct (Z_le_gt_dec ef 971) as [|Hov]; [done|exfalso].
  assert (Hnrm : 2 ^ 52 <= mf) by (apply Hnorm; lia).
  pose proof (unit_at_double eH ef ltac:(unfold scale; lia) ltac:(lia)) as Hu2.
  pose proof (arith_above _ _ _ (Z.pos mH) (2 ^ 52) _ HmH Hnrm Hu2 HuH ltac:(lia)
                (Z.le_refl _)).
  lia.
Qed.

End Bracket.

Lemma finite_value_pos (m : positive) (e : Z) :
  emin64 <= e -> 0 < Z.pos m * unit_at e.
Proof.
  intros He. apply Z.mul_pos_pos; [lia|]. apply unit_at_pos. unfold scale. lia.
Qed.

(** The magnitude of a rounded number between two representable bounds. *)
Lemma magnitude_between (m : positive) (e : Z) (mf ef : Z) (L H : spec_float) :
  (forall (mL : positive) (eL : Z),
     Z.pos mL < 2 ^ 53 -> emin64 <= eL ->
     Z.pos mL * unit_at eL <= Z.pos m * unit_at e ->
     Z.pos mL * unit_at eL <= mf * unit_at ef) ->
  (forall (mH : positive) (eH : Z),
     Z.pos mH < 2 ^ 53 -> emin64 <= eH <= 971 ->
     Z.pos m * unit_at e <= Z.pos mH * unit_at eH ->
     mf * unit_at ef <= Z.pos mH * unit_at eH /\ (0 < mf -> ef <= 971)) ->
  0 <= mf -> emin64 <= ef -> emin64 - 1100 <= e ->
  valid_binary L = true -> valid_binary H = true ->
  fin L = true -> fin H = true ->
  forall s : bool,
    SF2Z L <= cond_Zopp s (Z.pos m * unit_at e) <= SF2Z H ->
    let R := match mf with
             | Z0 => S754_zero s
             | Z.pos p => if ef <=? emax - prec then S754_finite s p ef
                          else S754_infinity s
             | Z.neg _ => S754_nan
             end in
    fin R = true /\ SF2Z L <= SF2Z R <= SF2Z H.
Proof.
  intros Hlow Hupp Hmf Hef He HvL HvH HfL HfH s HX R.
  assert (Hu : 0 < unit_at e) by (apply unit_at_pos; unfold scale; lia).
  assert (Huf : 0 < unit_at ef) by (apply unit_at_pos; unfold scale; lia).
  assert (HX0 : 0 < Z.pos m * unit_at e) by (apply Z.mul_pos_pos; lia).
  assert (HR0 : 0 <= mf * unit_at ef) by (apply Z.mul_nonneg_nonneg; lia).
  (* the two magnitudes the sign selects *)
  assert (Hmag : forall (b : spec_float) (mb : positive) (eb : Z) (sb : bool),
            b = S754_finite sb mb eb -> valid_binary b = true ->
            Z.pos mb < 2 ^ 53 /\ emin64 <= eb <= 971 /\ 0 < Z.pos mb * unit_at eb).
  { intros b mb eb sb -> Hv. destruct (valid_finite _ _ _ Hv) as (H1 & H2 & _).
    split; [done|]. split; [done|]. apply finite_value_pos. lia. }
  destruct s; cbn [cond_Zopp] in HX.
  - (* negative *)
    destruct L as [sL| | |sL mL eL]; try discriminate; cbn [SF2Z] in HX; try lia.
    destruct (Hmag _ _ _ _ eq_refl HvL) as (HL1 & HL2 & HL3).
    destruct sL; cbn [cond_Zopp] in HX; [|lia].
    destruct (Hupp mL eL HL1 HL2 ltac:(lia)) as [Hval Hov].
    assert (Hhi : - (mf * unit_at ef) <= SF2Z H).
    { destruct H as [sH| | |sH mH eH]; try discriminate; cbn [SF2Z] in HX |- *; try lia.
      destruct (Hmag _ _ _ _ eq_refl HvH) as (HH1 & HH2 & HH3).
      destruct sH; cbn [cond_Zopp] in HX |- *; [|lia].
      pose proof (Hlow mH eH HH1 ltac:(lia) ltac:(lia)). lia. }
    subst R. destruct mf as [|p|p]; [| |lia].
    + cbn [fin SF2Z]. cbn [SF2Z cond_Zopp] in *. split; [done|]. lia.
    + specialize (Hov ltac:(lia)).
      change (emax - prec) with 971. rewrite (proj2 (Z.leb_le ef 971) Hov).
      cbn [fin SF2Z cond_Zopp] in *. split; [done|]. lia.
  - (* positive *)
    destruct H as [sH| | |sH mH eH]; try discriminate; cbn [SF2Z] in HX; try lia.
    destruct (Hmag _ _ _ _ eq_refl HvH) as (HH1 & HH2 & HH3).
    destruct sH; cbn [cond_Zopp] in HX; [lia|].
    destruct (Hupp mH eH HH1 HH2 ltac:(lia)) as [Hval Hov].
    assert (Hlo : SF2Z L <= mf * unit_at ef).
    { destruct L as [sL| | |sL mL eL]; try discriminate; cbn [SF2Z] in HX |- *; try lia.
      destruct (Hmag _ _ _ _ eq_refl HvL) as (HL1 & HL2 & HL3).
      destruct sL; cbn [cond_Zopp] in HX |- *; [lia|].
      pose proof (Hlow mL eL HL1 ltac:(lia) ltac:(lia)). lia. }
    subst R. destruct mf as [|p|p]; [| |lia].
    + cbn [fin SF2Z]. cbn [SF2Z cond_Zopp] in *. split; [done|]. lia.
    + specialize (Hov ltac:(lia)).
      change (emax - prec) with 971. rewrite (proj2 (Z.leb_le ef 971) Hov).
      cbn [fin SF2Z cond_Zopp] in *. split; [done|]. lia.
Qed.

(** Rounding an exact value that lies between two representable numbers
    gives a finite number between them. *)
Theorem round_aux_between (s : bool) (m : positive) (e : Z) (L H : spec_float) :
  emin64 - 1100 <= e ->
  e <= fexp64 (Z.pos (digits2_pos m) + e) ->
  valid_binary L = true -> valid_binary H = true ->
  fin L = true -> fin H = true ->
  SF2Z L <= cond_Zopp s (Z.pos m * unit_at e) <= SF2Z H ->
  let R := binary_round_aux prec emax s (Z.pos m) e loc_Exact in
  fin R = true /\ SF2Z L <= SF2Z R <= SF2Z H.
Proof.
  intros He Hn HvL HvH HfL HfH HX R. subst R.
  assert (He' : - scale <= e) by (unfold scale; lia).
  assert (Hn' : 0 <= fexp64 (Z.pos (digits2_pos m) + e) - e) by lia.
  destruct (round_aux_struct s m e Hn') as (m2 & mf & ef & -> & Hm2 & Hmf & Hef & Hmfb & Hnorm).
  apply (magnitude_between m e mf ef L H); try done.
  - intros mL eL. apply (bracket_lower m e He' Hn' m2 mf ef); done.
  - intros mH eH. apply (bracket_upper m e He' Hn' m2 mf ef); done.
  - lia.
  - cbv zeta in Hef. rewrite fexp64_eq in Hef. lia.
Qed.

(** *** Products *)

Lemma digits2_mul (a b : positive) :
  Z.pos (digits2_pos a) + Z.pos (digits2_pos b) - 1 <= Z.pos (digits2_pos (a * b)).
Proof.
  pose proof (digits2_bounds a) as [Ha _]. pose proof (digits2_bounds b) as [Hb _].
  assert (H : 2 ^ (Z.pos (digits2_pos a) + Z.pos (digits2_pos b) - 2) <= Z.pos (a * b)).
  { replace (Z.pos (digits2_pos a) + Z.pos (digits2_pos b) - 2)
      with ((Z.pos (digits2_pos a) - 1) + (Z.pos (digits2_pos b) - 1)) by lia.
    rewrite Z.pow_add_r, Pos2Z.inj_mul by lia.
    apply Z.mul_le_mono_nonneg; try done; apply Z.pow_nonneg; lia. }
  apply Zdigits2_ge in H; [|lia]. cbn [Zdigits2] in H. lia.
Qed.

Lemma unit_at_mul (ex ey : Z) :
  emin64 <= ex -> emin64 <= ey ->
  unit_at ex * unit_at ey = unit_at (ex + ey) * 2 ^ scale.
Proof.
  intros Hx Hy. unfold unit_at. rewrite <- !Z.pow_add_r by (unfold scale; lia).
  f_equal. lia.
Qed.

Lemma cond_Zopp_mul (sx sy : bool) (a b : Z) :
  cond_Zopp sx a * cond_Zopp sy b = cond_Zopp (xorb sx sy) (a * b).
Proof. destruct sx, sy; cbn [cond_Zopp xorb]; ring. Qed.

Lemma cond_Zopp_scale (s : bool) (a k : Z) : cond_Zopp s a * k = cond_Zopp s (a * k).
Proof. destruct s; cbn [cond_Zopp]; ring. Qed.

(** The product of two finite numbers that lies between two representable
    numbers rounds to a finite number between them. *)
Theorem SFmul_between (x y L H : spec_float) :
  valid_binary x = true -> valid_binary y = true ->
  valid_binary L = true -> valid_binary H = true ->
  fin x = true -> fin y = true -> fin L = true -> fin H = true ->
  SF2Z L * 2 ^ scale <= SF2Z x * SF2Z y <= SF2Z H * 2 ^ scale ->
  fin (SFmul prec emax x y) = true /\
  SF2Z L <= SF2Z (SFmul prec emax x y) <= SF2Z H.
Proof.
  intros Hvx Hvy HvL HvH Hfx Hfy HfL HfH HX.
  assert (HS : 0 < 2 ^ scale) by (apply Z.pow_pos_nonneg; unfold scale; lia).
  assert (Hzero : SF2Z x * SF2Z y = 0 -> SF2Z L <= 0 <= SF2Z H).
  { intros E. rewrite E in HX. lia. }
  destruct x as [sx| | |sx mx ex], y as [sy| | |sy my ey]; try discriminate;
    cbn [SFmul fin SF2Z]; try (split; [reflexivity|apply Hzero; cbn [SF2Z]; ring]).
  destruct (valid_finite _ _ _ Hvx) as (Hx1 & Hx2 & Hx3 & Hx4).
  destruct (valid_finite _ _ _ Hvy) as (Hy1 & Hy2 & Hy3 & Hy4).
  cbn [SF2Z] in HX.
  rewrite cond_Zopp_mul in HX.
  replace (Z.pos mx * unit_at ex * (Z.pos my * unit_at ey))
    with (Z.pos (mx * my) * unit_at (ex + ey) * 2 ^ scale) in HX
    by (rewrite Pos2Z.inj_mul, <- Z.mul_assoc, <- unit_at_mul by lia; ring).
  rewrite <- cond_Zopp_scale in HX.
  apply round_aux_between; try done.
  - lia.
  - pose proof (digits2_mul mx my).
    pose proof (Pos2Z.is_pos (digits2_pos mx)). pose proof (Pos2Z.is_pos (digits2_pos my)).
    rewrite fexp64_eq in Hx3, Hy3 |- *. lia.
  - split; apply (Z.mul_le_mono_pos_r _ _ (2 ^ scale)); lia.
Qed.

(** *** Sums *)

Lemma iter_xO (m d : positive) : Z.pos (Pos.iter xO m d) = Z.pos m * 2 ^ Z.pos d.
Proof.
  induction d as [|d IH] using Pos.peano_ind.
  - cbn [Pos.iter]. change (2 ^ 1) with 2. lia.
  - rewrite Pos.iter_succ, Pos2Z.inj_xO, IH, Pos2Z.inj_succ, Z.pow_succ_r by lia. ring.
Qed.

Lemma shl_align_spec (mx : positive) (ex ex' : Z) :
  snd (shl_align mx ex ex') = Z.min ex ex' /\
  Z.pos (fst (shl_align mx ex ex')) = Z.pos mx * 2 ^ (ex - Z.min ex ex').
Proof.
  unfold shl_align. destruct (ex' - ex) as [|d|d] eqn:E; cbn [fst snd].
  - replace (Z.min ex ex') with ex by lia. rewrite Z.sub_diag. split; [done|lia].
  - replace (Z.min ex ex') with ex by lia. rewrite Z.sub_diag. split; [done|lia].
  - replace (Z.min ex ex') with ex' by lia. split; [done|].
    rewrite iter_xO. f_equal. f_equal. lia.
Qed.

Lemma digits2_shift (m : positive) (m' : positive) (k : Z) :
  0 <= k -> Z.pos m' = Z.pos m * 2 ^ k ->
  Z.pos (digits2_pos m') = Z.pos (digits2_pos m) + k.
Proof.
  intros Hk E. pose proof (digits2_bounds m) as [Hlo Hhi].
  assert (Hp : 0 < 2 ^ k) by (apply Z.pow_pos_nonneg; lia).
  assert (H1 : Zdigits2 (Z.pos m') <= Z.pos (digits2_pos m) + k).
  { apply Zdigits2_le; [lia|]. rewrite E, Z.pow_add_r by lia.
    apply Z.mul_lt_mono_pos_r; lia. }
  assert (H2 : Z.pos (digits2_pos m) + k - 1 < Zdigits2 (Z.pos m')).
  { apply Zdigits2_ge; [lia|]. rewrite E.
    replace (Z.pos (digits2_pos m) + k - 1) with ((Z.pos (digits2_pos m) - 1) + k) by lia.
    rewrite Z.pow_add_r by lia. apply Z.mul_le_mono_nonneg_r; lia. }
  cbn [Zdigits2] in H1, H2. lia.
Qed.

Lemma binary_round_between (s : bool) (m : positive) (e : Z) (L H : spec_float) :
  emin64 <= e ->
  valid_binary L = true -> valid_binary H = true ->
  fin L = true -> fin H = true ->
  SF2Z L <= cond_Zopp s (Z.pos m * unit_at e) <= SF2Z H ->
  fin (binary_round prec emax s m e) = true /\
  SF2Z L <= SF2Z (binary_round prec emax s m e) <= SF2Z H.
Proof.
  intros He HvL HvH HfL HfH HX. unfold binary_round.
  pose proof (shl_align_spec m e (fexp64 (Z.pos (digits2_pos m) + e))) as [He' Hm'].
  destruct (shl_align m e (fexp64 (Z.pos (digits2_pos m) + e))) as [mz ez].
  cbn [fst snd] in He', Hm'.
  assert (Hfe : emin64 <= fexp64 (Z.pos (digits2_pos m) + e)) by (rewrite fexp64_eq; lia).
  assert (Hez : emin64 <= ez <= e) by lia.
  assert (Hd : Z.pos (digits2_pos mz) = Z.pos (digits2_pos m) + (e - ez)).
  { apply digits2_shift; [lia|]. by rewrite Hm', He'. }
  apply round_aux_between; try done.
  - lia.
  - rewrite Hd. replace (Z.pos (digits2_pos m) + (e - ez) + ez)
      with (Z.pos (digits2_pos m) + e) by lia. lia.
  - rewrite Hm', <- He', <- Z.mul_assoc, (Z.mul_comm (2 ^ _)).
    rewrite <- (unit_at_split ez e) by (unfold scale; lia). done.
Qed.

Lemma binary_normalize_between (M e : Z) (L H : spec_float) :
  emin64 <= e ->
  valid_binary L = true -> valid_binary H = true ->
  fin L = true -> fin H = true ->
  SF2Z L <= M * unit_at e <= SF2Z H ->
  fin (binary_normalize prec emax M e false) = true /\
  SF2Z L <= SF2Z (binary_normalize prec emax M e false) <= SF2Z H.
Proof.
  intros He HvL HvH HfL HfH HX. destruct M as [|p|p]; cbn [binary_normalize].
  - cbn [fin SF2Z]. split; [done|lia].
  - by apply binary_round_between.
  - apply binary_round_between; try done. cbn [cond_Zopp]. lia.
Qed.

(** The sum of two finite numbers that lies between two representable
    numbers rounds to a finite number between them. *)
Theorem SFadd_between (x y L H : spec_float) :
  valid_binary x = true -> valid_binary y = true ->
  valid_binary L = true -> valid_binary H = true ->
  fin x = true -> fin y = true -> fin L = true -> fin H = true ->
  SF2Z L <= SF2Z x + SF2Z y <= SF2Z H ->
  fin (SFadd prec emax x y) = true /\
  SF2Z L <= SF2Z (SFadd prec emax x y) <= SF2Z H.
Proof.
  intros Hvx Hvy HvL HvH Hfx Hfy HfL HfH HX.
  destruct x as [sx| | |sx mx ex], y as [sy| | |sy my ey]; try discriminate;
    cbn [SFadd].
  - cbn [SF2Z] in HX. destruct sx, sy; cbn [fin SF2Z]; (split; [done|lia]).
  - cbn [SF2Z] in HX |- *. split; [done|lia].
  - cbn [SF2Z] in HX |- *. split; [done|lia].
  - destruct (valid_finite _ _ _ Hvx) as (Hx1 & Hx2 & _).
    destruct (valid_finite _ _ _ Hvy) as (Hy1 & Hy2 & _).
    pose proof (shl_align_spec mx ex (Z.min ex ey)) as [_ Hmx].
    pose proof (shl_align_spec my ey (Z.min ex ey)) as [_ Hmy].
    replace (Z.min ex (Z.min ex ey)) with (Z.min ex ey) in Hmx by lia.
    replace (Z.min ey (Z.min ex ey)) with (Z.min ex ey) in Hmy by lia.
    apply binary_normalize_between; try done; [lia|].
    rewrite Hmx, Hmy. cbn [SF2Z] in HX.
    rewrite (unit_at_split (Z.min ex ey) ex) in HX by (unfold scale; lia).
    rewrite (unit_at_split (Z.min ex ey) ey) in HX by (unfold scale; lia).
    replace ((cond_Zopp sx (Z.pos mx * 2 ^ (ex - Z.min ex ey))
              + cond_Zopp sy (Z.pos my * 2 ^ (ey - Z.min ex ey))) * unit_at (Z.min ex ey))
      with (cond_Zopp sx (Z.pos mx * (unit_at (Z.min ex ey) * 2 ^ (ex - Z.min ex ey)))
            + cond_Zopp sy (Z.pos my * (unit_at (Z.min ex ey) * 2 ^ (ey - Z.min ex ey))))
      by (destruct sx, sy; cbn [cond_Zopp]; ring).
    done.
Qed.

(** *** Comparisons *)

(** Two valid positive numbers compare as their exponents, then as their
    mantissas. *)
Lemma finite_compare (m1 m2 : positive) (e1 e2 : Z) :
  valid_binary (S754_finite false m1 e1) = true ->
  valid_binary (S754_finite false m2 e2) = true ->
  (Z.pos m1 * unit_at e1 ?= Z.pos m2 * unit_at e2) =
  match e1 ?= e2 with
  | Lt => Lt
  | Gt => Gt
  | Eq => Pos.compare_cont Eq m1 m2
  end.
Proof.
  intros (H1 & H2 & _ & H4)%valid_finite (H1' & H2' & _ & H4')%valid_finite.
  assert (Hu1 : 0 < unit_at e1) by (apply unit_at_pos; unfold scale; lia).
  assert (Hu2 : 0 < unit_at e2) by (apply unit_at_pos; unfold scale; lia).
  destruct (Z.compare_spec e1 e2) as [->|Hlt|Hgt].
  - change (Pos.compare_cont Eq m1 m2) with (Z.pos m1 ?= Z.pos m2).
    symmetry. apply Zmult_compare_compat_r. lia.
  - apply Z.compare_lt_iff.
    change (2 ^ 53) with (2 ^ 52 * 2) in H1.
    apply (arith_above (unit_at e1) (unit_at e2) (Z.pos m2) (Z.pos m1) (2 ^ 52) _ H1
             (H4' ltac:(lia)) (unit_at_double e1 e2 ltac:(unfold scale; lia) Hlt) Hu1
             ltac:(lia) (Z.le_refl _)).
  - apply Z.compare_gt_iff.
    change (2 ^ 53) with (2 ^ 52 * 2) in H1'.
    apply (arith_above (unit_at e2) (unit_at e1) (Z.pos m1) (Z.pos m2) (2 ^ 52) _ H1'
             (H4 ltac:(lia)) (unit_at_double e2 e1 ltac:(unfold scale; lia) Hgt) Hu2
             ltac:(lia) (Z.le_refl _)).
Qed.

(** Valid finite numbers compare as their values. *)
Theorem SFcompare_value (x y : spec_float) :
  valid_binary x = true -> valid_binary y = true ->
  fin x = true -> fin y = true ->
  SFcompare x y = Some (SF2Z x ?= SF2Z y).
Proof.
  intros Hvx Hvy Hfx Hfy.
  assert (Hpos : forall s m e, valid_binary (S754_finite s m e) = true ->
                               0 < Z.pos m * unit_at e).
  { intros s m e (_ & H2 & _)%valid_finite. apply finite_value_pos. lia. }
  destruct x as [sx| | |sx mx ex], y as [sy| | |sy my ey]; try discriminate;
    cbn [SFcompare SF2Z].
  - reflexivity.
  - pose proof (Hpos _ _ _ Hvy). f_equal. symmetry.
    destruct sy; cbn [cond_Zopp]; [apply Z.compare_gt_iff|apply Z.compare_lt_iff]; lia.
  - pose proof (Hpos _ _ _ Hvx). f_equal. symmetry.
    destruct sx; cbn [cond_Zopp]; [apply Z.compare_lt_iff|apply Z.compare_gt_iff]; lia.
  - pose proof (Hpos _ _ _ Hvx). pose proof (Hpos _ _ _ Hvy). f_equal.
    destruct sx, sy; cbn [cond_Zopp].
    + rewrite Z.compare_opp.
      rewrite (finite_compare my mx ey ex) by done.
      rewrite (Z.compare_antisym ey ex).
      destruct (ey ?= ex); cbn [CompOpp]; try reflexivity.
      change (Pos.compare_cont Eq mx my) with (mx ?= my)%positive.
      change (Pos.compare_cont Eq my mx) with (my ?= mx)%positive.
      by rewrite (Pos.compare_antisym mx my).
    + symmetry. apply Z.compare_lt_iff. lia.
    + symmetry. apply Z.compare_gt_iff. lia.
    + symmetry. by apply finite_compare.
Qed.

Lemma SFleb_value (x y : spec_float) :
  valid_binary x = true -> valid_binary y = true ->
  fin x = true -> fin y = true ->
  SFleb x y = true <-> SF2Z x <= SF2Z y.
Proof.
  intros Hvx Hvy Hfx Hfy. unfold SFleb. rewrite SFcompare_value by done.
  destruct (Z.compare_spec (SF2Z x) (SF2Z y)); split; (done || lia).
Qed.

(** What lies between two finite numbers is finite. *)
Lemma SFleb_fin (lo hi x : spec_float) :
  fin lo = true -> fin hi = true ->
  SFleb lo x = true -> SFleb x hi = true -> fin x = true.
Proof.
  unfold SFleb.
  destruct x as [s| [] | |s m e]; try done;
    destruct lo as [sl| | |sl ml el], hi as [sh| | |sh mh eh]; try done;
    cbn [SFcompare]; try done; try destruct sl; try destruct sh; done.
Qed.

(** *** The comparison of floats, by values *)

Lemma within_value (lo hi x : float) :
  fin (Prim2SF lo) = true -> fin (Prim2SF hi) = true ->
  within lo hi x <->
  fin (Prim2SF x) = true /\
  SF2Z (Prim2SF lo) <= SF2Z (Prim2SF x) <= SF2Z (Prim2SF hi).
Proof.
  intros Hlo Hhi. unfold within. rewrite !leb_spec.
  pose proof (Prim2SF_valid lo) as Vlo. pose proof (Prim2SF_valid hi) as Vhi.
  pose proof (Prim2SF_valid x) as Vx.
  split.
  - intros [Hl Hh].
    assert (Hx : fin (Prim2SF x) = true)
      by (by apply (SFleb_fin (Prim2SF lo) (Prim2SF hi))).
    split; [done|]. split; by apply SFleb_value.
  - intros [Hx [Hl Hh]]. split; by apply SFleb_value.
Qed.

(** A sum of floats within bounds. *)
Theorem add_within (a b c d L H x y : float) :
  fin (Prim2SF a) = true -> fin (Prim2SF b) = true ->
  fin (Prim2SF c) = true -> fin (Prim2SF d) = true ->
  fin (Prim2SF L) = true -> fin (Prim2SF H) = true ->
  SF2Z (Prim2SF L) <= SF2Z (Prim2SF a) + SF2Z (Prim2SF c) ->
  SF2Z (Prim2SF b) + SF2Z (Prim2SF d) <= SF2Z (Prim2SF H) ->
  within a b x -> within c d y -> within L H (x + y)%float.
Proof.
  intros Ha Hb Hc Hd HL HH Hlo Hhi Hx Hy.
  apply within_value in Hx as [Hfx Hx]; [|done..].
  apply within_value in Hy as [Hfy Hy]; [|done..].
  apply within_value; [done..|]. rewrite add_spec.
  apply SFadd_between; try done; try apply Prim2SF_valid. lia.
Qed.

(** The product of a non-negative constant and a float within bounds. *)
Theorem mul_within (k lo hi L H y : float) :
  fin (Prim2SF k) = true ->
  fin (Prim2SF lo) = true -> fin (Prim2SF hi) = true ->
  fin (Prim2SF L) = true -> fin (Prim2SF H) = true ->
  0 <= SF2Z (Prim2SF k) ->
  SF2Z (Prim2SF L) * 2 ^ scale <= SF2Z (Prim2SF k) * SF2Z (Prim2SF lo) ->
  SF2Z (Prim2SF k) * SF2Z (Prim2SF hi) <= SF2Z (Prim2SF H) * 2 ^ scale ->
  within lo hi y -> within L H (k * y)%float.
Proof.
  intros Hk Hflo Hfhi HL HH Hk0 Hlo Hhi Hy.
  apply within_value in Hy as [Hfy Hy]; [|done..].
  apply within_value; [done..|]. rewrite mul_spec.
  apply SFmul_between; try done; try apply Prim2SF_valid.
  split.
  - etrans; [exact Hlo|]. apply Z.mul_le_mono_nonneg_l; lia.
  - etrans; [|exact Hhi]. apply Z.mul_le_mono_nonneg_l; lia.
Qed.

Lemma within_finite (lo hi x : float) :
  fin (Prim2SF lo) = true -> fin (Prim2SF hi) = true ->
  within lo hi x -> PrimFloat.is_finite x = true.
Proof.
  intros Hlo Hhi Hx. apply within_value in Hx as [Hfx _]; [|done..].
  unfold PrimFloat.is_finite, PrimFloat.is_nan, PrimFloat.is_infinity.
  rewrite !FloatAxioms.eqb_spec, abs_spec. unfold SFeqb.
  change (Prim2SF infinity) with (S754_infinity false).
  destruct (Prim2SF x) as [s|s| |s m e]; try done.
  cbn [SFabs SFcompare]. rewrite Z.compare_refl, Pos.compare_cont_refl.
  by destruct s.
Qed.

(** A draw below one is at most one. *)
Lemma ltb_leb (x y : float) : (x <? y)%float = true -> (x <=? y)%float = true.
Proof.
  rewrite ltb_spec, leb_spec. unfold SFltb, SFleb.
  by destruct (SFcompare (Prim2SF x) (Prim2SF y)) as [[]|].
Qed.

End RoundingFacts.

(** ** Bounds of the realistic values *)

Module ValueBounds.
Import Py FloatValue RoundingFacts.

(** Comparisons of constants, by computation. *)
Ltac const_le := apply Z.leb_le; vm_compute; reflexivity.

(** [random.uniform(-0.5, 0.5)] on a draw in [0, 1] is in [-0.5, 0.5]. *)
Lemma noise_within (r : float) :
  within 0 1 r -> within (-0.5) 0.5 (RealisticRun.noise_of r).
Proof.
  intros Hr. unfold RealisticRun.noise_of.
  assert (Hm : within 0 1 ((0.5 - -0.5) * r)%float).
  { apply (mul_within (0.5 - -0.5) 0 1 0 1 r); try reflexivity; try const_le. exact Hr. }
  apply (add_within (-0.5) (-0.5) 0 1 (-0.5) 0.5 (-0.5) _);
    try reflexivity; try const_le; try done.
Qed.

(** [23.0 + 2.0 * t + n] for [t] in [-1, 1] and [n] in [-0.5, 0.5]. *)
Lemma wave_within (t n : float) :
  within (-1) 1 t -> within (-0.5) 0.5 n ->
  within 20.5 25.5 (Realistic.base_temp + 2.0 * t + n)%float.
Proof.
  intros Ht Hn. unfold Realistic.base_temp.
  assert (H2 : within (-2) 2 (2.0 * t)%float).
  { apply (mul_within 2 (-1) 1 (-2) 2 t); try reflexivity; try const_le. exact Ht. }
  assert (H3 : within 21 25 (23.0 + 2.0 * t)%float).
  { apply (add_within 23 23 (-2) 2 21 25 23 _); try reflexivity; try const_le; try done. }
  apply (add_within 21 25 (-0.5) 0.5 20.5 25.5 _ _);
    try reflexivity; try const_le; done.
Qed.

(** A constant plus the noise. *)
Lemma offset_within (c lo hi n : float) :
  fin (Prim2SF c) = true -> fin (Prim2SF lo) = true -> fin (Prim2SF hi) = true ->
  SF2Z (Prim2SF lo) <= SF2Z (Prim2SF c) + SF2Z (Prim2SF (-0.5)) ->
  SF2Z (Prim2SF c) + SF2Z (Prim2SF 0.5) <= SF2Z (Prim2SF hi) ->
  within (-0.5) 0.5 n -> within lo hi (c + n)%float.
Proof.
  intros Hc Hlo Hhi H1 H2 Hn.
  apply (add_within c c (-0.5) 0.5 lo hi c n); try done.
  pose proof (Prim2SF_valid c) as Vc.
  apply within_value; [done..|]. split; [done|lia].
Qed.

End ValueBounds.

(** ** Classifying a binary64 value *)

Module FloatFacts.

Lemma SFcompare_refl (x : spec_float) :
  x <> S754_nan -> SFcompare x x = Some Eq.
Proof.
  destruct x as [s|s| |s m e]; try done.
  - by destruct s.
  - intros _. simpl. rewrite Z.compare_refl, Pos.compare_cont_refl. by destruct s.
Qed.

(** [math.isnan] and [math.isinf] on the value read as a [spec_float]. *)
Lemma is_nan_spec (x : float) :
  PrimFloat.is_nan x = match Prim2SF x with S754_nan => true | _ => false end.
Proof.
  unfold PrimFloat.is_nan. rewrite FloatAxioms.eqb_spec. unfold SFeqb.
  destruct (Prim2SF x) as [s|s| |s m e] eqn:E; try by rewrite SFcompare_refl.
  reflexivity.
Qed.

Lemma is_infinity_spec (x : float) :
  PrimFloat.is_infinity x =
  match Prim2SF x with S754_infinity _ => true | _ => false end.
Proof.
  unfold PrimFloat.is_infinity. rewrite FloatAxioms.eqb_spec, FloatAxioms.abs_spec.
  change (Prim2SF infinity) with (S754_infinity false).
  by destruct (Prim2SF x) as [s|s| |s m e].
Qed.

Lemma is_finite_spec (x : float) :
  PrimFloat.is_finite x =
  match Prim2SF x with S754_zero _ | S754_finite _ _ _ => true | _ => false end.
Proof.
  unfold PrimFloat.is_finite. rewrite is_nan_spec, is_infinity_spec.
  by destruct (Prim2SF x).
Qed.

(** The sign of an infinity, by comparison with zero. *)
Lemma infinity_sign (x : float) (s : bool) :
  Prim2SF x = S754_infinity s -> (x <? 0)%float = s.
Proof.
  intros H. rewrite FloatAxioms.ltb_spec, H. change (Prim2SF 0) with (S754_zero false).
  by destruct s.
Qed.

End FloatFacts.

(** ** The shape of a two-decimal literal *)

Module ShapeFacts.
Import Py Quads StrFacts TextFacts FormatFacts Shapes.

(** A one-digit number prints as one digit. *)
Lemma str_digit_char (v : Z) :
  0 <= v < 10 -> all_chars is_digit (str v) = true /\ String.length (str v) = 1%nat.
Proof.
  intros H.
  assert (v = 0 \/ v = 1 \/ v = 2 \/ v = 3 \/ v = 4 \/ v = 5 \/ v = 6 \/ v = 7 \/
          v = 8 \/ v = 9) as Hv by lia.
  repeat destruct Hv as [-> | Hv]; try (split; reflexivity). subst. split; reflexivity.
Qed.

Lemma two_digits_digits (n : Z) :
  0 <= n < 100 -> all_chars is_digit (two_digits n) = true.
Proof.
  intros H. unfold two_digits. rewrite all_chars_app.
  assert (H1 : 0 <= n / 10 < 10)
    by (split; [apply Z.div_pos; lia|apply Z.div_lt_upper_bound; lia]).
  assert (H2 : 0 <= n mod 10 < 10) by (apply Z.mod_pos_bound; lia).
  by rewrite (proj1 (str_digit_char _ H1)), (proj1 (str_digit_char _ H2)).
Qed.

Lemma fixed2_shape (s : bool) (h : Z) :
  exists fr, fraction_of (fixed2 s h) = Some fr /\ String.length fr = 2%nat /\
             all_chars is_digit fr = true.
Proof.
  exists (two_digits (h mod 100)).
  split; [apply (fixed2_fraction s h)|]. split; [apply (fixed2_fraction s h)|].
  apply two_digits_digits. apply Z.mod_pos_bound. lia.
Qed.

(** The text [format(x, ".2f")] gives: two digits after the point for a
    finite value, and a word for the values that are no numbers. *)
Lemma format_2f_cases (x : float) :
  (PrimFloat.is_finite x = true ->
     exists fr, fraction_of (format_2f x) = Some fr /\ String.length fr = 2%nat /\
                all_chars is_digit fr = true) /\
  (PrimFloat.is_nan x = true -> format_2f x = "nan") /\
  (PrimFloat.is_infinity x = true ->
     format_2f x = if (x <? 0)%float then "-inf" else "inf").
Proof.
  rewrite FloatFacts.is_finite_spec, FloatFacts.is_nan_spec, FloatFacts.is_infinity_spec.
  unfold format_2f. destruct (Prim2SF x) as [s|s| |s m e] eqn:E.
  - split; [intros _; apply fixed2_shape|done].
  - split; [done|]. split; [done|]. intros _.
    by rewrite (FloatFacts.infinity_sign x s E).
  - done.
  - split; [intros _; apply fixed2_shape|done].
Qed.

End ShapeFacts.

Module Examples.
Import Py Quads Records.

Example str_samples :
  str 1699996400000 = "1699996400000" /\ str 0 = "0" /\ str (-5) = "-5".
Proof. repeat split. Qed.

Example int_of_float_samples :
  int_of_float (1700000000.0 * 1000) = Some 1700000000000 /\
  int_of_float (-2.5) = Some (-2) /\ int_of_float 0.5 = Some 0 /\
  int_of_float infinity = None.
Proof. repeat split. Qed.

(** Ties go to the even neighbour; the sign of a negative zero is kept. *)
Example format_2f_samples :
  format_2f 23.0 = "23.00" /\ format_2f 22.75 = "22.75" /\
  format_2f 0.125 = "0.12" /\ format_2f 0.375 = "0.38" /\
  format_2f (-24.5) = "-24.50" /\ format_2f (-0.0) = "-0.00" /\
  format_2f nan = "nan" /\ format_2f neg_infinity = "-inf".
Proof. repeat split. Qed.

Example phase_samples :
  Realistic.phase 0 = 0%float /\ Realistic.phase 50 = math_pi.
Proof. repeat split. Qed.

(** The scenario of the specification: the clock at 1700000000 s. *)
Example historical_first_lines :
  take 2 (lines_of Historical.out_path (snd (Historical.main Demo.world))) =
  [ "1699996400000 <http://example.org/sensor1> <http://example.org/temperature> "
    +:+ dq +:+ "20" +:+ dq
    +:+ "^^<http://www.w3.org/2001/XMLSchema#decimal> <http://example.org/sensorStream> ."
    +:+ nl;
    "1699996400000 <http://example.org/sensor2> <http://example.org/temperature> "
    +:+ dq +:+ "22" +:+ dq
    +:+ "^^<http://www.w3.org/2001/XMLSchema#decimal> <http://example.org/sensorStream> ."
    +:+ nl ].
Proof. vm_compute. reflexivity. Qed.

Example historical_message :
  stdout (snd (Historical.main Demo.world)) =
  ["Generated data/sensors_historical_graph.nq with start timestamp 1699996400000"].
Proof. vm_compute. reflexivity. Qed.

(** A run cut short by the device: request 3 (the third [write]) fails
    after the device took 100 bytes at each write and dropped the rest; the
    second line is cut. *)
Example realistic_cut_short :
  let r := Realistic.main Demo.flat_sin Demo.flat_cos (Demo.faulty 3) in
  fst r = Raise (OSError 3) /\
  (fun l => literal <$> parse_quad l) <$> lines_of Realistic.out_path (snd r) =
    [Some "22.75"; None] /\
  String.length (contents Realistic.out_path (snd r)) = 300%nat /\
  rng_draws (snd r) = 3%nat /\ stdout (snd r) = [].
Proof. vm_compute. repeat split. Qed.

(** A run whose writes all stay in the buffer, and whose close fails after
    50 bytes. *)
Example historical_close_fails :
  let r := Historical.main Demo.failing_close in
  fst r = Raise (OSErrorAtClose 0) /\
  contents Historical.out_path (snd r) =
    "1699996400000 <http://example.org/sensor1> <http:/" /\
  open_fds (snd r) !! 0%nat = None /\ stdout (snd r) = [].
Proof. vm_compute. repeat split. Qed.

(** The clock of a machine gone wrong: [int] of an infinity or of a NaN. *)
Example int_samples :
  fst (int_ infinity Demo.world) = Raise OverflowError /\
  fst (int_ nan Demo.world) = Raise ValueError /\
  fst (int_ 2.75 Demo.world) = Ok 2.
Proof. repeat split. Qed.

Example parse_sample :
  parse_quad ("12 <a> <b> " +:+ dq +:+ "x y" +:+ dq +:+ "^^<d> <g> ." +:+ nl) =
  Some (mkQuad 12 "a" "b" "x y" "d" "g").
Proof. reflexivity. Qed.

End Examples.

(** * The claims *)

Module Claims.
Import Py Quads Runs Records StrFacts TextFacts ParseFacts RunFacts ScriptFacts ArithFacts.
Import OutcomeFacts PrefixFacts FloatValue RoundingFacts ValueBounds ShapeFacts.
Import HistoricalRecords (sample).

(** Sample runs, evaluated once. *)
Lemma demo_sample : sample Demo.world = Some 1700000000000.
Proof. vm_compute. reflexivity. Qed.

Lemma demo_historical_completes : fst (Historical.main Demo.world) = Ok tt.
Proof. vm_compute. reflexivity. Qed.

Lemma record_at_subject (p : string) (w : World) (k : nat) (q : Quad) :
  record_at p w k = Some q -> subject_at p w k = Some (subject q).
Proof. unfold subject_at. by intros ->. Qed.

Lemma record_at_timestamp (p : string) (w : World) (k : nat) (q : Quad) :
  record_at p w k = Some q -> timestamp_at p w k = Some (timestamp q).
Proof. unfold timestamp_at. by intros ->. Qed.

Lemma record_at_literal (p : string) (w : World) (k : nat) (q : Quad) :
  record_at p w k = Some q -> literal_at p w k = Some (literal q).
Proof. unfold literal_at. by intros ->. Qed.

Lemma record_at_value (p : string) (w : World) (k : nat) (q : Quad) (v : Z) :
  record_at p w k = Some q -> literal q = str v -> value_at p w k = Some v.
Proof.
  intros Hq Hv. unfold value_at. rewrite (record_at_literal _ _ _ _ Hq), Hv. simpl.
  apply int_of_str_str.
Qed.

Lemma historical_pair (w : World) (now : Z) (i : nat) :
  sample w = Some now -> fst (Historical.main w) = Ok tt -> (i < 100)%nat ->
  record_at Historical.out_path (snd (Historical.main w)) (2 * i) = Some (HistoricalRun.quad1 now (Z.of_nat i)) /\
  record_at Historical.out_path (snd (Historical.main w)) (2 * i + 1) = Some (HistoricalRun.quad2 now (Z.of_nat i)).
Proof.
  intros Hs Hc Hi. split.
  - rewrite <- HistoricalRunFacts.hist_record_even.
    apply HistoricalRunFacts.hist_completed_record; [done..|lia].
  - replace (2 * i + 1)%nat with (S (2 * i)) by lia.
    rewrite <- HistoricalRunFacts.hist_record_odd.
    apply HistoricalRunFacts.hist_completed_record; [done..|lia].
Qed.

(** C1. For every index [i] in [0,100), the historical generator emits for
    sensor1 the literal value [20 + (i mod 5)] and for sensor2 the literal
    value [22 + (i mod 5)]: after a completed run, line [2 i] of the file
    reads as a sensor1 record whose literal is the numeral of
    [20 + (i mod 5)], line [2 i + 1] as a sensor2 record whose literal is the
    numeral of [22 + (i mod 5)]; the first lies in {20,...,24}, the second in
    {22,...,26}. *)
Theorem C1_historical_values (w : World) (now : Z) (i : nat) :
  sample w = Some now -> fst (Historical.main w) = Ok tt -> (i < 100)%nat ->
  let w' := snd (Historical.main w) in
  let v1 := 20 + Z.of_nat i mod 5 in
  let v2 := 22 + Z.of_nat i mod 5 in
  (subject_at Historical.out_path w' (2 * i) = Some sensor1 /\
   literal_at Historical.out_path w' (2 * i) = Some (str v1) /\
   value_at Historical.out_path w' (2 * i) = Some v1) /\
  (subject_at Historical.out_path w' (2 * i + 1) = Some sensor2 /\
   literal_at Historical.out_path w' (2 * i + 1) = Some (str v2) /\
   value_at Historical.out_path w' (2 * i + 1) = Some v2) /\
  v1 ∈ [20; 21; 22; 23; 24] /\ v2 ∈ [22; 23; 24; 25; 26].
Proof.
  intros Hs Hc Hi w' v1 v2.
  destruct (historical_pair w now i Hs Hc Hi) as [H1 H2]. fold w' in H1, H2.
  split; [|split].
  - split; [apply (record_at_subject _ _ _ _ H1)|].
    split; [apply (record_at_literal _ _ _ _ H1)|].
    by apply (record_at_value _ _ _ _ _ H1).
  - split; [apply (record_at_subject _ _ _ _ H2)|].
    split; [apply (record_at_literal _ _ _ _ H2)|].
    by apply (record_at_value _ _ _ _ _ H2).
  - assert (Hr : 0 <= Z.of_nat i mod 5 < 5) by (apply Z.mod_pos_bound; lia).
    subst v1 v2.
    assert (Z.of_nat i mod 5 = 0 \/ Z.of_nat i mod 5 = 1 \/ Z.of_nat i mod 5 = 2 \/
            Z.of_nat i mod 5 = 3 \/ Z.of_nat i mod 5 = 4) as Hcases by lia.
    clear Hr.
    destruct Hcases as [E | [E | [E | [E | E]]]]; rewrite E; clear E;
      split; simpl; rewrite !elem_of_cons; auto 10.
Qed.

Lemma C1_historical_values_witness :
  sample Demo.world = Some 1700000000000 /\
  fst (Historical.main Demo.world) = Ok tt /\
  (7 < 100)%nat /\
  let w' := snd (Historical.main Demo.world) in
  let v1 := 20 + Z.of_nat 7 mod 5 in
  let v2 := 22 + Z.of_nat 7 mod 5 in
  (subject_at Historical.out_path w' (2 * 7) = Some sensor1 /\
   literal_at Historical.out_path w' (2 * 7) = Some (str v1) /\
   value_at Historical.out_path w' (2 * 7) = Some v1) /\
  (subject_at Historical.out_path w' (2 * 7 + 1) = Some sensor2 /\
   literal_at Historical.out_path w' (2 * 7 + 1) = Some (str v2) /\
   value_at Historical.out_path w' (2 * 7 + 1) = Some v2) /\
  v1 ∈ [20; 21; 22; 23; 24] /\ v2 ∈ [22; 23; 24; 25; 26].
Proof.
  assert (Hi : (7 < 100)%nat) by lia.
  exact (conj demo_sample (conj demo_historical_completes (conj Hi
    (C1_historical_values Demo.world 1700000000000 7
       demo_sample demo_historical_completes Hi)))).
Defined.

(** C2. The historical generator computes [start = now - 3600000] and, for
    every index [i] in [0,100), emits the timestamp [start + 1000 i], the same
    on the sensor1 and the sensor2 line of that index, so the timestamps of
    one sensor go up by exactly 1000 from an index to the next; with
    [now = 1700000000000] the timestamp of line 0 is [1699996400000]. *)
Theorem C2_historical_timestamps (w : World) (now : Z) (i : nat) :
  sample w = Some now -> fst (Historical.main w) = Ok tt -> (i < 100)%nat ->
  let w' := snd (Historical.main w) in
  let start := now - 3600000 in
  timestamp_at Historical.out_path w' (2 * i) = Some (start + 1000 * Z.of_nat i) /\
  timestamp_at Historical.out_path w' (2 * i + 1) = Some (start + 1000 * Z.of_nat i) /\
  ((S i < 100)%nat ->
   timestamp_at Historical.out_path w' (2 * S i) = Some (start + 1000 * Z.of_nat i + 1000) /\
   timestamp_at Historical.out_path w' (2 * S i + 1) = Some (start + 1000 * Z.of_nat i + 1000)) /\
  (now = 1700000000000 -> timestamp_at Historical.out_path w' 0 = Some 1699996400000).
Proof.
  intros Hs Hc Hi w' start.
  assert (Hts : forall j, (j < 100)%nat ->
    timestamp_at Historical.out_path w' (2 * j) = Some (start + 1000 * Z.of_nat j) /\
    timestamp_at Historical.out_path w' (2 * j + 1) = Some (start + 1000 * Z.of_nat j)).
  { intros j Hj. destruct (historical_pair w now j Hs Hc Hj) as [H1 H2]. fold w' in H1, H2.
    rewrite (record_at_timestamp _ _ _ _ H1), (record_at_timestamp _ _ _ _ H2).
    simpl. subst start. split; f_equal; lia. }
  destruct (Hts i Hi) as [H1 H2].
  split; [done|]. split; [done|]. split.
  - intros HS. destruct (Hts (S i) HS) as [H3 H4].
    rewrite H3, H4. split; f_equal; lia.
  - intros ->. destruct (Hts 0%nat) as [H0 _]; [lia|]. exact H0.
Qed.

Lemma C2_historical_timestamps_witness :
  sample Demo.world = Some 1700000000000 /\
  fst (Historical.main Demo.world) = Ok tt /\
  (0 < 100)%nat /\
  let w' := snd (Historical.main Demo.world) in
  let start := 1700000000000 - 3600000 in
  timestamp_at Historical.out_path w' (2 * 0) = Some (start + 1000 * Z.of_nat 0) /\
  timestamp_at Historical.out_path w' (2 * 0 + 1) = Some (start + 1000 * Z.of_nat 0) /\
  ((1 < 100)%nat ->
   timestamp_at Historical.out_path w' (2 * 1) = Some (start + 1000 * Z.of_nat 0 + 1000) /\
   timestamp_at Historical.out_path w' (2 * 1 + 1) = Some (start + 1000 * Z.of_nat 0 + 1000)) /\
  (1700000000000 = 1700000000000 ->
   timestamp_at Historical.out_path w' 0 = Some 1699996400000).
Proof.
  assert (Hi : (0 < 100)%nat) by lia.
  exact (conj demo_sample (conj demo_historical_completes (conj Hi
    (C2_historical_timestamps Demo.world 1700000000000 0
       demo_sample demo_historical_completes Hi)))).
Defined.

Lemma demo_realistic_completes :
  fst (Realistic.main Demo.flat_sin Demo.flat_cos Demo.world) = Ok tt.
Proof. vm_compute. reflexivity. Qed.

Lemma realistic_pair (math_sin math_cos : float -> float) (w : World) (i : nat) :
  fst (Realistic.main math_sin math_cos w) = Ok tt -> (i < 1000)%nat ->
  let w' := snd (Realistic.main math_sin math_cos w) in
  record_at Realistic.out_path w' (2 * i) =
    Some (RealisticRun.quad1 math_sin (Z.of_nat i)
            (RealisticRun.noise_of (prng w (rng_draws w + 2 * i)%nat))) /\
  record_at Realistic.out_path w' (2 * i + 1) =
    Some (RealisticRun.quad2 math_cos (Z.of_nat i)
            (RealisticRun.noise_of (prng w (rng_draws w + S (2 * i))%nat))).
Proof.
  intros Hc Hi w'. subst w'. split.
  - rewrite <- (RealisticRunFacts.real_record_even math_sin math_cos).
    apply RealisticRunFacts.real_completed_record; [done|]. unfold Realistic.num_points. lia.
  - replace (2 * i + 1)%nat with (S (2 * i)) by lia.
    rewrite <- (RealisticRunFacts.real_record_odd math_sin math_cos).
    apply RealisticRunFacts.real_completed_record; [done|]. unfold Realistic.num_points. lia.
Qed.

(** C3. For every index [i] in [0,1000) the value of sensor1 before
    formatting is [23.0 + 2.0 * sin(i * 2 * pi / 100) + n1] and that of sensor2
    [23.0 + 2.0 * cos(i * 2 * pi / 100) + n2], in binary64; the literals of
    lines [2 i] and [2 i + 1] are their two-decimal texts.  [n1] and [n2] are
    [random.uniform(-0.5, 0.5)] on two draws of their own, the draws number
    [2 i] and [2 i + 1] of the run.  When the draws are in [0, 1), as
    [random.random()] promises, and the sine and cosine of the angle are in
    [-1, 1]: both noises are in [-0.5, 0.5]; both values are in [20.5, 25.5],
    hence finite, and both literals have exactly two digits after the point;
    at [i = 0], with [sin 0.0 = 0.0] and [cos 0.0 = 1.0], the sensor1 value is
    in [22.5, 23.5] and the sensor2 value in [24.5, 25.5]. *)
Theorem C3_realistic_values (math_sin math_cos : float -> float) (w : World) (i : nat) :
  fst (Realistic.main math_sin math_cos w) = Ok tt -> (i < 1000)%nat ->
  let w' := snd (Realistic.main math_sin math_cos w) in
  let angle := (float_of_int (Z.of_nat i * 2) * math_pi / float_of_int 100)%float in
  let r1 := prng w (rng_draws w + 2 * i)%nat in
  let r2 := prng w (rng_draws w + (2 * i + 1))%nat in
  let n1 := (-0.5 + (0.5 - -0.5) * r1)%float in
  let n2 := (-0.5 + (0.5 - -0.5) * r2)%float in
  let v1 := (23.0 + 2.0 * math_sin angle + n1)%float in
  let v2 := (23.0 + 2.0 * math_cos angle + n2)%float in
  (0 <=? r1)%float = true -> (r1 <? 1)%float = true ->
  (0 <=? r2)%float = true -> (r2 <? 1)%float = true ->
  (-1 <=? math_sin angle)%float = true -> (math_sin angle <=? 1)%float = true ->
  (-1 <=? math_cos angle)%float = true -> (math_cos angle <=? 1)%float = true ->
  (literal_at Realistic.out_path w' (2 * i) = Some (format_2f v1) /\
   literal_at Realistic.out_path w' (2 * i + 1) = Some (format_2f v2)) /\
  ((-0.5 <=? n1)%float = true /\ (n1 <=? 0.5)%float = true /\
   (-0.5 <=? n2)%float = true /\ (n2 <=? 0.5)%float = true) /\
  ((20.5 <=? v1)%float = true /\ (v1 <=? 25.5)%float = true /\
   (20.5 <=? v2)%float = true /\ (v2 <=? 25.5)%float = true) /\
  (exists fr1 fr2 : string,
     fraction_of (format_2f v1) = Some fr1 /\ String.length fr1 = 2%nat /\
     all_chars Shapes.is_digit fr1 = true /\
     fraction_of (format_2f v2) = Some fr2 /\ String.length fr2 = 2%nat /\
     all_chars Shapes.is_digit fr2 = true) /\
  (i = 0%nat -> math_sin 0%float = 0%float -> math_cos 0%float = 1%float ->
   (22.5 <=? v1)%float = true /\ (v1 <=? 23.5)%float = true /\
   (24.5 <=? v2)%float = true /\ (v2 <=? 25.5)%float = true).
Proof.
  intros Hc Hi w' angle r1 r2 n1 n2 v1 v2 Hr1 Hr1' Hr2 Hr2' Hs Hs' Hk Hk'.
  assert (Wn1 : within (-0.5) 0.5 n1).
  { apply noise_within. split; [done|by apply ltb_leb]. }
  assert (Wn2 : within (-0.5) 0.5 n2).
  { apply noise_within. split; [done|by apply ltb_leb]. }
  assert (Wv1 : within 20.5 25.5 v1) by (by apply wave_within).
  assert (Wv2 : within 20.5 25.5 v2) by (by apply wave_within).
  split; [|split; [|split; [|split]]].
  - destruct (ValueModel.realistic_literals math_sin math_cos w i Hc Hi) as [H1 H2].
    split; [exact H1|]. subst v2 n2 r2.
    replace (2 * i + 1)%nat with (S (2 * i)) at 2 by lia. exact H2.
  - destruct Wn1, Wn2. done.
  - destruct Wv1, Wv2. done.
  - destruct (proj1 (format_2f_cases v1)) as (fr1 & F1 & F2 & F3).
    { by apply (within_finite 20.5 25.5). }
    destruct (proj1 (format_2f_cases v2)) as (fr2 & G1 & G2 & G3).
    { by apply (within_finite 20.5 25.5). }
    by exists fr1, fr2.
  - intros -> Hsin Hcos. subst v1 v2 angle.
    change (float_of_int (Z.of_nat 0 * 2) * math_pi / float_of_int 100)%float
      with 0%float.
    rewrite Hsin, Hcos.
    assert (W1 : within 22.5 23.5 (23.0 + 2.0 * 0 + n1)%float).
    { apply (offset_within (23.0 + 2.0 * 0) 22.5 23.5 n1);
        try reflexivity; try const_le. exact Wn1. }
    assert (W2 : within 24.5 25.5 (23.0 + 2.0 * 1 + n2)%float).
    { apply (offset_within (23.0 + 2.0 * 1) 24.5 25.5 n2);
        try reflexivity; try const_le. exact Wn2. }
    destruct W1, W2. done.
Qed.

Lemma demo_draw (k : nat) :
  (0 <=? prng Demo.world k)%float = true /\ (prng Demo.world k <? 1)%float = true.
Proof. split; reflexivity. Qed.

Lemma demo_wave (x : float) :
  ((-1 <=? Demo.flat_sin x)%float = true /\ (Demo.flat_sin x <=? 1)%float = true) /\
  ((-1 <=? Demo.flat_cos x)%float = true /\ (Demo.flat_cos x <=? 1)%float = true).
Proof. repeat split. Qed.

Lemma C3_realistic_values_witness :
  fst (Realistic.main Demo.flat_sin Demo.flat_cos Demo.world) = Ok tt /\
  (0 < 1000)%nat /\
  let w := Demo.world in
  let w' := snd (Realistic.main Demo.flat_sin Demo.flat_cos w) in
  let angle := (float_of_int (Z.of_nat 0 * 2) * math_pi / float_of_int 100)%float in
  let r1 := prng w (rng_draws w + 2 * 0)%nat in
  let r2 := prng w (rng_draws w + (2 * 0 + 1))%nat in
  let n1 := (-0.5 + (0.5 - -0.5) * r1)%float in
  let n2 := (-0.5 + (0.5 - -0.5) * r2)%float in
  let v1 := (23.0 + 2.0 * Demo.flat_sin angle + n1)%float in
  let v2 := (23.0 + 2.0 * Demo.flat_cos angle + n2)%float in
  ((0 <=? r1)%float = true /\ (r1 <? 1)%float = true) /\
  ((0 <=? r2)%float = true /\ (r2 <? 1)%float = true) /\
  ((-1 <=? Demo.flat_sin angle)%float = true /\ (Demo.flat_sin angle <=? 1)%float = true) /\
  ((-1 <=? Demo.flat_cos angle)%float = true /\ (Demo.flat_cos angle <=? 1)%float = true) /\
  (literal_at Realistic.out_path w' (2 * 0) = Some (format_2f v1) /\
   literal_at Realistic.out_path w' (2 * 0 + 1) = Some (format_2f v2)) /\
  ((-0.5 <=? n1)%float = true /\ (n1 <=? 0.5)%float = true /\
   (-0.5 <=? n2)%float = true /\ (n2 <=? 0.5)%float = true) /\
  ((20.5 <=? v1)%float = true /\ (v1 <=? 25.5)%float = true /\
   (20.5 <=? v2)%float = true /\ (v2 <=? 25.5)%float = true) /\
  (exists fr1 fr2 : string,
     fraction_of (format_2f v1) = Some fr1 /\ String.length fr1 = 2%nat /\
     all_chars Shapes.is_digit fr1 = true /\
     fraction_of (format_2f v2) = Some fr2 /\ String.length fr2 = 2%nat /\
     all_chars Shapes.is_digit fr2 = true) /\
  ((22.5 <=? v1)%float = true /\ (v1 <=? 23.5)%float = true /\
   (24.5 <=? v2)%float = true /\ (v2 <=? 25.5)%float = true).
Proof.
  assert (Hi : (0 < 1000)%nat) by lia.
  pose proof (demo_draw (rng_draws Demo.world + 2 * 0)) as D1.
  pose proof (demo_draw (rng_draws Demo.world + (2 * 0 + 1))) as D2.
  pose proof (demo_wave (float_of_int (Z.of_nat 0 * 2) * math_pi / float_of_int 100)%float)
    as [S1 K1].
  destruct (C3_realistic_values Demo.flat_sin Demo.flat_cos Demo.world 0
              demo_realistic_completes Hi (proj1 D1) (proj2 D1) (proj1 D2) (proj2 D2)
              (proj1 S1) (proj2 S1) (proj1 K1) (proj2 K1))
    as (A & B & C & D & E).
  exact (conj demo_realistic_completes (conj Hi (conj D1 (conj D2 (conj S1 (conj K1
    (conj A (conj B (conj C (conj D (E eq_refl eq_refl eq_refl))))))))))).
Defined.

(** C4. For every index [i] in [0,1000), the realistic generator emits the
    timestamp [1000 i] on the sensor1 and on the sensor2 line of that index,
    whatever the world the run starts in, its wall clock included. *)
Theorem C4_realistic_timestamps (math_sin math_cos : float -> float)
    (w : World) (i : nat) :
  fst (Realistic.main math_sin math_cos w) = Ok tt -> (i < 1000)%nat ->
  let w' := snd (Realistic.main math_sin math_cos w) in
  timestamp_at Realistic.out_path w' (2 * i) = Some (1000 * Z.of_nat i) /\
  timestamp_at Realistic.out_path w' (2 * i + 1) = Some (1000 * Z.of_nat i).
Proof.
  intros Hc Hi w'.
  destruct (realistic_pair math_sin math_cos w i Hc Hi) as [H1 H2]. fold w' in H1, H2.
  by rewrite (record_at_timestamp _ _ _ _ H1), (record_at_timestamp _ _ _ _ H2).
Qed.

Lemma C4_realistic_timestamps_witness :
  fst (Realistic.main Demo.flat_sin Demo.flat_cos Demo.world) = Ok tt /\
  (999 < 1000)%nat /\
  let w' := snd (Realistic.main Demo.flat_sin Demo.flat_cos Demo.world) in
  timestamp_at Realistic.out_path w' (2 * 999) = Some (1000 * Z.of_nat 999) /\
  timestamp_at Realistic.out_path w' (2 * 999 + 1) = Some (1000 * Z.of_nat 999).
Proof.
  assert (Hi : (999 < 1000)%nat) by lia.
  exact (conj demo_realistic_completes (conj Hi
    (C4_realistic_timestamps Demo.flat_sin Demo.flat_cos Demo.world 999
       demo_realistic_completes Hi))).
Defined.

Lemma faulty_sample (k : nat) : sample (Demo.faulty k) = Some 1700000000000.
Proof. vm_compute. reflexivity. Qed.

(** C5. Every line either generator hands to [write] has exactly five
    fields in the fixed order (timestamp, subject URI, predicate URI, quoted
    literal tagged with the XML Schema decimal datatype, graph URI) followed
    by a period and a line feed, with the fixed URIs sensor1/sensor2,
    temperature and sensorStream: so reads each of the two format strings of
    either script, at every timestamp and value.  The file of a completed
    run consists of 200 (historical) or 2000 (realistic) such lines and
    nothing else; in the file of a run that failed after the [open], every
    line but the last, which the failure may have cut, is such a line. *)
Theorem C5_line_format :
  (forall ts i : Z,
     record_of sensor1 ts (Historical.sensor1_line ts i) /\
     record_of sensor2 ts (Historical.sensor2_line ts i)) /\
  (forall (ts : Z) (v : float),
     record_of sensor1 ts (Realistic.sensor1_line ts v) /\
     record_of sensor2 ts (Realistic.sensor2_line ts v)) /\
  (forall (w : World) (now : Z),
     sample w = Some now ->
     let w' := snd (Historical.main w) in
     (fst (Historical.main w) = Ok tt ->
        length (lines_of Historical.out_path w') = 200%nat /\
        Forall sensor_record (lines_of Historical.out_path w') /\
        join (lines_of Historical.out_path w') = contents Historical.out_path w') /\
     (io_fails w (io_requests w) = false ->
      forall (k : nat) (l : string),
        lines_of Historical.out_path w' !! k = Some l ->
        (S k < length (lines_of Historical.out_path w'))%nat ->
        sensor_record l)) /\
  (forall (math_sin math_cos : float -> float) (w : World),
     let w' := snd (Realistic.main math_sin math_cos w) in
     (fst (Realistic.main math_sin math_cos w) = Ok tt ->
        length (lines_of Realistic.out_path w') = 2000%nat /\
        Forall sensor_record (lines_of Realistic.out_path w') /\
        join (lines_of Realistic.out_path w') = contents Realistic.out_path w') /\
     (io_fails w (io_requests w) = false ->
      forall (k : nat) (l : string),
        lines_of Realistic.out_path w' !! k = Some l ->
        (S k < length (lines_of Realistic.out_path w'))%nat ->
        sensor_record l)).
Proof.
  split; [|split; [|split]].
  - intros ts i. split.
    + rewrite HistoricalFacts.hist_sensor1_line_quad.
      by apply (record_of_serialize
                  (mkQuad ts sensor1 temperature (str (20 + i mod 5)) xsd_decimal sensorStream));
        [apply (HistoricalFacts.hist_quad1_wf (ts + 60 * 60 * 1000 - i * 1000) i)
        |left|..].
    + rewrite HistoricalFacts.hist_sensor2_line_quad.
      by apply (record_of_serialize
                  (mkQuad ts sensor2 temperature (str (22 + i mod 5)) xsd_decimal sensorStream));
        [apply (HistoricalFacts.hist_quad2_wf (ts + 60 * 60 * 1000 - i * 1000) i)
        |right|..].
  - intros ts v. split.
    + rewrite RealisticFacts.real_sensor1_line_quad.
      by apply (record_of_serialize
                  (mkQuad ts sensor1 temperature (format_2f v) xsd_decimal sensorStream));
        [unfold wf_quad; simpl; apply TextFacts.format_2f_lit|left|..].
    + rewrite RealisticFacts.real_sensor2_line_quad.
      by apply (record_of_serialize
                  (mkQuad ts sensor2 temperature (format_2f v) xsd_decimal sensorStream));
        [unfold wf_quad; simpl; apply TextFacts.format_2f_lit|right|..].
  - intros w now Hs w'. subst w'. split.
    + intros Hc.
      apply (whole_file_records _ _ (HistoricalRunFacts.hist_line_record now)
               (HistoricalRunFacts.hist_record_wf now)
               (HistoricalRunFacts.hist_record_fixed now) _ _ (2 * 100)
               (HistoricalRunFacts.hist_completed_contents _ _ Hs Hc)).
    + intros Ho k l.
      rewrite (HistoricalRunFacts.main_sample _ _ Hs), HistoricalFacts.generate_outcome.
      destruct (outcome_cut w Historical.out_path (HistoricalRun.line now) 0 100
                  (HistoricalRun.message now) Ho) as (a & N & Hcut).
      apply (cut_file_records _ _ (HistoricalRunFacts.hist_line_record now)
               (HistoricalRunFacts.hist_record_wf now)
               (HistoricalRunFacts.hist_record_fixed now) _ _ _ _ _ _ Hcut).
  - intros math_sin math_cos w w'. subst w'. split.
    + intros Hc.
      apply (whole_file_records _ _
               (RealisticRunFacts.real_line_record math_sin math_cos (prng w) (rng_draws w))
               (RealisticRunFacts.real_record_wf math_sin math_cos (prng w) (rng_draws w))
               (RealisticRunFacts.real_record_fixed math_sin math_cos (prng w) (rng_draws w))
               _ _ (2 * Realistic.num_points)
               (RealisticRunFacts.real_completed_contents math_sin math_cos _ Hc)).
    + intros Ho k l.
      rewrite RealisticFacts.main_outcome.
      destruct (outcome_cut w Realistic.out_path
                  (RealisticRun.line math_sin math_cos (prng w) (rng_draws w)) 1
                  Realistic.num_points RealisticRun.message Ho) as (a & N & Hcut).
      apply (cut_file_records _ _
               (RealisticRunFacts.real_line_record math_sin math_cos (prng w) (rng_draws w))
               (RealisticRunFacts.real_record_wf math_sin math_cos (prng w) (rng_draws w))
               (RealisticRunFacts.real_record_fixed math_sin math_cos (prng w) (rng_draws w))
               _ _ _ _ _ _ Hcut).
Qed.

Lemma faulty_opens (k : nat) :
  io_fails (Demo.faulty (S k)) (io_requests (Demo.faulty (S k))) = false.
Proof. reflexivity. Qed.

Lemma faulty_second_line :
  lines_of Historical.out_path (snd (Historical.main (Demo.faulty 5))) !! 1%nat =
  Some (Historical.sensor2_line 1699996400000 0).
Proof. vm_compute. reflexivity. Qed.

Lemma faulty_four_lines :
  (2 < length (lines_of Historical.out_path (snd (Historical.main (Demo.faulty 5)))))%nat.
Proof. vm_compute. lia. Qed.

Lemma C5_line_format_witness :
  (sample Demo.world = Some 1700000000000 /\
   fst (Historical.main Demo.world) = Ok tt /\
   let w' := snd (Historical.main Demo.world) in
   length (lines_of Historical.out_path w') = 200%nat /\
   Forall sensor_record (lines_of Historical.out_path w') /\
   join (lines_of Historical.out_path w') = contents Historical.out_path w') /\
  (sample (Demo.faulty 5) = Some 1700000000000 /\
   io_fails (Demo.faulty 5) (io_requests (Demo.faulty 5)) = false /\
   let w' := snd (Historical.main (Demo.faulty 5)) in
   lines_of Historical.out_path w' !! 1%nat =
     Some (Historical.sensor2_line 1699996400000 0) /\
   (2 < length (lines_of Historical.out_path w'))%nat /\
   sensor_record (Historical.sensor2_line 1699996400000 0)) /\
  (fst (Realistic.main Demo.flat_sin Demo.flat_cos Demo.world) = Ok tt /\
   let w' := snd (Realistic.main Demo.flat_sin Demo.flat_cos Demo.world) in
   length (lines_of Realistic.out_path w') = 2000%nat /\
   Forall sensor_record (lines_of Realistic.out_path w') /\
   join (lines_of Realistic.out_path w') = contents Realistic.out_path w').
Proof.
  destruct C5_line_format as (_ & _ & Hh & Hr).
  split; [|split].
  - exact (conj demo_sample (conj demo_historical_completes
      (proj1 (Hh Demo.world 1700000000000 demo_sample) demo_historical_completes))).
  - exact (conj (faulty_sample 5) (conj (faulty_opens 4)
      (conj faulty_second_line (conj faulty_four_lines
        (proj2 (Hh (Demo.faulty 5) 1700000000000 (faulty_sample 5)) (faulty_opens 4)
           1%nat _ faulty_second_line faulty_four_lines))))).
  - exact (conj demo_realistic_completes
      (proj1 (Hr Demo.flat_sin Demo.flat_cos Demo.world) demo_realistic_completes)).
Defined.

(** C6. A completed run of the historical generator writes exactly 200 lines
    to data/sensors_historical_graph.nq (one [open] and 200 [write]s), and a
    completed run of the realistic generator writes exactly 2000 lines to
    data/realistic_sensors.nq (one [open] and 2000 [write]s). *)
Theorem C6_line_counts :
  (forall (w : World) (now : Z),
     sample w = Some now -> fst (Historical.main w) = Ok tt ->
     let w' := snd (Historical.main w) in
     length (lines_of "data/sensors_historical_graph.nq" w') = 200%nat /\
     io_requests w' = (io_requests w + 201)%nat) /\
  (forall (math_sin math_cos : float -> float) (w : World),
     fst (Realistic.main math_sin math_cos w) = Ok tt ->
     let w' := snd (Realistic.main math_sin math_cos w) in
     length (lines_of "data/realistic_sensors.nq" w') = 2000%nat /\
     io_requests w' = (io_requests w + 2001)%nat).
Proof.
  split.
  - intros w now Hs Hc w'. split.
    + apply (length_lines_of _ _ (HistoricalRunFacts.hist_line_record now)
               (HistoricalRunFacts.hist_record_wf now) _ _ _
               (HistoricalRunFacts.hist_completed_contents _ _ Hs Hc)).
    + subst w'. by rewrite (HistoricalRunFacts.hist_completed _ _ Hs Hc).
  - intros math_sin math_cos w Hc w'. split.
    + apply (length_lines_of _ _
               (RealisticRunFacts.real_line_record math_sin math_cos (prng w) (rng_draws w))
               (RealisticRunFacts.real_record_wf math_sin math_cos (prng w) (rng_draws w)) _ _ _
               (RealisticRunFacts.real_completed_contents _ _ _ Hc)).
    + subst w'. by rewrite (RealisticRunFacts.real_completed _ _ _ Hc).
Qed.

Lemma C6_line_counts_witness :
  (sample Demo.world = Some 1700000000000 /\
   fst (Historical.main Demo.world) = Ok tt /\
   let w' := snd (Historical.main Demo.world) in
   length (lines_of "data/sensors_historical_graph.nq" w') = 200%nat /\
   io_requests w' = (io_requests Demo.world + 201)%nat) /\
  (fst (Realistic.main Demo.flat_sin Demo.flat_cos Demo.world) = Ok tt /\
   let w' := snd (Realistic.main Demo.flat_sin Demo.flat_cos Demo.world) in
   length (lines_of "data/realistic_sensors.nq" w') = 2000%nat /\
   io_requests w' = (io_requests Demo.world + 2001)%nat).
Proof.
  split.
  - exact (conj demo_sample (conj demo_historical_completes
      (proj1 C6_line_counts Demo.world 1700000000000 demo_sample demo_historical_completes))).
  - exact (conj demo_realistic_completes
      (proj2 C6_line_counts Demo.flat_sin Demo.flat_cos Demo.world demo_realistic_completes)).
Defined.

(** C10. In both files the lines alternate by sensor: for every index [i],
    line [2 i] is the sensor1 record and line [2 i + 1] the sensor2 record of
    that same index (they carry the timestamp of index [i]). *)
Theorem C10_alternation :
  (forall (w : World) (now : Z) (i : nat),
     sample w = Some now -> fst (Historical.main w) = Ok tt -> (i < 100)%nat ->
     let w' := snd (Historical.main w) in
     let ts := now - 3600000 + 1000 * Z.of_nat i in
     subject_at Historical.out_path w' (2 * i) = Some sensor1 /\
     timestamp_at Historical.out_path w' (2 * i) = Some ts /\
     subject_at Historical.out_path w' (2 * i + 1) = Some sensor2 /\
     timestamp_at Historical.out_path w' (2 * i + 1) = Some ts) /\
  (forall (math_sin math_cos : float -> float) (w : World) (i : nat),
     fst (Realistic.main math_sin math_cos w) = Ok tt -> (i < 1000)%nat ->
     let w' := snd (Realistic.main math_sin math_cos w) in
     let ts := 1000 * Z.of_nat i in
     subject_at Realistic.out_path w' (2 * i) = Some sensor1 /\
     timestamp_at Realistic.out_path w' (2 * i) = Some ts /\
     subject_at Realistic.out_path w' (2 * i + 1) = Some sensor2 /\
     timestamp_at Realistic.out_path w' (2 * i + 1) = Some ts).
Proof.
  split.
  - intros w now i Hs Hc Hi w' ts.
    destruct (historical_pair w now i Hs Hc Hi) as [H1 H2]. fold w' in H1, H2.
    rewrite (record_at_subject _ _ _ _ H1), (record_at_subject _ _ _ _ H2),
      (record_at_timestamp _ _ _ _ H1), (record_at_timestamp _ _ _ _ H2).
    simpl. subst ts. repeat split; f_equal; lia.
  - intros math_sin math_cos w i Hc Hi w' ts.
    destruct (realistic_pair math_sin math_cos w i Hc Hi) as [H1 H2]. fold w' in H1, H2.
    by rewrite (record_at_subject _ _ _ _ H1), (record_at_subject _ _ _ _ H2),
      (record_at_timestamp _ _ _ _ H1), (record_at_timestamp _ _ _ _ H2).
Qed.

Lemma C10_alternation_witness :
  (sample Demo.world = Some 1700000000000 /\
   fst (Historical.main Demo.world) = Ok tt /\ (42 < 100)%nat /\
   let w' := snd (Historical.main Demo.world) in
   let ts := 1700000000000 - 3600000 + 1000 * Z.of_nat 42 in
   subject_at Historical.out_path w' (2 * 42) = Some sensor1 /\
   timestamp_at Historical.out_path w' (2 * 42) = Some ts /\
   subject_at Historical.out_path w' (2 * 42 + 1) = Some sensor2 /\
   timestamp_at Historical.out_path w' (2 * 42 + 1) = Some ts) /\
  (fst (Realistic.main Demo.flat_sin Demo.flat_cos Demo.world) = Ok tt /\
   (42 < 1000)%nat /\
   let w' := snd (Realistic.main Demo.flat_sin Demo.flat_cos Demo.world) in
   let ts := 1000 * Z.of_nat 42 in
   subject_at Realistic.out_path w' (2 * 42) = Some sensor1 /\
   timestamp_at Realistic.out_path w' (2 * 42) = Some ts /\
   subject_at Realistic.out_path w' (2 * 42 + 1) = Some sensor2 /\
   timestamp_at Realistic.out_path w' (2 * 42 + 1) = Some ts).
Proof.
  assert (H1 : (42 < 100)%nat) by lia.
  assert (H2 : (42 < 1000)%nat) by lia.
  split.
  - exact (conj demo_sample (conj demo_historical_completes (conj H1
      (proj1 C10_alternation Demo.world 1700000000000 42%nat
         demo_sample demo_historical_completes H1)))).
  - exact (conj demo_realistic_completes (conj H2
      (proj2 C10_alternation Demo.flat_sin Demo.flat_cos Demo.world 42%nat
         demo_realistic_completes H2))).
Defined.

Lemma stale_sample : sample Demo.stale = Some 1700000000000.
Proof. vm_compute. reflexivity. Qed.

Lemma stale_historical_completes : fst (Historical.main Demo.stale) = Ok tt.
Proof. vm_compute. reflexivity. Qed.

Lemma stale_historical_reruns :
  fst (Historical.main (snd (Historical.main Demo.stale))) = Ok tt.
Proof. vm_compute. reflexivity. Qed.

(** C9. The historical generator uses no randomness: the contents of its
    file are a function of the wall-clock sample [now] alone, so two completed
    runs that sample the same [now] leave the same contents, whatever else
    differs between their worlds; no draw of the generator is consumed. *)
Theorem C9_historical_deterministic (w1 w2 : World) (now : Z) :
  sample w1 = Some now -> sample w2 = Some now ->
  fst (Historical.main w1) = Ok tt -> fst (Historical.main w2) = Ok tt ->
  contents Historical.out_path (snd (Historical.main w1)) =
    contents Historical.out_path (snd (Historical.main w2)) /\
  contents Historical.out_path (snd (Historical.main w1)) =
    join (serialize_quad <$> HistoricalRecords.records now) /\
  rng_draws (snd (Historical.main w1)) = rng_draws w1.
Proof.
  intros Hs1 Hs2 Hc1 Hc2.
  rewrite (HistoricalRunFacts.hist_completed_join _ _ Hs1 Hc1),
    (HistoricalRunFacts.hist_completed_join _ _ Hs2 Hc2).
  split; [done|]. split; [done|].
  rewrite (HistoricalRunFacts.hist_completed _ _ Hs1 Hc1). simpl. lia.
Qed.

Lemma C9_historical_deterministic_witness :
  sample Demo.world = Some 1700000000000 /\
  sample Demo.stale = Some 1700000000000 /\
  fst (Historical.main Demo.world) = Ok tt /\
  fst (Historical.main Demo.stale) = Ok tt /\
  contents Historical.out_path (snd (Historical.main Demo.world)) =
    contents Historical.out_path (snd (Historical.main Demo.stale)) /\
  contents Historical.out_path (snd (Historical.main Demo.world)) =
    join (serialize_quad <$> HistoricalRecords.records 1700000000000) /\
  rng_draws (snd (Historical.main Demo.world)) = rng_draws Demo.world.
Proof.
  exact (conj demo_sample (conj stale_sample (conj demo_historical_completes
    (conj stale_historical_completes
      (C9_historical_deterministic Demo.world Demo.stale 1700000000000
         demo_sample stale_sample demo_historical_completes
         stale_historical_completes))))).
Defined.

Lemma stale_realistic_completes :
  fst (Realistic.main Demo.flat_sin Demo.flat_cos Demo.stale) = Ok tt.
Proof. vm_compute. reflexivity. Qed.

Lemma stale_realistic_reruns :
  fst (Realistic.main Demo.flat_sin Demo.flat_cos
         (snd (Realistic.main Demo.flat_sin Demo.flat_cos Demo.stale))) = Ok tt.
Proof. vm_compute. reflexivity. Qed.

Lemma stale_realistic_draws (k : nat) :
  let w' := snd (Realistic.main Demo.flat_sin Demo.flat_cos Demo.stale) in
  prng w' (rng_draws w' + k)%nat = prng Demo.stale (rng_draws Demo.stale + k)%nat.
Proof.
  intros w'. subst w'.
  rewrite (RealisticRunFacts.real_completed _ _ _ stale_realistic_completes).
  reflexivity.
Qed.

(** C7. Each generator opens its file in truncate/write mode: whatever the
    file held before, after a completed run it holds exactly the lines of that
    run; a second completed run with the same inputs (the same wall-clock
    sample, the same draws) leaves the same contents as the first. *)
Theorem C7_truncating_rerun :
  (forall (w : World) (now : Z),
     sample w = Some now -> fst (Historical.main w) = Ok tt ->
     let w' := snd (Historical.main w) in
     contents Historical.out_path w' =
       join (serialize_quad <$> HistoricalRecords.records now) /\
     (fst (Historical.main w') = Ok tt ->
      contents Historical.out_path (snd (Historical.main w')) =
        contents Historical.out_path w')) /\
  (forall (math_sin math_cos : float -> float) (w : World),
     fst (Realistic.main math_sin math_cos w) = Ok tt ->
     let w' := snd (Realistic.main math_sin math_cos w) in
     contents Realistic.out_path w' =
       join (serialize_quad <$>
             RealisticRecords.records math_sin math_cos (prng w) (rng_draws w)) /\
     (fst (Realistic.main math_sin math_cos w') = Ok tt ->
      (forall k, (k < 2000)%nat ->
         prng w' (rng_draws w' + k)%nat = prng w (rng_draws w + k)%nat) ->
      contents Realistic.out_path (snd (Realistic.main math_sin math_cos w')) =
        contents Realistic.out_path w')).
Proof.
  split.
  - intros w now Hs Hc w'. subst w'.
    split; [by apply HistoricalRunFacts.hist_completed_join|].
    intros Hc'.
    rewrite (HistoricalRunFacts.hist_completed_join _ now); [|by apply HistoricalRunFacts.completed_sample|done].
    by rewrite (HistoricalRunFacts.hist_completed_join _ _ Hs Hc).
  - intros math_sin math_cos w Hc w'. subst w'.
    split; [by apply RealisticRunFacts.real_completed_join|].
    intros Hc' Hd.
    rewrite (RealisticRunFacts.real_completed_join _ _ _ Hc'),
      (RealisticRunFacts.real_completed_join _ _ _ Hc).
    rewrite (RealisticRunFacts.records_same_draws math_sin math_cos _ (prng w)
               _ (rng_draws w)); [reflexivity|].
    intros k Hk. apply Hd. unfold Realistic.num_points in Hk. lia.
Qed.

Lemma C7_truncating_rerun_witness :
  (sample Demo.stale = Some 1700000000000 /\
   fst (Historical.main Demo.stale) = Ok tt /\
   let w' := snd (Historical.main Demo.stale) in
   fst (Historical.main w') = Ok tt /\
   contents Historical.out_path w' =
     join (serialize_quad <$> HistoricalRecords.records 1700000000000) /\
   contents Historical.out_path (snd (Historical.main w')) =
     contents Historical.out_path w') /\
  (fst (Realistic.main Demo.flat_sin Demo.flat_cos Demo.stale) = Ok tt /\
   let w' := snd (Realistic.main Demo.flat_sin Demo.flat_cos Demo.stale) in
   fst (Realistic.main Demo.flat_sin Demo.flat_cos w') = Ok tt /\
   contents Realistic.out_path w' =
     join (serialize_quad <$>
           RealisticRecords.records Demo.flat_sin Demo.flat_cos
             (prng Demo.stale) (rng_draws Demo.stale)) /\
   contents Realistic.out_path (snd (Realistic.main Demo.flat_sin Demo.flat_cos w')) =
     contents Realistic.out_path w').
Proof.
  split.
  - destruct (proj1 C7_truncating_rerun Demo.stale 1700000000000
                stale_sample stale_historical_completes) as [H1 H2].
    exact (conj stale_sample (conj stale_historical_completes
      (conj stale_historical_reruns (conj H1 (H2 stale_historical_reruns))))).
  - destruct (proj2 C7_truncating_rerun Demo.flat_sin Demo.flat_cos Demo.stale
                stale_realistic_completes) as [H1 H2].
    exact (conj stale_realistic_completes (conj stale_realistic_reruns
      (conj H1 (H2 stale_realistic_reruns (fun k _ => stale_realistic_draws k))))).
Defined.

Lemma faulty_first_fault : first_fault (Demo.faulty 5) 5.
Proof.
  split; [simpl; lia|]. split; [reflexivity|].
  intros j [_ Hj]. simpl.
  do 5 (destruct j as [|j]; [reflexivity|]). lia.
Qed.

Lemma failing_close_sample : sample Demo.failing_close = Some 1700000000000.
Proof. vm_compute. reflexivity. Qed.

Lemma failing_close_accepts (n : nat) (j : nat) :
  (io_requests Demo.failing_close <= j < io_requests Demo.failing_close + n)%nat ->
  io_fails Demo.failing_close j = false.
Proof. reflexivity. Qed.

(** C8. A failure to open or to write the file is fatal and unrecovered.
    When the first request the device refuses is [q], the run ends with an
    exception: that of the request, or, when the close on leaving the block
    fails as well, that of the close.  No request follows [q] (no retry) and
    the confirmation is not printed.  If [q] was the [open], no file, handle
    or buffer changed.  If it was a [write], the handle of the block and its
    buffer are released, and nothing is cleaned up: the file keeps a prefix
    of the text of the lines handed to [write] so far, at least the bytes
    the device had taken, possibly ending in a cut line.  When every request
    is accepted and only the close fails, the run ends with the exception of
    the close, prints nothing, and leaves the handle released and such a
    prefix in the file.  A completed run has released its handle too. *)
Theorem C8_failures_propagate :
  (forall (w : World) (now : Z) (q : nat),
     sample w = Some now -> first_fault w q -> (q <= io_requests w + 200)%nat ->
     let r := fst (Historical.main w) in
     let w' := snd (Historical.main w) in
     (q = io_requests w \/ close_fails w (next_fd w) = false -> r = Raise (OSError q)) /\
     ((io_requests w < q)%nat -> close_fails w (next_fd w) = true ->
        r = Raise (OSErrorAtClose (next_fd w))) /\
     io_requests w' = S q /\
     stdout w' = stdout w /\
     (q = io_requests w ->
        files w' = files w /\ open_fds w' = open_fds w /\ buffers w' = buffers w) /\
     ((io_requests w < q)%nat ->
        open_fds w' = delete (next_fd w) (open_fds w) /\
        open_fds w' !! next_fd w = None /\
        buffers w' !! next_fd w = None /\
        exists N,
          (flushed (io_drains w) (S (io_requests w)) (HistoricalRun.line now)
                   (q - io_requests w) <= N)%nat /\
          contents Historical.out_path w' =
            string_take N
              (join (take (q - io_requests w)
                          (serialize_quad <$> HistoricalRecords.records now))))) /\
  (forall (w : World) (now : Z),
     sample w = Some now ->
     (forall j, (io_requests w <= j < io_requests w + 201)%nat -> io_fails w j = false) ->
     close_fails w (next_fd w) = true ->
     let w' := snd (Historical.main w) in
     fst (Historical.main w) = Raise (OSErrorAtClose (next_fd w)) /\
     io_requests w' = (io_requests w + 201)%nat /\
     stdout w' = stdout w /\
     open_fds w' = delete (next_fd w) (open_fds w) /\
     open_fds w' !! next_fd w = None /\
     buffers w' !! next_fd w = None /\
     exists N,
       (flushed (io_drains w) (S (io_requests w)) (HistoricalRun.line now) 200 <= N)%nat /\
       contents Historical.out_path w' =
         string_take N (join (serialize_quad <$> HistoricalRecords.records now))) /\
  (forall (w : World) (now : Z),
     sample w = Some now -> fst (Historical.main w) = Ok tt ->
     let w' := snd (Historical.main w) in
     open_fds w' = delete (next_fd w) (open_fds w) /\
     open_fds w' !! next_fd w = None) /\
  (forall (math_sin math_cos : float -> float) (w : World) (q : nat),
     first_fault w q -> (q <= io_requests w + 2000)%nat ->
     let r := fst (Realistic.main math_sin math_cos w) in
     let w' := snd (Realistic.main math_sin math_cos w) in
     (q = io_requests w \/ close_fails w (next_fd w) = false -> r = Raise (OSError q)) /\
     ((io_requests w < q)%nat -> close_fails w (next_fd w) = true ->
        r = Raise (OSErrorAtClose (next_fd w))) /\
     io_requests w' = S q /\
     stdout w' = stdout w /\
     (q = io_requests w ->
        files w' = files w /\ open_fds w' = open_fds w /\ buffers w' = buffers w) /\
     ((io_requests w < q)%nat ->
        open_fds w' = delete (next_fd w) (open_fds w) /\
        open_fds w' !! next_fd w = None /\
        buffers w' !! next_fd w = None /\
        exists N,
          (flushed (io_drains w) (S (io_requests w))
                   (RealisticRun.line math_sin math_cos (prng w) (rng_draws w))
                   (q - io_requests w) <= N)%nat /\
          contents Realistic.out_path w' =
            string_take N
              (join (take (q - io_requests w)
                          (serialize_quad <$>
                           RealisticRecords.records math_sin math_cos
                             (prng w) (rng_draws w)))))) /\
  (forall (math_sin math_cos : float -> float) (w : World),
     (forall j, (io_requests w <= j < io_requests w + 2001)%nat -> io_fails w j = false) ->
     close_fails w (next_fd w) = true ->
     let w' := snd (Realistic.main math_sin math_cos w) in
     fst (Realistic.main math_sin math_cos w) = Raise (OSErrorAtClose (next_fd w)) /\
     io_requests w' = (io_requests w + 2001)%nat /\
     stdout w' = stdout w /\
     open_fds w' = delete (next_fd w) (open_fds w) /\
     open_fds w' !! next_fd w = None /\
     buffers w' !! next_fd w = None /\
     exists N,
       (flushed (io_drains w) (S (io_requests w))
                (RealisticRun.line math_sin math_cos (prng w) (rng_draws w)) 2000 <= N)%nat /\
       contents Realistic.out_path w' =
         string_take N
           (join (serialize_quad <$>
                  RealisticRecords.records math_sin math_cos (prng w) (rng_draws w)))) /\
  (forall (math_sin math_cos : float -> float) (w : World),
     fst (Realistic.main math_sin math_cos w) = Ok tt ->
     let w' := snd (Realistic.main math_sin math_cos w) in
     open_fds w' = delete (next_fd w) (open_fds w) /\
     open_fds w' !! next_fd w = None).
Proof.
  split; [|split; [|split; [|split; [|split]]]].
  - intros w now q Hs Hff Hq r w'. subst r w'.
    rewrite (HistoricalRunFacts.main_sample _ _ Hs), HistoricalFacts.generate_outcome.
    destruct (outcome_fault_props w Historical.out_path (HistoricalRun.line now) 0 100
                (HistoricalRun.message now) q Hff Hq) as (H1 & H1' & H2 & H3 & H4 & H5).
    split; [done|]. split; [done|]. split; [done|]. split; [done|]. split; [done|].
    intros Hlt. destruct (H5 Hlt) as (H6 & H7 & H7' & N & HN & H8).
    split; [done|]. split; [done|]. split; [done|].
    exists N. split; [done|].
    rewrite H8, <- HistoricalRunFacts.hist_records_seq.
    rewrite <- (written_take_records _ _ (HistoricalRunFacts.hist_line_record now));
      [done|].
    destruct Hff. lia.
  - intros w now Hs Hok Hcl w'. subst w'.
    rewrite (HistoricalRunFacts.main_sample _ _ Hs), HistoricalFacts.generate_outcome.
    destruct (outcome_close_props w Historical.out_path (HistoricalRun.line now) 0 100
                (HistoricalRun.message now) Hok Hcl)
      as (H1 & H2 & H3 & H4 & H5 & H6 & N & HN & H7).
    split; [done|]. split; [done|]. split; [done|]. split; [done|].
    split; [done|]. split; [done|].
    exists N. split; [done|].
    rewrite H7, <- HistoricalRunFacts.hist_records_seq.
    by rewrite <- (written_join _ _ (HistoricalRunFacts.hist_line_record now)).
  - intros w now Hs Hc w'. subst w'. revert Hc.
    rewrite (HistoricalRunFacts.main_sample _ _ Hs), HistoricalFacts.generate_outcome.
    apply outcome_ok_handles.
  - intros math_sin math_cos w q Hff Hq r w'. subst r w'.
    rewrite RealisticFacts.main_outcome.
    destruct (outcome_fault_props w Realistic.out_path
                (RealisticRun.line math_sin math_cos (prng w) (rng_draws w)) 1
                Realistic.num_points RealisticRun.message q Hff)
      as (H1 & H1' & H2 & H3 & H4 & H5).
    { unfold Realistic.num_points. lia. }
    split; [done|]. split; [done|]. split; [done|]. split; [done|]. split; [done|].
    intros Hlt. destruct (H5 Hlt) as (H6 & H7 & H7' & N & HN & H8).
    split; [done|]. split; [done|]. split; [done|].
    exists N. split; [done|].
    rewrite H8, <- (RealisticRunFacts.real_records_seq math_sin math_cos).
    rewrite <- (written_take_records _ _
             (RealisticRunFacts.real_line_record math_sin math_cos (prng w) (rng_draws w)));
      [done|].
    destruct Hff. unfold Realistic.num_points. lia.
  - intros math_sin math_cos w Hok Hcl w'. subst w'.
    rewrite RealisticFacts.main_outcome.
    destruct (outcome_close_props w Realistic.out_path
                (RealisticRun.line math_sin math_cos (prng w) (rng_draws w)) 1
                Realistic.num_points RealisticRun.message Hok Hcl)
      as (H1 & H2 & H3 & H4 & H5 & H6 & N & HN & H7).
    split; [done|]. split; [done|]. split; [done|]. split; [done|].
    split; [done|]. split; [done|].
    exists N. split; [done|].
    rewrite H7, <- (RealisticRunFacts.real_records_seq math_sin math_cos).
    by rewrite <- (written_join _ _
             (RealisticRunFacts.real_line_record math_sin math_cos (prng w) (rng_draws w))).
  - intros math_sin math_cos w Hc w'. subst w'. revert Hc.
    rewrite RealisticFacts.main_outcome.
    apply outcome_ok_handles.
Qed.

Lemma C8_failures_propagate_witness :
  (sample (Demo.faulty 5) = Some 1700000000000 /\
   first_fault (Demo.faulty 5) 5 /\
   (5 <= io_requests (Demo.faulty 5) + 200)%nat /\
   let w := Demo.faulty 5 in
   let r := fst (Historical.main w) in
   let w' := snd (Historical.main w) in
   (5%nat = io_requests w \/ close_fails w (next_fd w) = false -> r = Raise (OSError 5)) /\
   ((io_requests w < 5)%nat -> close_fails w (next_fd w) = true ->
      r = Raise (OSErrorAtClose (next_fd w))) /\
   io_requests w' = 6%nat /\
   stdout w' = stdout w /\
   (5%nat = io_requests w ->
      files w' = files w /\ open_fds w' = open_fds w /\ buffers w' = buffers w) /\
   ((io_requests w < 5)%nat ->
      open_fds w' = delete (next_fd w) (open_fds w) /\
      open_fds w' !! next_fd w = None /\
      buffers w' !! next_fd w = None /\
      exists N,
        (flushed (io_drains w) (S (io_requests w)) (HistoricalRun.line 1700000000000)
                 (5 - io_requests w) <= N)%nat /\
        contents Historical.out_path w' =
          string_take N
            (join (take (5 - io_requests w)
                        (serialize_quad <$> HistoricalRecords.records 1700000000000))))) /\
  (sample Demo.failing_close = Some 1700000000000 /\
   (forall j, (io_requests Demo.failing_close <= j < io_requests Demo.failing_close + 201)%nat ->
              io_fails Demo.failing_close j = false) /\
   close_fails Demo.failing_close (next_fd Demo.failing_close) = true /\
   let w := Demo.failing_close in
   let w' := snd (Historical.main w) in
   fst (Historical.main w) = Raise (OSErrorAtClose (next_fd w)) /\
   io_requests w' = (io_requests w + 201)%nat /\
   stdout w' = stdout w /\
   open_fds w' = delete (next_fd w) (open_fds w) /\
   open_fds w' !! next_fd w = None /\
   buffers w' !! next_fd w = None /\
   exists N,
     (flushed (io_drains w) (S (io_requests w)) (HistoricalRun.line 1700000000000) 200
        <= N)%nat /\
     contents Historical.out_path w' =
       string_take N (join (serialize_quad <$> HistoricalRecords.records 1700000000000))) /\
  (sample Demo.world = Some 1700000000000 /\
   fst (Historical.main Demo.world) = Ok tt /\
   let w' := snd (Historical.main Demo.world) in
   open_fds w' = delete (next_fd Demo.world) (open_fds Demo.world) /\
   open_fds w' !! next_fd Demo.world = None) /\
  (first_fault (Demo.faulty 5) 5 /\
   (5 <= io_requests (Demo.faulty 5) + 2000)%nat /\
   let w := Demo.faulty 5 in
   let r := fst (Realistic.main Demo.flat_sin Demo.flat_cos w) in
   let w' := snd (Realistic.main Demo.flat_sin Demo.flat_cos w) in
   (5%nat = io_requests w \/ close_fails w (next_fd w) = false -> r = Raise (OSError 5)) /\
   ((io_requests w < 5)%nat -> close_fails w (next_fd w) = true ->
      r = Raise (OSErrorAtClose (next_fd w))) /\
   io_requests w' = 6%nat /\
   stdout w' = stdout w /\
   (5%nat = io_requests w ->
      files w' = files w /\ open_fds w' = open_fds w /\ buffers w' = buffers w) /\
   ((io_requests w < 5)%nat ->
      open_fds w' = delete (next_fd w) (open_fds w) /\
      open_fds w' !! next_fd w = None /\
      buffers w' !! next_fd w = None /\
      exists N,
        (flushed (io_drains w) (S (io_requests w))
                 (RealisticRun.line Demo.flat_sin Demo.flat_cos (prng w) (rng_draws w))
                 (5 - io_requests w) <= N)%nat /\
        contents Realistic.out_path w' =
          string_take N
            (join (take (5 - io_requests w)
                        (serialize_quad <$>
                         RealisticRecords.records Demo.flat_sin Demo.flat_cos
                           (prng w) (rng_draws w)))))) /\
  ((forall j, (io_requests Demo.failing_close <= j < io_requests Demo.failing_close + 2001)%nat ->
              io_fails Demo.failing_close j = false) /\
   close_fails Demo.failing_close (next_fd Demo.failing_close) = true /\
   let w := Demo.failing_close in
   let w' := snd (Realistic.main Demo.flat_sin Demo.flat_cos w) in
   fst (Realistic.main Demo.flat_sin Demo.flat_cos w) = Raise (OSErrorAtClose (next_fd w)) /\
   io_requests w' = (io_requests w + 2001)%nat /\
   stdout w' = stdout w /\
   open_fds w' = delete (next_fd w) (open_fds w) /\
   open_fds w' !! next_fd w = None /\
   buffers w' !! next_fd w = None /\
   exists N,
     (flushed (io_drains w) (S (io_requests w))
              (RealisticRun.line Demo.flat_sin Demo.flat_cos (prng w) (rng_draws w)) 2000
        <= N)%nat /\
     contents Realistic.out_path w' =
       string_take N
         (join (serialize_quad <$>
                RealisticRecords.records Demo.flat_sin Demo.flat_cos (prng w) (rng_draws w)))) /\
  (fst (Realistic.main Demo.flat_sin Demo.flat_cos Demo.world) = Ok tt /\
   let w' := snd (Realistic.main Demo.flat_sin Demo.flat_cos Demo.world) in
   open_fds w' = delete (next_fd Demo.world) (open_fds Demo.world) /\
   open_fds w' !! next_fd Demo.world = None).
Proof.
  destruct C8_failures_propagate as (Hf & Hcl & Ho & Rf & Rcl & Ro).
  assert (B1 : (5 <= io_requests (Demo.faulty 5) + 200)%nat) by (simpl; lia).
  assert (B2 : (5 <= io_requests (Demo.faulty 5) + 2000)%nat) by (simpl; lia).
  assert (C : close_fails Demo.failing_close (next_fd Demo.failing_close) = true)
    by reflexivity.
  split; [|split; [|split; [|split; [|split]]]].
  - exact (conj (faulty_sample 5) (conj faulty_first_fault (conj B1
      (Hf (Demo.faulty 5) 1700000000000 5%nat (faulty_sample 5) faulty_first_fault B1)))).
  - exact (conj failing_close_sample (conj (failing_close_accepts 201) (conj C
      (Hcl Demo.failing_close 1700000000000 failing_close_sample
           (failing_close_accepts 201) C)))).
  - exact (conj demo_sample (conj demo_historical_completes
      (Ho Demo.world 1700000000000 demo_sample demo_historical_completes))).
  - exact (conj faulty_first_fault (conj B2
      (Rf Demo.flat_sin Demo.flat_cos (Demo.faulty 5) 5%nat faulty_first_fault B2))).
  - exact (conj (failing_close_accepts 2001) (conj C
      (Rcl Demo.flat_sin Demo.flat_cos Demo.failing_close (failing_close_accepts 2001) C))).
  - exact (conj demo_realistic_completes
      (Ro Demo.flat_sin Demo.flat_cos Demo.world demo_realistic_completes)).
Defined.

End Claims.

(** * Further properties of the two scripts *)

Module MoreFacts.
Import Py Quads Runs Records StrFacts TextFacts ParseFacts RunFacts ScriptFacts ArithFacts.
Import OutcomeFacts FormatFacts Shapes.

Section Outcome.
Variables (w : World) (p : string) (line : nat -> string) (dpw n : nat) (msg : string).

#[local] Abbreviation run := (outcome w p line dpw n msg).

(** No file but [p] changes, however the run ends. *)
Lemma outcome_frame (p' : string) :
  p' <> p -> files (snd run) !! p' = files w !! p'.
Proof.
  intros Hp. unfold outcome.
  destruct (find_fault _ _ _) as [q|].
  - destruct (decide _); [done|].
    cbv zeta. cbn [snd final evolve files]. by rewrite lookup_insert_ne.
  - destruct (close_fails w (next_fd w)); cbn [snd final evolve files];
      by rewrite lookup_insert_ne.
Qed.


(** The draws a run has consumed when it ends. *)
Lemma outcome_draws_ok :
  fst run = Ok tt -> rng_draws (snd run) = (rng_draws w + dpw * (2 * n))%nat.
Proof. intros H. by rewrite (outcome_ok _ _ _ _ _ _ H). Qed.

Lemma outcome_draws_fault (q : nat) :
  first_fault w q -> (q <= io_requests w + 2 * n)%nat ->
  rng_draws (snd run) = (rng_draws w + dpw * (q - io_requests w))%nat.
Proof.
  intros Hff Hq. rewrite (outcome_fault _ _ _ _ _ _ q Hff Hq).
  destruct Hff as (Hr & _ & _).
  destruct (decide (q = io_requests w)) as [->|Hne].
  - cbn [snd tick evolve rng_draws]. rewrite Nat.sub_diag. lia.
  - cbv zeta. cbn [snd final evolve rng_draws]. done.
Qed.

End Outcome.

(** A number is twice its half, plus one when it is odd. *)
Lemma half_parity (j : nat) :
  j = (2 * (j / 2) + (if Nat.even j then 0 else 1))%nat.
Proof.
  destruct (Nat.Even_or_Odd j) as [[a ->]|[a ->]].
  - rewrite even_double, half_even. lia.
  - replace (2 * a + 1)%nat with (S (2 * a)) by lia.
    rewrite even_S_double, half_odd. lia.
Qed.

Lemma half_parity_inj (j k : nat) :
  (j / 2 = k / 2)%nat -> Nat.even j = Nat.even k -> j = k.
Proof.
  intros H2 He. rewrite (half_parity j), (half_parity k), H2, He. done.
Qed.

(** Distinct line numbers give distinct lines, when the records carry the
    half of the line number in the timestamp and its parity in the subject. *)
Lemma lines_nodup (line : nat -> string) (rec : nat -> Quad) (a b : Z) (m : nat) :
  (forall k, line k = serialize_quad (rec k)) ->
  (forall k, wf_quad (rec k) = true) ->
  (forall k, timestamp (rec k) = a + b * Z.of_nat (k / 2)) -> b <> 0 ->
  (forall k, subject (rec k) = if Nat.even k then sensor1 else sensor2) ->
  NoDup (line <$> seq 0 m).
Proof.
  intros Hline Hwf Hts Hb Hsub.
  apply NoDup_fmap_2_strong; [|apply NoDup_seq].
  intros j k _ _ Hjk.
  assert (Hrec : rec j = rec k).
  { rewrite !Hline in Hjk.
    apply (f_equal parse_quad) in Hjk.
    rewrite !parse_serialize in Hjk by done. by injection Hjk. }
  apply half_parity_inj.
  - apply (f_equal timestamp) in Hrec. rewrite !Hts in Hrec. nia.
  - apply (f_equal subject) in Hrec. rewrite !Hsub in Hrec.
    destruct (Nat.even j), (Nat.even k); done.
Qed.

End MoreFacts.

Module Extra.
Import Py Quads Runs Records StrFacts TextFacts ParseFacts RunFacts ScriptFacts ArithFacts.
Import OutcomeFacts FormatFacts Shapes ShapeFacts MoreFacts.
Import HistoricalRecords (sample).

Lemma hist_record_timestamp (now : Z) (k : nat) :
  timestamp (HistoricalRecords.record now k) = now - 3600000 + 1000 * Z.of_nat (k / 2).
Proof. unfold HistoricalRecords.record. destruct (Nat.even k); simpl; lia. Qed.

Lemma hist_record_subject (now : Z) (k : nat) :
  subject (HistoricalRecords.record now k) = if Nat.even k then sensor1 else sensor2.
Proof. unfold HistoricalRecords.record. by destruct (Nat.even k). Qed.

Lemma real_record_timestamp (math_sin math_cos : float -> float)
    (rnd : nat -> float) (d0 k : nat) :
  timestamp (RealisticRecords.record math_sin math_cos rnd d0 k) =
  0 + 1000 * Z.of_nat (k / 2).
Proof. unfold RealisticRecords.record. by destruct (Nat.even k). Qed.

Lemma real_record_subject (math_sin math_cos : float -> float)
    (rnd : nat -> float) (d0 k : nat) :
  subject (RealisticRecords.record math_sin math_cos rnd d0 k) =
  if Nat.even k then sensor1 else sensor2.
Proof. unfold RealisticRecords.record. by destruct (Nat.even k). Qed.

Lemma half_bounds (j k n : nat) :
  (j <= k)%nat -> (k < 2 * n)%nat -> (j / 2 <= k / 2)%nat /\ (k / 2 < n)%nat.
Proof.
  intros Hjk Hk. split.
  - apply Nat.Div0.div_le_mono. done.
  - apply Nat.Div0.div_lt_upper_bound. lia.
Qed.

(** X1. Each generator changes no file but its own, however the run ends:
    every other path holds after the run what it held before. *)
Theorem X1_only_own_file :
  (forall (w : World) (p' : string),
     p' <> "data/sensors_historical_graph.nq" ->
     files (snd (Historical.main w)) !! p' = files w !! p') /\
  (forall (math_sin math_cos : float -> float) (w : World) (p' : string),
     p' <> "data/realistic_sensors.nq" ->
     files (snd (Realistic.main math_sin math_cos w)) !! p' = files w !! p').
Proof.
  split.
  - intros w p' Hp. destruct (sample w) as [now|] eqn:Hs.
    + rewrite (HistoricalRunFacts.main_sample _ _ Hs), HistoricalFacts.generate_outcome.
      by apply outcome_frame.
    + by rewrite (HistoricalRunFacts.main_no_sample _ Hs).
  - intros math_sin math_cos w p' Hp. rewrite RealisticFacts.main_outcome.
    by apply outcome_frame.
Qed.

Lemma X1_only_own_file_witness :
  ("data/realistic_sensors.nq" <> "data/sensors_historical_graph.nq" /\
   files (snd (Historical.main Demo.stale)) !! "data/realistic_sensors.nq" =
     files Demo.stale !! "data/realistic_sensors.nq") /\
  ("data/sensors_historical_graph.nq" <> "data/realistic_sensors.nq" /\
   files (snd (Realistic.main Demo.flat_sin Demo.flat_cos (Demo.faulty 5)))
     !! "data/sensors_historical_graph.nq" =
     files (Demo.faulty 5) !! "data/sensors_historical_graph.nq").
Proof.
  assert (H1 : "data/realistic_sensors.nq" <> "data/sensors_historical_graph.nq")
    by discriminate.
  assert (H2 : "data/sensors_historical_graph.nq" <> "data/realistic_sensors.nq")
    by discriminate.
  split.
  - exact (conj H1 (proj1 X1_only_own_file Demo.stale _ H1)).
  - exact (conj H2 (proj2 X1_only_own_file Demo.flat_sin Demo.flat_cos (Demo.faulty 5) _ H2)).
Defined.



(** X3. A completed run prints exactly one line after the file is closed:
    the historical generator names the start timestamp, which is the
    timestamp of the first line of the file; the realistic generator names
    the point count 1000. *)
Theorem X3_confirmation :
  (forall (w : World) (now : Z),
     sample w = Some now -> fst (Historical.main w) = Ok tt ->
     let w' := snd (Historical.main w) in
     stdout w' =
       stdout w ++ ["Generated data/sensors_historical_graph.nq with start timestamp "
                    +:+ str (now - 3600000)] /\
     timestamp_at Historical.out_path w' 0 = Some (now - 3600000)) /\
  (forall (math_sin math_cos : float -> float) (w : World),
     fst (Realistic.main math_sin math_cos w) = Ok tt ->
     stdout (snd (Realistic.main math_sin math_cos w)) =
       stdout w ++ ["Generated data/realistic_sensors.nq with 1000 points"]).
Proof.
  split.
  - intros w now Hs Hc w'. subst w'. split.
    + by rewrite (HistoricalRunFacts.hist_completed _ _ Hs Hc).
    + unfold timestamp_at.
      rewrite (HistoricalRunFacts.hist_completed_record _ _ 0 Hs Hc) by lia.
      simpl. f_equal. lia.
  - intros math_sin math_cos w Hc.
    by rewrite (RealisticRunFacts.real_completed _ _ _ Hc).
Qed.

Lemma X3_confirmation_witness :
  (sample Demo.stale = Some 1700000000000 /\
   fst (Historical.main Demo.stale) = Ok tt /\
   let w' := snd (Historical.main Demo.stale) in
   stdout w' =
     stdout Demo.stale ++
       ["Generated data/sensors_historical_graph.nq with start timestamp "
        +:+ str (1700000000000 - 3600000)] /\
   timestamp_at Historical.out_path w' 0 = Some (1700000000000 - 3600000)) /\
  (fst (Realistic.main Demo.flat_sin Demo.flat_cos Demo.world) = Ok tt /\
   stdout (snd (Realistic.main Demo.flat_sin Demo.flat_cos Demo.world)) =
     stdout Demo.world ++ ["Generated data/realistic_sensors.nq with 1000 points"]).
Proof.
  split.
  - exact (conj Claims.stale_sample (conj Claims.stale_historical_completes
      (proj1 X3_confirmation Demo.stale 1700000000000
         Claims.stale_sample Claims.stale_historical_completes))).
  - exact (conj Claims.demo_realistic_completes
      (proj2 X3_confirmation Demo.flat_sin Demo.flat_cos Demo.world
         Claims.demo_realistic_completes)).
Defined.

(** X4. The historical values repeat with period five, and the sensor2
    value of an index is always the sensor1 value of that index plus two. *)
Theorem X4_historical_cycle (w : World) (now : Z) (i : nat) :
  sample w = Some now -> fst (Historical.main w) = Ok tt -> (i + 5 < 100)%nat ->
  let w' := snd (Historical.main w) in
  value_at Historical.out_path w' (2 * (i + 5)) = value_at Historical.out_path w' (2 * i) /\
  value_at Historical.out_path w' (2 * (i + 5) + 1) =
    value_at Historical.out_path w' (2 * i + 1) /\
  exists v, value_at Historical.out_path w' (2 * i) = Some v /\
            value_at Historical.out_path w' (2 * i + 1) = Some (v + 2).
Proof.
  intros Hs Hc Hi w'.
  assert (Hval : forall j, (j < 100)%nat ->
    value_at Historical.out_path w' (2 * j) = Some (20 + Z.of_nat j mod 5) /\
    value_at Historical.out_path w' (2 * j + 1) = Some (22 + Z.of_nat j mod 5)).
  { intros j Hj. destruct (Claims.historical_pair w now j Hs Hc Hj) as [H1 H2].
    split.
    - by apply (Claims.record_at_value _ _ _ _ _ H1).
    - by apply (Claims.record_at_value _ _ _ _ _ H2). }
  destruct (Hval i) as [A1 A2]; [lia|]. destruct (Hval (i + 5)%nat) as [B1 B2]; [lia|].
  assert (Hmod : Z.of_nat (i + 5) mod 5 = Z.of_nat i mod 5).
  { rewrite Nat2Z.inj_add. change (Z.of_nat 5) with (1 * 5).
    apply Z_mod_plus_full. }
  rewrite A1, A2, B1, B2, Hmod. split; [done|]. split; [done|].
  exists (20 + Z.of_nat i mod 5). split; [done|]. f_equal. lia.
Qed.

Lemma X4_historical_cycle_witness :
  sample Demo.world = Some 1700000000000 /\
  fst (Historical.main Demo.world) = Ok tt /\ (93 + 5 < 100)%nat /\
  let w' := snd (Historical.main Demo.world) in
  value_at Historical.out_path w' (2 * (93 + 5)) = value_at Historical.out_path w' (2 * 93) /\
  value_at Historical.out_path w' (2 * (93 + 5) + 1) =
    value_at Historical.out_path w' (2 * 93 + 1) /\
  exists v, value_at Historical.out_path w' (2 * 93) = Some v /\
            value_at Historical.out_path w' (2 * 93 + 1) = Some (v + 2).
Proof.
  assert (Hi : (93 + 5 < 100)%nat) by lia.
  exact (conj Claims.demo_sample (conj Claims.demo_historical_completes (conj Hi
    (X4_historical_cycle Demo.world 1700000000000 93
       Claims.demo_sample Claims.demo_historical_completes Hi)))).
Defined.

(** X5. Down either file the timestamps never decrease.  In the historical
    file they all lie between one hour before [now] and 99 seconds after
    that, so strictly before [now]; in the realistic file between 0 and
    999000. *)
Theorem X5_timestamps_ordered :
  (forall (w : World) (now : Z) (j k : nat),
     sample w = Some now -> fst (Historical.main w) = Ok tt ->
     (j <= k)%nat -> (k < 200)%nat ->
     let w' := snd (Historical.main w) in
     exists tj tk,
       timestamp_at Historical.out_path w' j = Some tj /\
       timestamp_at Historical.out_path w' k = Some tk /\
       now - 3600000 <= tj /\ tj <= tk /\ tk <= now - 3600000 + 99000 /\ tk < now) /\
  (forall (math_sin math_cos : float -> float) (w : World) (j k : nat),
     fst (Realistic.main math_sin math_cos w) = Ok tt ->
     (j <= k)%nat -> (k < 2000)%nat ->
     let w' := snd (Realistic.main math_sin math_cos w) in
     exists tj tk,
       timestamp_at Realistic.out_path w' j = Some tj /\
       timestamp_at Realistic.out_path w' k = Some tk /\
       0 <= tj /\ tj <= tk /\ tk <= 999000).
Proof.
  split.
  - intros w now j k Hs Hc Hjk Hk w'. subst w'.
    destruct (half_bounds j k 100 Hjk) as [H1 H2]; [lia|].
    exists (now - 3600000 + 1000 * Z.of_nat (j / 2)),
           (now - 3600000 + 1000 * Z.of_nat (k / 2)).
    unfold timestamp_at.
    rewrite !(HistoricalRunFacts.hist_completed_record w now) by (done || lia).
    cbn [fmap option_fmap option_map]. rewrite !hist_record_timestamp.
    repeat split; lia.
  - intros math_sin math_cos w j k Hc Hjk Hk w'. subst w'.
    destruct (half_bounds j k 1000 Hjk) as [H1 H2]; [lia|].
    exists (0 + 1000 * Z.of_nat (j / 2)), (0 + 1000 * Z.of_nat (k / 2)).
    unfold timestamp_at.
    rewrite !(RealisticRunFacts.real_completed_record math_sin math_cos w)
      by (done || unfold Realistic.num_points; lia).
    cbn [fmap option_fmap option_map]. rewrite !real_record_timestamp.
    repeat split; lia.
Qed.

Lemma X5_timestamps_ordered_witness :
  (sample Demo.world = Some 1700000000000 /\
   fst (Historical.main Demo.world) = Ok tt /\ (3 <= 199)%nat /\ (199 < 200)%nat /\
   let w' := snd (Historical.main Demo.world) in
   exists tj tk,
     timestamp_at Historical.out_path w' 3 = Some tj /\
     timestamp_at Historical.out_path w' 199 = Some tk /\
     1700000000000 - 3600000 <= tj /\ tj <= tk /\
     tk <= 1700000000000 - 3600000 + 99000 /\ tk < 1700000000000) /\
  (fst (Realistic.main Demo.flat_sin Demo.flat_cos Demo.world) = Ok tt /\
   (3 <= 1999)%nat /\ (1999 < 2000)%nat /\
   let w' := snd (Realistic.main Demo.flat_sin Demo.flat_cos Demo.world) in
   exists tj tk,
     timestamp_at Realistic.out_path w' 3 = Some tj /\
     timestamp_at Realistic.out_path w' 1999 = Some tk /\
     0 <= tj /\ tj <= tk /\ tk <= 999000).
Proof.
  assert (A1 : (3 <= 199)%nat) by lia. assert (A2 : (199 < 200)%nat) by lia.
  assert (B1 : (3 <= 1999)%nat) by lia. assert (B2 : (1999 < 2000)%nat) by lia.
  split.
  - exact (conj Claims.demo_sample (conj Claims.demo_historical_completes (conj A1 (conj A2
      (proj1 X5_timestamps_ordered Demo.world 1700000000000 3%nat 199%nat
         Claims.demo_sample Claims.demo_historical_completes A1 A2))))).
  - exact (conj Claims.demo_realistic_completes (conj B1 (conj B2
      (proj2 X5_timestamps_ordered Demo.flat_sin Demo.flat_cos Demo.world 3%nat 1999%nat
         Claims.demo_realistic_completes B1 B2)))).
Defined.

(** X6. In the realistic file the literal of line [2 i] is the two-decimal
    text of [23.0 + 2.0 * sin(i * 2 * pi / 100) + n1] and that of line
    [2 i + 1] the two-decimal text of [23.0 + 2.0 * cos(i * 2 * pi / 100) + n2],
    all in binary64, where [n1 = -0.5 + (0.5 - -0.5) * r1] and [n2] likewise,
    [r1] and [r2] being the draws number [2 i] and [2 i + 1] of the run: each
    literal has a draw of its own. *)
Theorem X6_realistic_literals (math_sin math_cos : float -> float) (w : World) (i : nat) :
  fst (Realistic.main math_sin math_cos w) = Ok tt -> (i < 1000)%nat ->
  let w' := snd (Realistic.main math_sin math_cos w) in
  let angle := (float_of_int (Z.of_nat i * 2) * math_pi / float_of_int 100)%float in
  let n1 := (-0.5 + (0.5 - -0.5) * prng w (rng_draws w + 2 * i)%nat)%float in
  let n2 := (-0.5 + (0.5 - -0.5) * prng w (rng_draws w + (2 * i + 1))%nat)%float in
  literal_at Realistic.out_path w' (2 * i) =
    Some (format_2f (23.0 + 2.0 * math_sin angle + n1)%float) /\
  literal_at Realistic.out_path w' (2 * i + 1) =
    Some (format_2f (23.0 + 2.0 * math_cos angle + n2)%float).
Proof.
  intros Hc Hi w' angle n1 n2.
  destruct (ValueModel.realistic_literals math_sin math_cos w i Hc Hi) as [H1 H2].
  split; [exact H1|]. subst n2.
  replace (2 * i + 1)%nat with (S (2 * i)) at 2 by lia. exact H2.
Qed.

Lemma X6_realistic_literals_witness :
  fst (Realistic.main Demo.flat_sin Demo.flat_cos Demo.world) = Ok tt /\
  (25 < 1000)%nat /\
  let w := Demo.world in
  let w' := snd (Realistic.main Demo.flat_sin Demo.flat_cos w) in
  let angle := (float_of_int (Z.of_nat 25 * 2) * math_pi / float_of_int 100)%float in
  let n1 := (-0.5 + (0.5 - -0.5) * prng w (rng_draws w + 2 * 25)%nat)%float in
  let n2 := (-0.5 + (0.5 - -0.5) * prng w (rng_draws w + (2 * 25 + 1))%nat)%float in
  literal_at Realistic.out_path w' (2 * 25) =
    Some (format_2f (23.0 + 2.0 * Demo.flat_sin angle + n1)%float) /\
  literal_at Realistic.out_path w' (2 * 25 + 1) =
    Some (format_2f (23.0 + 2.0 * Demo.flat_cos angle + n2)%float).
Proof.
  assert (Hi : (25 < 1000)%nat) by lia.
  exact (conj Claims.demo_realistic_completes (conj Hi
    (X6_realistic_literals Demo.flat_sin Demo.flat_cos Demo.world 25
       Claims.demo_realistic_completes Hi))).
Defined.

(** X7. The realistic generator makes one draw for every [write] it
    attempts and none otherwise: a completed run has consumed 2000 draws; a
    run whose first refused request is [q] has consumed as many draws as
    requests came after the [open], the refused one included (none when the
    [open] itself is refused). *)
Theorem X7_realistic_draws :
  (forall (math_sin math_cos : float -> float) (w : World),
     fst (Realistic.main math_sin math_cos w) = Ok tt ->
     rng_draws (snd (Realistic.main math_sin math_cos w)) = (rng_draws w + 2000)%nat) /\
  (forall (math_sin math_cos : float -> float) (w : World) (q : nat),
     first_fault w q -> (q <= io_requests w + 2000)%nat ->
     rng_draws (snd (Realistic.main math_sin math_cos w)) =
       (rng_draws w + (q - io_requests w))%nat).
Proof.
  split.
  - intros math_sin math_cos w. rewrite RealisticFacts.main_outcome.
    intros Hc. by rewrite outcome_draws_ok.
  - intros math_sin math_cos w q Hff Hq. rewrite RealisticFacts.main_outcome.
    rewrite (outcome_draws_fault _ _ _ _ _ _ q Hff); [lia|].
    unfold Realistic.num_points. lia.
Qed.

Lemma X7_realistic_draws_witness :
  (fst (Realistic.main Demo.flat_sin Demo.flat_cos Demo.stale) = Ok tt /\
   rng_draws (snd (Realistic.main Demo.flat_sin Demo.flat_cos Demo.stale)) =
     (rng_draws Demo.stale + 2000)%nat) /\
  (first_fault (Demo.faulty 5) 5 /\
   (5 <= io_requests (Demo.faulty 5) + 2000)%nat /\
   rng_draws (snd (Realistic.main Demo.flat_sin Demo.flat_cos (Demo.faulty 5))) =
     (rng_draws (Demo.faulty 5) + (5 - io_requests (Demo.faulty 5)))%nat).
Proof.
  assert (B : (5 <= io_requests (Demo.faulty 5) + 2000)%nat) by (simpl; lia).
  split.
  - exact (conj Claims.stale_realistic_completes
      (proj1 X7_realistic_draws Demo.flat_sin Demo.flat_cos Demo.stale
         Claims.stale_realistic_completes)).
  - exact (conj Claims.faulty_first_fault (conj B
      (proj2 X7_realistic_draws Demo.flat_sin Demo.flat_cos (Demo.faulty 5) 5%nat
         Claims.faulty_first_fault B))).
Defined.

(** X8. Every literal of the realistic file is the two-decimal text of the
    value of its line: [val1] at the even lines, [val2] at the odd ones, each
    with the noise of its own draw.  When that value is finite the literal
    has exactly two digits after its decimal point; a NaN gives nan, an
    infinity inf or -inf by its sign. *)
Theorem X8_realistic_two_decimals (math_sin math_cos : float -> float)
    (w : World) (k : nat) :
  fst (Realistic.main math_sin math_cos w) = Ok tt -> (k < 2000)%nat ->
  let i := Z.of_nat (k / 2) in
  let n := RealisticRun.noise_of (prng w (rng_draws w + k)%nat) in
  let v := if Nat.even k then RealisticRun.val1 math_sin i n
           else RealisticRun.val2 math_cos i n in
  literal_at Realistic.out_path (snd (Realistic.main math_sin math_cos w)) k
    = Some (format_2f v) /\
  (PrimFloat.is_finite v = true ->
     exists fr, fraction_of (format_2f v) = Some fr /\ String.length fr = 2%nat /\
                all_chars is_digit fr = true) /\
  (PrimFloat.is_nan v = true -> format_2f v = "nan") /\
  (PrimFloat.is_infinity v = true ->
     format_2f v = if (v <? 0)%float then "-inf" else "inf").
Proof.
  intros Hc Hk i n v. split; [|apply format_2f_cases].
  unfold literal_at.
  rewrite (RealisticRunFacts.real_completed_record math_sin math_cos w)
    by (done || unfold Realistic.num_points; lia).
  unfold RealisticRecords.record. subst v n i.
  by destruct (Nat.even k).
Qed.

Lemma X8_realistic_two_decimals_witness :
  fst (Realistic.main Demo.flat_sin Demo.flat_cos Demo.world) = Ok tt /\
  (1999 < 2000)%nat /\
  let w := Demo.world in
  let i := Z.of_nat (1999 / 2) in
  let n := RealisticRun.noise_of (prng w (rng_draws w + 1999)%nat) in
  let v := if Nat.even 1999 then RealisticRun.val1 Demo.flat_sin i n
           else RealisticRun.val2 Demo.flat_cos i n in
  literal_at Realistic.out_path
    (snd (Realistic.main Demo.flat_sin Demo.flat_cos w)) 1999 = Some (format_2f v) /\
  (PrimFloat.is_finite v = true ->
     exists fr, fraction_of (format_2f v) = Some fr /\ String.length fr = 2%nat /\
                all_chars is_digit fr = true) /\
  (PrimFloat.is_nan v = true -> format_2f v = "nan") /\
  (PrimFloat.is_infinity v = true ->
     format_2f v = if (v <? 0)%float then "-inf" else "inf").
Proof.
  assert (Hk : (1999 < 2000)%nat) by lia.
  exact (conj Claims.demo_realistic_completes (conj Hk
    (X8_realistic_two_decimals Demo.flat_sin Demo.flat_cos Demo.world 1999
       Claims.demo_realistic_completes Hk))).
Defined.

(** X9. No line occurs twice in the file of a completed run: two lines
    differ in the sensor or in the timestamp. *)
Theorem X9_no_duplicate_lines :
  (forall (w : World) (now : Z),
     sample w = Some now -> fst (Historical.main w) = Ok tt ->
     NoDup (lines_of Historical.out_path (snd (Historical.main w)))) /\
  (forall (math_sin math_cos : float -> float) (w : World),
     fst (Realistic.main math_sin math_cos w) = Ok tt ->
     NoDup (lines_of Realistic.out_path (snd (Realistic.main math_sin math_cos w)))).
Proof.
  split.
  - intros w now Hs Hc.
    rewrite (lines_of_written _ _ (HistoricalRunFacts.hist_line_record now)
               (HistoricalRunFacts.hist_record_wf now) _ _ _
               (HistoricalRunFacts.hist_completed_contents _ _ Hs Hc)).
    apply (lines_nodup _ (HistoricalRecords.record now) (now - 3600000) 1000).
    + apply HistoricalRunFacts.hist_line_record.
    + apply HistoricalRunFacts.hist_record_wf.
    + apply hist_record_timestamp.
    + done.
    + apply hist_record_subject.
  - intros math_sin math_cos w Hc.
    rewrite (lines_of_written _ _
               (RealisticRunFacts.real_line_record math_sin math_cos (prng w) (rng_draws w))
               (RealisticRunFacts.real_record_wf math_sin math_cos (prng w) (rng_draws w))
               _ _ _ (RealisticRunFacts.real_completed_contents _ _ _ Hc)).
    apply (lines_nodup _ (RealisticRecords.record math_sin math_cos (prng w) (rng_draws w))
             0 1000).
    + apply RealisticRunFacts.real_line_record.
    + apply RealisticRunFacts.real_record_wf.
    + apply real_record_timestamp.
    + done.
    + apply real_record_subject.
Qed.

Lemma X9_no_duplicate_lines_witness :
  (sample Demo.world = Some 1700000000000 /\
   fst (Historical.main Demo.world) = Ok tt /\
   NoDup (lines_of Historical.out_path (snd (Historical.main Demo.world)))) /\
  (fst (Realistic.main Demo.flat_sin Demo.flat_cos Demo.world) = Ok tt /\
   NoDup (lines_of Realistic.out_path
            (snd (Realistic.main Demo.flat_sin Demo.flat_cos Demo.world)))).
Proof.
  split.
  - exact (conj Claims.demo_sample (conj Claims.demo_historical_completes
      (proj1 X9_no_duplicate_lines Demo.world 1700000000000
         Claims.demo_sample Claims.demo_historical_completes))).
  - exact (conj Claims.demo_realistic_completes
      (proj2 X9_no_duplicate_lines Demo.flat_sin Demo.flat_cos Demo.world
         Claims.demo_realistic_completes)).
Defined.

(** X10. Every literal of the historical file is a bare two-digit integer:
    two digits, no sign and no decimal point, although it is tagged as an
    XML Schema decimal. *)
Theorem X10_historical_integer_literals (w : World) (now : Z) (k : nat) :
  sample w = Some now -> fst (Historical.main w) = Ok tt -> (k < 200)%nat ->
  exists lit,
    literal_at Historical.out_path (snd (Historical.main w)) k = Some lit /\
    String.length lit = 2%nat /\ all_chars is_digit lit = true /\
    fraction_of lit = None.
Proof.
  intros Hs Hc Hk. unfold literal_at.
  rewrite (HistoricalRunFacts.hist_completed_record w now) by (done || lia).
  eexists. split; [reflexivity|].
  assert (Hr : 0 <= Z.of_nat (k / 2) mod 5 < 5) by (apply Z.mod_pos_bound; lia).
  assert (Z.of_nat (k / 2) mod 5 = 0 \/ Z.of_nat (k / 2) mod 5 = 1 \/
          Z.of_nat (k / 2) mod 5 = 2 \/ Z.of_nat (k / 2) mod 5 = 3 \/
          Z.of_nat (k / 2) mod 5 = 4) as Hcases by lia.
  clear Hr. unfold HistoricalRecords.record.
  destruct (Nat.even k); cbn [literal HistoricalRun.quad1 HistoricalRun.quad2];
    destruct Hcases as [E | [E | [E | [E | E]]]]; rewrite E;
    repeat split; reflexivity.
Qed.

Lemma X10_historical_integer_literals_witness :
  sample Demo.world = Some 1700000000000 /\
  fst (Historical.main Demo.world) = Ok tt /\ (199 < 200)%nat /\
  exists lit,
    literal_at Historical.out_path (snd (Historical.main Demo.world)) 199 = Some lit /\
    String.length lit = 2%nat /\ all_chars is_digit lit = true /\
    fraction_of lit = None.
Proof.
  assert (Hk : (199 < 200)%nat) by lia.
  exact (conj Claims.demo_sample (conj Claims.demo_historical_completes (conj Hk
    (X10_historical_integer_literals Demo.world 1700000000000 199
       Claims.demo_sample Claims.demo_historical_completes Hk)))).
Defined.

End Extra.
